(** * uftrace python tracer: symbol registry, identity cache, event adapter

    A shallow embedding of [python/trace-python.c].  The shared symbol
    table, the process-local code tree and the trace callback are
    translated function by function; operating-system and interpreter
    services the C code calls into (shm_open, ftruncate, mremap, fopen,
    fwrite, getenv, attribute lookup) are described by an explicit
    environment record and an explicit object heap. *)

From Stdlib Require Import ZArith List String Ascii Bool Lia.
From Stdlib.Strings Require Import Byte.
Import ListNotations.
Open Scope Z_scope.

(** ** Machine integers *)

(** [uint32_t] and [unsigned]: arithmetic modulo 2^32. *)
Definition wrap32 (z : Z) : Z := z mod 2 ^ 32.

(** [int]: the two's complement reading of the low 32 bits. *)
Definition int32 (z : Z) : Z := (z + 2 ^ 31) mod 2 ^ 32 - 2 ^ 31.

(** Raw object addresses; [NULL] is 0. *)
Definition ptr := Z.
Definition NULL : ptr := 0.

(** [UFTRACE_PYTHON_SYMTAB_SIZE] and [UFTRACE_PYTHON_SYMTAB_HDRSZ]. *)
Definition UFTRACE_PYTHON_SYMTAB_SIZE : Z := 1 * 1024 * 1024.
Definition UFTRACE_PYTHON_SYMTAB_HDRSZ : Z := 48.

(** ** The packed header word

    [union uftrace_python_symtab] overlays [val] with the pair
    [count], [offset]; on the little-endian targets the tracer runs on,
    [count] is the low half of [val] and [offset] the high half. *)
Definition hdr_count (v : Z) : Z := v mod 2 ^ 32.
Definition hdr_offset (v : Z) : Z := (v / 2 ^ 32) mod 2 ^ 32.
Definition hdr_pack (count offset : Z) : Z := wrap32 count + 2 ^ 32 * wrap32 offset.

(** ** C strings and printf conversions *)

Definition NUL : byte := x00.

(** The bytes of a C string: everything before the first NUL. *)
Fixpoint c_str (s : string) : list byte :=
  match s with
  | EmptyString => []
  | String c r => if Ascii.eqb c Ascii.zero then [] else byte_of_ascii c :: c_str r
  end.

Definition blen (l : list byte) : Z := Z.of_nat (List.length l).

Definition strlen (s : string) : Z := blen (c_str s).

Definition bytes (s : string) : list byte := list_byte_of_string s.

Definition hex_digit (d : Z) : byte :=
  nth (Z.to_nat d)
      [x30; x31; x32; x33; x34; x35; x36; x37; x38; x39; x61; x62; x63; x64; x65; x66] x30.

(** ["%016x"] applied to an [unsigned] argument. *)
Definition fmt_016x (n : Z) : list byte :=
  map (fun i => hex_digit ((n / 16 ^ i) mod 16))
      [15; 14; 13; 12; 11; 10; 9; 8; 7; 6; 5; 4; 3; 2; 1; 0].

Fixpoint dec_digits (fuel : nat) (n : Z) (acc : list byte) : list byte :=
  match fuel with
  | O => acc
  | S f =>
      let acc' := hex_digit (n mod 10) :: acc in
      if n / 10 =? 0 then acc' else dec_digits f (n / 10) acc'
  end.

(** ["%u"] applied to an [unsigned] argument (at most ten digits). *)
Definition fmt_u (n : Z) : list byte := dec_digits 10 n [].

(** ["%016x %c %s\n"]. *)
Definition sym_line (addr : Z) (kind : byte) (name : list byte) : list byte :=
  fmt_016x addr ++ [x20] ++ [kind] ++ [x20] ++ name ++ [x0a].

(** [snprintf(dst, n, ...)] stores at most [n - 1] characters of the
    formatted text followed by a terminating NUL (nothing when [n] is 0). *)
Definition snprintf_bytes (n : Z) (text : list byte) : list byte :=
  if n <=? 0 then [] else firstn (Z.to_nat (n - 1)) text ++ [NUL].

(** ** Memory *)

Definition mem := Z -> byte.

Definition zero_mem : mem := fun _ => NUL.

Definition store_bytes (m : mem) (off : Z) (bs : list byte) : mem :=
  fun i =>
    if (off <=? i) && (i <? off + blen bs)
    then nth (Z.to_nat (i - off)) bs NUL
    else m i.

Definition load_bytes (m : mem) (off : Z) (n : nat) : list byte :=
  map (fun k => m (off + Z.of_nat k)) (seq 0 n).

(** ** State *)

(** The shared-memory object behind [/uftrace-python-PID]: visible to every
    process that maps it. *)
Record shm_seg := {
  val : Z;                (* symtab->val: count and offset, packed *)
  data : mem;             (* the bytes of the object, by offset *)
  shm_length : Z;         (* its length, as set by ftruncate *)
  shm_linked : bool       (* the name still exists *)
}.

(** One process's view of the object. *)
Record mapping := {
  symtab : bool;               (* symtab points at a live mapping *)
  uftrace_symtab_size : Z;     (* current symbol table size *)
  uftrace_shmem_fd : bool      (* descriptor is open *)
}.

(** [struct uftrace_python_symbol] nodes of [code_tree]. *)
Inductive rb_tree :=
| rb_nil
| rb_node (rb_left : rb_tree) (code : ptr) (addr : Z) (rb_right : rb_tree).

Inductive hook_call :=
| Enter (child parent : Z)       (* cygprof_enter(child, parent) *)
| Exit (child parent : Z).       (* cygprof_exit(child, parent) *)

Inductive warning :=
| WarnOpenFailed                 (* writing symbol table of python program failed *)
| WarnHeaderSize (len : Z).      (* symbol header size should be 64 *)

Record adapter := {
  code_tree : rb_tree;
  first_frame : ptr;
  skip_first_frame : bool;
  cygprof_enter : ptr;
  cygprof_exit : ptr;
  trace_func : option ptr        (* module state, when PyState_FindModule finds it *)
}.

Record state := {
  seg : shm_seg;
  map_ : mapping;
  adp : adapter;
  debug : bool;
  files : list (string * list byte);   (* the file system: path, content *)
  hook_log : list hook_call;
  warn_log : list warning
}.

(** What the operating system answers. *)
Record os_env := {
  env_UFTRACE_SHMEM : bool;            (* getenv("UFTRACE_SHMEM") != NULL *)
  env_UFTRACE_DEBUG : bool;
  env_UFTRACE_DIR : option string;
  shm_open_ok : bool;
  shm_limit : Z;                       (* largest size ftruncate/mmap/mremap grant *)
  fopen_ok : string -> bool;
  fwrite_chunk : Z;                    (* items one fwrite call manages to write *)
  libmcount_hooks : ptr * ptr          (* what the scan of /proc/self/maps resolves *)
}.

(** Field updates. *)
Definition set_seg (f : shm_seg -> shm_seg) (s : state) : state :=
  {| seg := f (seg s); map_ := map_ s; adp := adp s; debug := debug s;
     files := files s; hook_log := hook_log s; warn_log := warn_log s |}.
Definition set_map (f : mapping -> mapping) (s : state) : state :=
  {| seg := seg s; map_ := f (map_ s); adp := adp s; debug := debug s;
     files := files s; hook_log := hook_log s; warn_log := warn_log s |}.
Definition set_adp (f : adapter -> adapter) (s : state) : state :=
  {| seg := seg s; map_ := map_ s; adp := f (adp s); debug := debug s;
     files := files s; hook_log := hook_log s; warn_log := warn_log s |}.
Definition set_debug (b : bool) (s : state) : state :=
  {| seg := seg s; map_ := map_ s; adp := adp s; debug := b;
     files := files s; hook_log := hook_log s; warn_log := warn_log s |}.
Definition set_files (f : list (string * list byte)) (s : state) : state :=
  {| seg := seg s; map_ := map_ s; adp := adp s; debug := debug s;
     files := f; hook_log := hook_log s; warn_log := warn_log s |}.
Definition log_hook (h : hook_call) (s : state) : state :=
  {| seg := seg s; map_ := map_ s; adp := adp s; debug := debug s;
     files := files s; hook_log := hook_log s ++ [h]; warn_log := warn_log s |}.
Definition pr_warn (w : warning) (s : state) : state :=
  {| seg := seg s; map_ := map_ s; adp := adp s; debug := debug s;
     files := files s; hook_log := hook_log s; warn_log := warn_log s ++ [w] |}.

Definition seg_val (v : Z) (g : shm_seg) : shm_seg :=
  {| val := v; data := data g; shm_length := shm_length g; shm_linked := shm_linked g |}.
Definition seg_data (d : mem) (g : shm_seg) : shm_seg :=
  {| val := val g; data := d; shm_length := shm_length g; shm_linked := shm_linked g |}.
Definition seg_length (n : Z) (g : shm_seg) : shm_seg :=
  {| val := val g; data := data g; shm_length := n; shm_linked := shm_linked g |}.
Definition seg_linked (b : bool) (g : shm_seg) : shm_seg :=
  {| val := val g; data := data g; shm_length := shm_length g; shm_linked := b |}.

Definition map_symtab (b : bool) (m : mapping) : mapping :=
  {| symtab := b; uftrace_symtab_size := uftrace_symtab_size m;
     uftrace_shmem_fd := uftrace_shmem_fd m |}.
Definition map_size (n : Z) (m : mapping) : mapping :=
  {| symtab := symtab m; uftrace_symtab_size := n;
     uftrace_shmem_fd := uftrace_shmem_fd m |}.
Definition map_fd (b : bool) (m : mapping) : mapping :=
  {| symtab := symtab m; uftrace_symtab_size := uftrace_symtab_size m;
     uftrace_shmem_fd := b |}.

(** ** Outcomes

    A call either returns, or ends the process through [pr_err]
    ([Fatal]), or runs into undefined behaviour such as a NULL or
    out-of-bounds access ([Fault]), or never returns ([Hang]).  The state
    reached is kept in every case. *)
Inductive outcome (A : Type) :=
| Ok (a : A) (s : state)
| Fatal (s : state)
| Fault (s : state)
| Hang (s : state).
Arguments Ok {A} a s.
Arguments Fatal {A} s.
Arguments Fault {A} s.
Arguments Hang {A} s.

Definition M (A : Type) := state -> outcome A.

Definition ret {A} (a : A) : M A := fun s => Ok a s.
Definition bind {A B} (m : M A) (k : A -> M B) : M B :=
  fun s =>
    match m s with
    | Ok a s' => k a s'
    | Fatal s' => Fatal s'
    | Fault s' => Fault s'
    | Hang s' => Hang s'
    end.
Definition get : M state := fun s => Ok s s.
Definition modify (f : state -> state) : M unit := fun s => Ok tt (f s).
Definition pr_err {A} : M A := fun s => Fatal s.
Definition fault {A} : M A := fun s => Fault s.
Definition hang {A} : M A := fun s => Hang s.
Definition guard_mapped : M unit :=
  fun s => if symtab (map_ s) then Ok tt s else Fault s.

Declare Scope m_scope.
Delimit Scope m_scope with m.
Notation "x <- m ;; k" := (bind m (fun x => k))
  (at level 61, m at next level, right associativity) : m_scope.
Notation "m ;;; k" := (bind m (fun _ => k))
  (at level 61, right associativity) : m_scope.
Open Scope m_scope.

(** ** Operating-system primitives *)

Definition trunc_mem (n : Z) (d : mem) : mem := fun i => if i <? n then d i else NUL.

Fixpoint lookup_file (path : string) (f : list (string * list byte)) : option (list byte) :=
  match f with
  | [] => None
  | (p, c) :: r => if String.eqb p path then Some c else lookup_file path r
  end.

Fixpoint update_file (path : string) (c : list byte) (f : list (string * list byte))
  : list (string * list byte) :=
  match f with
  | [] => [(path, c)]
  | (p, c') :: r =>
      if String.eqb p path then (p, c) :: r else (p, c') :: update_file path c r
  end.

Section Program.

Variable e : os_env.

(** [UFTRACE_PYTHON_SYMTAB_NAME] comes from [uftrace.h]. *)
Variable UFTRACE_PYTHON_SYMTAB_NAME : string.

(** [ftruncate(uftrace_shmem_fd, n) >= 0]: the object gets length [n];
    bytes cut off are gone and bytes added read as zero. *)
Definition ftruncate (n : Z) : M bool :=
  fun s =>
    if uftrace_shmem_fd (map_ s) && (0 <=? n) && (n <=? shm_limit e)
    then Ok true (set_seg (fun g => seg_length n (seg_data (trunc_mem n (data g)) g)) s)
    else Ok false s.

(** [mmap]/[mremap] to [n] bytes succeeded (a zero length is refused). *)
Definition map_pages (n : Z) : M bool :=
  fun s =>
    if (0 <? n) && (n <=? shm_limit e)
    then Ok true (set_map (map_symtab true) s)
    else Ok false (set_map (map_symtab false) s).

(** A store of [bs] at [symtab + off]; outside the mapping or the object
    it is an invalid access. *)
Definition store_at (off : Z) (bs : list byte) : M unit :=
  fun s =>
    if symtab (map_ s) && (0 <=? off)
       && (off + blen bs <=? uftrace_symtab_size (map_ s))
       && (off + blen bs <=? shm_length (seg s))
    then Ok tt (set_seg (fun g => seg_data (store_bytes (data g) off bs) g) s)
    else Fault s.

(** [__sync_val_compare_and_swap(&symtab->val, old, new)]. *)
Definition cas (old new : Z) : M Z :=
  fun s =>
    let cur := val (seg s) in
    Ok cur (if cur =? old then set_seg (seg_val new) s else s).

(** [fopen(path, "w") != NULL]: the file is created or emptied. *)
Definition fopen_w (path : string) : M bool :=
  fun s =>
    if fopen_ok e path
    then Ok true (set_files (update_file path [] (files s)) s)
    else Ok false s.

(** [fprintf(fp, ...)]: appends the text and returns its length. *)
Definition fprintf (path : string) (text : list byte) : M Z :=
  fun s =>
    match lookup_file path (files s) with
    | Some c => Ok (blen text) (set_files (update_file path (c ++ text) (files s)) s)
    | None => Fault s
    end.

(** [fwrite(symtab + buf, 1, len, fp)]: at most [fwrite_chunk] items get
    through; the bytes are read from the mapping, inside the object. *)
Definition fwrite (path : string) (buf len : Z) : M Z :=
  fun s =>
    let n := Z.max 0 (Z.min len (fwrite_chunk e)) in
    if symtab (map_ s) && (0 <=? buf)
       && (buf + n <=? uftrace_symtab_size (map_ s))
       && (buf + n <=? shm_length (seg s))
    then
      match lookup_file path (files s) with
      | Some c =>
          Ok n (set_files
                  (update_file path (c ++ load_bytes (data (seg s)) buf (Z.to_nat n)) (files s)) s)
      | None => Fault s
      end
    else Fault s.

(** ** The symbol table *)

Definition init_symtab : M unit :=
  (* uftrace_shmem_open(name, O_RDWR | O_CREAT | O_TRUNC, 0600) *)
  (if shm_open_ok e
   then modify (fun s =>
          set_map (map_fd true)
            (set_seg (fun _ => {| val := 0; data := zero_mem;
                                   shm_length := 0; shm_linked := true |}) s))
   else pr_err) ;;;
  ok <- ftruncate UFTRACE_PYTHON_SYMTAB_SIZE ;;
  (if ok then ret tt else pr_err) ;;;
  ok <- map_pages UFTRACE_PYTHON_SYMTAB_SIZE ;;
  (if ok then ret tt else pr_err) ;;;
  (* symtab->count = 0; symtab->offset = HDRSZ *)
  modify (set_seg (fun g => seg_val (hdr_pack 0 (hdr_offset (val g))) g)) ;;;
  modify (set_seg (fun g =>
            seg_val (hdr_pack (hdr_count (val g)) UFTRACE_PYTHON_SYMTAB_HDRSZ) g)) ;;;
  modify (set_map (map_size UFTRACE_PYTHON_SYMTAB_SIZE)).

(** [int entry_size = strlen(name) + 20]. *)
Definition entry_size_of (name : string) : Z := int32 (strlen name + 20).

(** The header a caller proposes from the one it last saw. *)
Definition next_hdr (old_hdr entry_size : Z) : Z :=
  hdr_pack (hdr_count old_hdr + 1) (hdr_offset old_hdr + entry_size).

(** The retry loop around the compare-and-swap; returns the old and the
    new header of the successful swap. *)
Fixpoint cas_loop (fuel : nat) (old_hdr entry_size : Z) : M (Z * Z) :=
  match fuel with
  | O => hang
  | S f =>
      let new_hdr := next_hdr old_hdr entry_size in
      tmp_hdr <- cas old_hdr new_hdr ;;
      if tmp_hdr =? old_hdr then ret (old_hdr, new_hdr)
      else cas_loop f tmp_hdr entry_size
  end.

(** The body of [if (new_hdr.offset >= uftrace_symtab_size)]. *)
Definition grow_symtab : M unit :=
  s <- get ;;
  let new_symtab_size :=
    wrap32 (uftrace_symtab_size (map_ s) + UFTRACE_PYTHON_SYMTAB_SIZE) in
  ok <- ftruncate new_symtab_size ;;
  (if ok then ret tt else pr_err) ;;;
  ok <- map_pages new_symtab_size ;;
  (if ok then ret tt else pr_err) ;;;
  modify (set_map (map_size new_symtab_size)).

Definition kind_char (is_pyfunc : bool) : byte := if is_pyfunc then x54 else x74.

(** The bytes [snprintf(data + old_hdr.offset, entry_size + 1, ...)] stores. *)
Definition entry_bytes (count : Z) (is_pyfunc : bool) (name : string) : list byte :=
  snprintf_bytes ((entry_size_of name + 1) mod 2 ^ 64)
                 (sym_line count (kind_char is_pyfunc) (c_str name)).

(** Everything after the swap: the growth check and the formatted store. *)
Definition write_sym (old_hdr new_hdr : Z) (name : string) (is_pyfunc : bool) : M Z :=
  s <- get ;;
  (if hdr_offset new_hdr >=? uftrace_symtab_size (map_ s)
   then grow_symtab else ret tt) ;;;
  store_at (hdr_offset old_hdr) (entry_bytes (hdr_count new_hdr) is_pyfunc name) ;;;
  ret (hdr_count new_hdr).

(** [get_new_sym_addr] as one process runs it.  The header can change
    between the read of [symtab->val] and the swap only through another
    process, so here the first swap succeeds; the interleaving of
    several processes is [step] below. *)
Definition get_new_sym_addr (name : string) (is_pyfunc : bool) : M Z :=
  guard_mapped ;;;
  s <- get ;;
  hs <- cas_loop 1 (val (seg s)) (entry_size_of name) ;;
  write_sym (fst hs) (snd hs) name is_pyfunc.

(** The [while (len)] loop of [write_symtab]. *)
Fixpoint copy_loop (fuel : nat) (path : string) (buf len : Z) : M unit :=
  if len =? 0 then ret tt
  else
    match fuel with
    | O => hang
    | S f =>
        n <- fwrite path buf len ;;
        let size := int32 n in
        if size <? 0 then pr_err
        else copy_loop f path (buf + size) (wrap32 (len - size))
    end.

Definition sym_end_line (count : Z) : list byte :=
  sym_line (wrap32 (count + 1)) x3f (bytes "__sym_end").

Definition symtab_path (dirname : string) : string :=
  (dirname ++ "/" ++ UFTRACE_PYTHON_SYMTAB_NAME ++ ".sym")%string.

(** The header comment: three [fprintf] calls; the last pads with
    [HDRSZ - 2 - len] blanks. *)
Definition header_line1 (count : Z) : list byte :=
  bytes "# symbols: " ++ fmt_u count ++ [x0a].
Definition header_line2 : list byte :=
  bytes "# path name: " ++ c_str UFTRACE_PYTHON_SYMTAB_NAME ++ [x0a].
Definition header_line3 (len : Z) : list byte :=
  [x23] ++ repeat x20 (Z.to_nat (Z.abs (int32 (wrap32 (UFTRACE_PYTHON_SYMTAB_HDRSZ - 2 - len)))))
        ++ [x0a].

Definition write_symtab (dirname : string) : M unit :=
  let filename := symtab_path dirname in
  fp <- fopen_w filename ;;
  if negb fp then modify (pr_warn WarnOpenFailed)
  else
    s <- get ;;
    (if debug s then guard_mapped else ret tt) ;;;
    guard_mapped ;;;
    l1 <- fprintf filename (header_line1 (hdr_count (val (seg s)))) ;;
    l2 <- fprintf filename header_line2 ;;
    l3 <- fprintf filename (header_line3 (wrap32 (l1 + l2))) ;;
    let len := wrap32 (l1 + l2 + l3) in
    (if len =? UFTRACE_PYTHON_SYMTAB_HDRSZ then ret tt
     else modify (pr_warn (WarnHeaderSize len))) ;;;
    let len := wrap32 (hdr_offset (val (seg s)) - UFTRACE_PYTHON_SYMTAB_HDRSZ) in
    copy_loop (Z.to_nat len) filename UFTRACE_PYTHON_SYMTAB_HDRSZ len ;;;
    _ <- fprintf filename (sym_end_line (hdr_count (val (seg s)))) ;;
    (* munmap, close, uftrace_shmem_unlink *)
    modify (set_map (map_symtab false)) ;;;
    modify (set_map (map_fd false)) ;;;
    modify (set_seg (seg_linked false)).

(** The scan of [/proc/self/maps] and of the library's symbol table
    (whose ELF helpers are in [utils/symbol.h]) is summarised by what it
    resolves: [libmcount_hooks e], with [NULL] for a symbol not found. *)
Definition find_libmcount_funcs : M unit :=
  modify (set_adp (fun a =>
    {| code_tree := code_tree a; first_frame := first_frame a;
       skip_first_frame := skip_first_frame a;
       cygprof_enter := fst (libmcount_hooks e);
       cygprof_exit := snd (libmcount_hooks e);
       trace_func := trace_func a |})).

Definition init_uftrace : M unit :=
  if negb (env_UFTRACE_SHMEM e) then ret tt
  else
    (if env_UFTRACE_DEBUG e then modify (set_debug true) else ret tt) ;;;
    init_symtab ;;;
    find_libmcount_funcs.

End Program.

(** ** Process start *)

(** Static storage before the module is initialised: everything zero. *)
Definition boot_state : state :=
  {| seg := {| val := 0; data := zero_mem; shm_length := 0; shm_linked := false |};
     map_ := {| symtab := false; uftrace_symtab_size := 0; uftrace_shmem_fd := false |};
     adp := {| code_tree := rb_nil; first_frame := NULL; skip_first_frame := false;
               cygprof_enter := NULL; cygprof_exit := NULL; trace_func := None |};
     debug := false;
     files := [];
     hook_log := [];
     warn_log := [] |}.

(** An environment in which every request is granted. *)
Definition fair_env : os_env :=
  {| env_UFTRACE_SHMEM := true; env_UFTRACE_DEBUG := false; env_UFTRACE_DIR := None;
     shm_open_ok := true; shm_limit := 2 ^ 40; fopen_ok := fun _ => true;
     fwrite_chunk := 4096; libmcount_hooks := (4198400, 4198912) |}.

(** ** Interpreter objects

    What the C code can observe of a [PyObject]: its type, as far as
    [PyUnicode_Check], [PyDict_GetItemString] and [PyCFunction_Check]
    distinguish it, and its attributes by name.  A missing attribute is a
    failed [PyObject_GetAttrString], that is [NULL]. *)
Inductive pytype :=
| Unicode (s : string)
| Dict (items : list (string * ptr))
| CFunction (m_module : ptr)
| Other.

Record pyobj := { ob_type : pytype; ob_attrs : list (string * ptr) }.

Definition heap := ptr -> pyobj.

Fixpoint assoc (k : string) (l : list (string * ptr)) : ptr :=
  match l with
  | [] => NULL
  | (k', v) :: r => if String.eqb k' k then v else assoc k r
  end.

Fixpoint bytes_eqb (a b : list byte) : bool :=
  match a, b with
  | [], [] => true
  | x :: a', y :: b' => Byte.eqb x y && bytes_eqb a' b'
  | _, _ => false
  end.

(** [!strcmp(a, b)]. *)
Definition streq (a b : string) : bool := bytes_eqb (c_str a) (c_str b).

(** [xasprintf(&s, "%s.%s", a, b)]. *)
Definition dotted (a b : string) : string :=
  string_of_list_byte (c_str a ++ [x2e] ++ c_str b).

Inductive pyret :=
| Py_None
| Py_Object (o : ptr).

Definition adp_tree (t : rb_tree) (a : adapter) : adapter :=
  {| code_tree := t; first_frame := first_frame a;
     skip_first_frame := skip_first_frame a; cygprof_enter := cygprof_enter a;
     cygprof_exit := cygprof_exit a; trace_func := trace_func a |}.
Definition adp_first_frame (f : ptr) (a : adapter) : adapter :=
  {| code_tree := code_tree a; first_frame := f;
     skip_first_frame := skip_first_frame a; cygprof_enter := cygprof_enter a;
     cygprof_exit := cygprof_exit a; trace_func := trace_func a |}.
Definition adp_module (f : ptr) (skip : bool) (a : adapter) : adapter :=
  {| code_tree := code_tree a; first_frame := first_frame a;
     skip_first_frame := skip; cygprof_enter := cygprof_enter a;
     cygprof_exit := cygprof_exit a; trace_func := Some f |}.

(** The descent of [convert_function_addr] through [code_tree]: larger
    code pointers are on the left. *)
Fixpoint rb_find (t : rb_tree) (c : ptr) : option Z :=
  match t with
  | rb_nil => None
  | rb_node l c' a r =>
      if c' =? c then Some a
      else if c' <? c then rb_find l c else rb_find r c
  end.

(** [rb_link_node] at the empty slot the same descent ends in. *)
Fixpoint rb_link (t : rb_tree) (c : ptr) (a : Z) : rb_tree :=
  match t with
  | rb_nil => rb_node rb_nil c a rb_nil
  | rb_node l c' a' r =>
      if c' <? c then rb_node (rb_link l c a) c' a' r
      else rb_node l c' a' (rb_link r c a)
  end.

Fixpoint rb_inorder (t : rb_tree) : list (ptr * Z) :=
  match t with
  | rb_nil => []
  | rb_node l c a r => rb_inorder l ++ (c, a) :: rb_inorder r
  end.

Section Adapter.

Variable e : os_env.
Variable h : heap.

(** [rb_insert_color] of [utils/rbtree.h]: recolours and rotates. *)
Variable rb_insert_color : rb_tree -> rb_tree.

(** [UFTRACE_PYTHON_SYMTAB_NAME] and [UFTRACE_DIR_NAME] of [uftrace.h]. *)
Variable UFTRACE_PYTHON_SYMTAB_NAME : string.
Variable UFTRACE_DIR_NAME : string.

Definition PyObject_GetAttrString (o : ptr) (name : string) : ptr :=
  assoc name (ob_attrs (h o)).

Definition PyObject_HasAttrString (o : ptr) (name : string) : bool :=
  negb (PyObject_GetAttrString o name =? NULL).

Definition PyDict_GetItemString (o : ptr) (key : string) : ptr :=
  match ob_type (h o) with
  | Dict items => assoc key items
  | _ => NULL
  end.

Definition is_string_type (o : ptr) : bool :=
  match ob_type (h o) with Unicode _ => true | _ => false end.

Definition PyCFunction_Check (o : ptr) : bool :=
  match ob_type (h o) with CFunction _ => true | _ => false end.

Definition cfunc_m_module (o : ptr) : ptr :=
  match ob_type (h o) with CFunction m => m | _ => NULL end.

(** [get_c_string]: [NULL] (here [None]) for an object that is not a
    string; applied to [NULL] it is an invalid access. *)
Definition get_c_string (o : ptr) : M (option string) :=
  if o =? NULL then fault
  else match ob_type (h o) with
       | Unicode s => ret (Some s)
       | _ => ret None
       end.

(** A [char *] handed to [strcmp], [strdup] or ["%s"] must not be [NULL]. *)
Definition deref (s : option string) : M string :=
  match s with Some x => ret x | None => fault end.

Definition get_python_funcname (frame code : ptr) : M (option string) :=
  let name :=
    if PyObject_HasAttrString code "co_qualname"
    then PyObject_GetAttrString code "co_qualname"
    else PyObject_GetAttrString code "co_name" in
  let global := PyObject_GetAttrString frame "f_globals" in
  func_name <-
    (if negb (global =? NULL) && negb (name =? NULL) then
       let mod_ := PyDict_GetItemString global "__name__" in
       name_str <- get_c_string name ;;
       if negb (mod_ =? NULL) && is_string_type mod_ then
         mod_str <- (o <- get_c_string mod_ ;; deref o) ;;
         if negb (streq mod_str "__main__") then
           n <- deref name_str ;; ret (Some (dotted mod_str n))
         else
           n <- deref name_str ;;
           if streq n "<module>" then ret (Some (dotted mod_str n)) else ret None
       else ret None
     else ret None) ;;
  match func_name with
  | Some f => ret (Some f)
  | None =>
      if negb (name =? NULL) then
        n <- (o <- get_c_string name ;; deref o) ;;
        ret (Some (string_of_list_byte (c_str n)))
      else ret None
  end.

Definition get_c_funcname (frame code : ptr) : M (option string) :=
  if negb (PyCFunction_Check code) then ret None
  else
    let name :=
      if PyObject_HasAttrString code "__qualname__"
      then PyObject_GetAttrString code "__qualname__"
      else PyObject_GetAttrString code "__name__" in
    let mod_ := cfunc_m_module code in
    if negb (mod_ =? NULL) && is_string_type mod_ then
      m <- (o <- get_c_string mod_ ;; deref o) ;;
      n <- (o <- get_c_string name ;; deref o) ;;
      ret (Some (dotted m n))
    else
      n <- (o <- get_c_string name ;; deref o) ;;
      ret (Some (dotted "builtins" n)).

(** The code object an event is keyed by, [NULL] when the frame has no
    [f_code]. *)
Definition code_of (frame args : ptr) (is_pyfunc : bool) : ptr :=
  let code := PyObject_GetAttrString frame "f_code" in
  if code =? NULL then NULL else if is_pyfunc then code else args.

Definition convert_function_addr (frame args : ptr) (is_pyfunc : bool) : M Z :=
  let code := PyObject_GetAttrString frame "f_code" in
  if code =? NULL then ret 0
  else
    let code := if is_pyfunc then code else args in
    s <- get ;;
    match rb_find (code_tree (adp s)) code with
    | Some a => ret a
    | None =>
        func_name <- (if is_pyfunc then get_python_funcname frame code
                      else get_c_funcname frame code) ;;
        match func_name with
        | None => ret 0
        | Some name =>
            a <- get_new_sym_addr e name is_pyfunc ;;
            modify (set_adp (fun d =>
              adp_tree (rb_insert_color (rb_link (code_tree d) code a)) d)) ;;;
            ret a
        end
    end.

Definition call_enter (child parent : Z) : M unit :=
  fun s => if cygprof_enter (adp s) =? NULL then Fault s
           else Ok tt (log_hook (Enter child parent) s).

Definition call_exit (child parent : Z) : M unit :=
  fun s => if cygprof_exit (adp s) =? NULL then Fault s
           else Ok tt (log_hook (Exit child parent) s).

Definition get_trace_function : M pyret :=
  fun s => match trace_func (adp s) with
           | Some f => Ok (Py_Object f) s
           | None => Ok Py_None s
           end.

(** The event dispatch of [uftrace_trace_python]. *)
Definition trace_event (frame : ptr) (event : string) (args_tuple : ptr) : M pyret :=
  (if streq event "call" || streq event "c_call" then
     let is_pyfunc := streq event "call" in
     addr <- convert_function_addr frame args_tuple is_pyfunc ;;
     call_enter addr 0
   else if streq event "return" || streq event "c_return" then
     call_exit 0 0
   else if streq event "c_exception" then
     call_exit 0 0
   else ret tt) ;;;
  get_trace_function.

(** [args] is what [PyArg_ParseTuple(args, "OsO", ...)] extracts, if it
    succeeds. *)
Definition uftrace_trace_python (args : option (ptr * string * ptr)) : M pyret :=
  match args with
  | None => ret Py_None
  | Some (frame, event, args_tuple) =>
      s <- get ;;
      (if first_frame (adp s) =? NULL
       then modify (set_adp (adp_first_frame frame)) else ret tt) ;;;
      s <- get ;;
      if skip_first_frame (adp s) && (frame =? first_frame (adp s)) then ret Py_None
      else trace_event frame event args_tuple
  end.

(** [PyInit_uftrace_python] (the [HAVE_LIBPYTHON3] variant, which sets
    [skip_first_frame]); [f] is the module's [trace] function. *)
Definition PyInit_uftrace_python (f : ptr) : M unit :=
  modify (set_adp (adp_module f true)) ;;;
  init_uftrace e.

(** The destructor. *)
Definition uftrace_trace_python_finish : M unit :=
  let dirname :=
    match env_UFTRACE_DIR e with Some d => d | None => UFTRACE_DIR_NAME end in
  write_symtab e UFTRACE_PYTHON_SYMTAB_NAME dirname.

End Adapter.

(** ** The scan for libmcount

    [find_libmcount_funcs] and [find_cygprof_funcs] line by line and
    symbol by symbol.  What the C library and the ELF helpers of
    [utils/symbol.h] deliver is given: the lines of [/proc/self/maps],
    what [sscanf] extracts from a line, [basename], and the symbols
    [elf_for_each_symbol] visits in a file. *)

(** [unsigned long]: arithmetic modulo 2^64. *)
Definition wrap64 (z : Z) : Z := z mod 2 ^ 64.

(** [strncmp(a, b, n) == 0]. *)
Definition strncmp_eq (a b : string) (n : nat) : bool :=
  bytes_eqb (firstn n (c_str a)) (firstn n (c_str b)).

Definition adp_enter (p : ptr) (a : adapter) : adapter :=
  {| code_tree := code_tree a; first_frame := first_frame a;
     skip_first_frame := skip_first_frame a; cygprof_enter := p;
     cygprof_exit := cygprof_exit a; trace_func := trace_func a |}.
Definition adp_exit (p : ptr) (a : adapter) : adapter :=
  {| code_tree := code_tree a; first_frame := first_frame a;
     skip_first_frame := skip_first_frame a; cygprof_enter := cygprof_enter a;
     cygprof_exit := p; trace_func := trace_func a |}.

Section Scan.

(** What [sscanf(line, "%lx-%lx %s %*x %*x:%*x %*d %s\n", ...)] stores
    in [start], [end], [prot] and [path] when it converts all four. *)
Variable sscanf_maps : string -> option (Z * Z * string * string).

(** [basename] of the C library. *)
Variable basename : string -> string.

(** The symbols [elf_for_each_symbol] visits in a file, each with its
    name ([elf_get_name]) and [st_value]; [None] when [elf_init] fails. *)
Variable elf_symbols : string -> option (list (string * Z)).

(** The body of [elf_for_each_symbol] in [find_cygprof_funcs]. *)
Fixpoint for_each_symbol (syms : list (string * Z)) (base_addr : Z) : M unit :=
  match syms with
  | [] => ret tt
  | (name, st_value) :: r =>
      (if streq name "__cyg_profile_func_enter"
       then modify (set_adp (adp_enter (wrap64 (st_value + base_addr))))
       else ret tt) ;;;
      (if streq name "__cyg_profile_func_exit"
       then modify (set_adp (adp_exit (wrap64 (st_value + base_addr))))
       else ret tt) ;;;
      for_each_symbol r base_addr
  end.

Definition find_cygprof_funcs (filename : string) (base_addr : Z) : M unit :=
  match elf_symbols filename with
  | None => ret tt
  | Some syms => for_each_symbol syms base_addr
  end.

(** The [getline] loop of [find_libmcount_funcs]. *)
Fixpoint getline_loop (lines : list string) : M unit :=
  match lines with
  | [] => ret tt
  | line :: r =>
      match sscanf_maps line with
      | None => getline_loop r
      | Some (start, end_, prot, path) =>
          if negb (strncmp_eq (basename path) "libmcount" 9) then getline_loop r
          else find_cygprof_funcs path start
      end
  end.

(** [find_libmcount_funcs] on the lines of [/proc/self/maps]; [None]
    when the file cannot be opened. *)
Definition scan_proc_maps (maps : option (list string)) : M unit :=
  match maps with
  | None => ret tt
  | Some lines => getline_loop lines
  end.

End Scan.

(** ** The libpython2 variant

    [inituftrace_python], once [Py_InitModule] has given the module: it
    keeps the [trace] function ([f]) for [get_trace_function] to return
    and does not touch [skip_first_frame]. *)
Definition inituftrace_python (e : os_env) (f : ptr) : M unit :=
  modify (set_adp (fun a => adp_module f (skip_first_frame a) a)) ;;;
  init_uftrace e.

(** * Definitions used in the statements *)

(** ** Entry sizes *)

(** A name fits when its entry is no larger than one growth unit. *)
Definition fits (name : string) : Prop :=
  strlen name + 20 <= UFTRACE_PYTHON_SYMTAB_SIZE.

(** An entry size that [int] can hold. *)
Definition int_sized (name : string) : Prop := strlen name + 21 < 2 ^ 31.

(** ** The table in one process *)

(** What holds of the table between calls in a process that is alone on
    its segment. *)
Record reg_inv (s : state) : Prop := {
  inv_mapped : symtab (map_ s) = true;
  inv_fd : uftrace_shmem_fd (map_ s) = true;
  inv_length : shm_length (seg s) = uftrace_symtab_size (map_ s);
  inv_size : 0 < uftrace_symtab_size (map_ s) < 2 ^ 32;
  inv_unit : uftrace_symtab_size (map_ s) mod UFTRACE_PYTHON_SYMTAB_SIZE = 0;
  inv_offset : UFTRACE_PYTHON_SYMTAB_HDRSZ <= hdr_offset (val (seg s))
               < uftrace_symtab_size (map_ s)
}.

(** The state after the growth branch, when the system grants it. *)
Definition grown (s : state) : state :=
  let n := uftrace_symtab_size (map_ s) + UFTRACE_PYTHON_SYMTAB_SIZE in
  set_map (map_size n)
    (set_map (map_symtab true)
       (set_seg (fun g => seg_length n (seg_data (trunc_mem n (data g)) g)) s)).

(** The state after a whole allocation. *)
Definition allocated (name : string) (is_pyfunc : bool) (s : state) : state :=
  let old_hdr := val (seg s) in
  let new_hdr := next_hdr old_hdr (entry_size_of name) in
  let s1 := set_seg (seg_val new_hdr) s in
  let s2 := if hdr_offset new_hdr >=? uftrace_symtab_size (map_ s) then grown s1 else s1 in
  set_seg (fun g => seg_data (store_bytes (data g) (hdr_offset old_hdr)
                                (entry_bytes (hdr_count new_hdr) is_pyfunc name)) g) s2.

(** The growth branch is taken for [name]. *)
Definition grows (name : string) (s : state) : bool :=
  hdr_offset (val (seg s)) + (strlen name + 20) >=? uftrace_symtab_size (map_ s).

(** One more unit stays below 2^32 and the system grants it. *)
Definition grantable (e : os_env) (s : state) : Prop :=
  uftrace_symtab_size (map_ s) + UFTRACE_PYTHON_SYMTAB_SIZE < 2 ^ 32 /\
  uftrace_symtab_size (map_ s) + UFTRACE_PYTHON_SYMTAB_SIZE <= shm_limit e.

(** ** The symbol file *)

(** The three lines of the header comment. *)
Definition header_comment (symtab_name : string) (count : Z) : list byte :=
  header_line1 count ++ header_line2 symtab_name
  ++ header_line3 (wrap32 (blen (header_line1 count) + blen (header_line2 symtab_name))).

(** The file [write_symtab] leaves when nothing fails. *)
Definition symtab_file (symtab_name : string) (count : Z) (entries : list byte) : list byte :=
  header_comment symtab_name count ++ entries ++ sym_end_line count.

(** [fwrite] makes progress and its result fits an [int]. *)
Definition writes_well (e : os_env) : Prop := 0 < fwrite_chunk e < 2 ^ 31.

(** What follows the header comment in [write_symtab]: the copy loop,
    the end marker and the release of the table. *)
Definition copy_and_release (e : os_env) (path : string) (v : Z) : M unit :=
  let len := wrap32 (hdr_offset v - UFTRACE_PYTHON_SYMTAB_HDRSZ) in
  copy_loop e (Z.to_nat len) path UFTRACE_PYTHON_SYMTAB_HDRSZ len ;;;
  _ <- fprintf path (sym_end_line (hdr_count v)) ;;
  modify (set_map (map_symtab false)) ;;;
  modify (set_map (map_fd false)) ;;;
  modify (set_seg (seg_linked false)).

(** ** Runs of allocations *)

(** The table holds [c] entries whose text is [bs]. *)
Record table (s : state) (c : Z) (bs : list byte) : Prop := {
  tab_inv : reg_inv s;
  tab_count : hdr_count (val (seg s)) = c;
  tab_offset : hdr_offset (val (seg s)) = UFTRACE_PYTHON_SYMTAB_HDRSZ + blen bs;
  tab_bytes : load_bytes (data (seg s)) UFTRACE_PYTHON_SYMTAB_HDRSZ (List.length bs) = bs;
  tab_lines : 0 <= 20 * c <= blen bs;
  tab_size : uftrace_symtab_size (map_ s)
             <= hdr_offset (val (seg s)) + UFTRACE_PYTHON_SYMTAB_SIZE
}.

(** Room for a table that ends at offset [n]: the sizes the growth step
    can ask for stay below 2^32 and are granted. *)
Definition room (e : os_env) (n : Z) : Prop :=
  n + 2 * UFTRACE_PYTHON_SYMTAB_SIZE < 2 ^ 32 /\
  n + 2 * UFTRACE_PYTHON_SYMTAB_SIZE <= shm_limit e.

(** One call of [get_new_sym_addr] after the other. *)
Fixpoint alloc_all (e : os_env) (l : list (string * bool)) : M (list Z) :=
  match l with
  | [] => ret []
  | (name, k) :: r =>
      a <- get_new_sym_addr e name k ;;
      rest <- alloc_all e r ;;
      ret (a :: rest)
  end.

Fixpoint allocated_all (l : list (string * bool)) (s : state) : state :=
  match l with
  | [] => s
  | (name, k) :: r => allocated_all r (allocated name k s)
  end.

(** The addresses and the entry text of [l], allocated after [c] entries. *)
Fixpoint addrs (c : Z) (l : list (string * bool)) : list Z :=
  match l with
  | [] => []
  | _ :: r => (c + 1) :: addrs (c + 1) r
  end.

Fixpoint lines (c : Z) (l : list (string * bool)) : list byte :=
  match l with
  | [] => []
  | (name, k) :: r => sym_line (c + 1) (kind_char k) (c_str name) ++ lines (c + 1) r
  end.

Fixpoint total_size (l : list (string * bool)) : Z :=
  match l with
  | [] => 0
  | (name, _) :: r => strlen name + 20 + total_size r
  end.

(** ** Concrete inputs *)

(** The state a call ends in, however it ends. *)
Definition final_state {A} (o : outcome A) : state :=
  match o with Ok _ s | Fatal s | Fault s | Hang s => s end.

(** The table right after [init_symtab]. *)
Definition fresh_table : state := final_state (init_symtab fair_env boot_state).

(** A name of [n] letters. *)
Definition long_name (n : Z) : string :=
  string_of_list_ascii (repeat "a"%char (Z.to_nat n)).



(** ** The unit test of the source *)

(** The unit test [python_symtab] of the source, after its
    [init_uftrace] call. *)
Definition python_symtab (e : os_env) (symtab_name dirname : string) : M (Z * Z * Z) :=
  init_symtab e ;;;
  a <- get_new_sym_addr e "a" true ;;
  b <- get_new_sym_addr e "b" true ;;
  c <- get_new_sym_addr e "c" false ;;
  write_symtab e symtab_name dirname ;;;
  ret (a, b, c).

(** That the system lets the scenario through. *)
Definition grants_all (e : os_env) (path : string) : Prop :=
  shm_open_ok e = true
  /\ 3 * UFTRACE_PYTHON_SYMTAB_SIZE <= shm_limit e
  /\ fopen_ok e path = true
  /\ writes_well e.

(** ** Search-tree order *)

Fixpoint descending (l : list (ptr * Z)) : Prop :=
  match l with
  | [] => True
  | p :: r => Forall (fun q => fst q < fst p) r /\ descending r
  end.

Fixpoint lookup_code (c : ptr) (l : list (ptr * Z)) : option Z :=
  match l with
  | [] => None
  | (c', a) :: r => if c' =? c then Some a else lookup_code c r
  end.

(** ** Computations that only read *)

Definition pure {A} (m : M A) : Prop :=
  forall s, (exists a, m s = Ok a s) \/ m s = Fault s.

(** ** Resolving a code object *)

(** The code tree is a search tree. *)
Definition cache_ok (s : state) : Prop :=
  descending (rb_inorder (code_tree (adp s))).

(** The cache holds address [a] for code object [c]. *)
Definition issued (s : state) (c : ptr) (a : Z) : Prop :=
  rb_find (code_tree (adp s)) c = Some a.

(** The name computation of [convert_function_addr]. *)
Definition funcname (h : heap) (frame code : ptr) (is_pyfunc : bool) : M (option string) :=
  if is_pyfunc then get_python_funcname h frame code else get_c_funcname h frame code.

(** Whatever the process does between two resolutions. *)
Inductive later (e : os_env) (h : heap) (rb_insert_color : rb_tree -> rb_tree)
  : state -> state -> Prop :=
| later_refl s : later e h rb_insert_color s s
| later_resolve s s1 s2 frame args k a :
    later e h rb_insert_color s s1 ->
    convert_function_addr e h rb_insert_color frame args k s1 = Ok a s2 ->
    later e h rb_insert_color s s2
| later_hook s s1 s2 a :
    later e h rb_insert_color s s1 -> call_enter a 0 s1 = Ok tt s2 ->
    later e h rb_insert_color s s2
| later_event s s1 s2 args r :
    later e h rb_insert_color s s1 ->
    uftrace_trace_python e h rb_insert_color args s1 = Ok r s2 ->
    later e h rb_insert_color s s2.

(** ** A small interpreter heap

    Frame 100 runs code 200 ([foo] of module [mymod]); frame 150 runs the
    same code; frame 400 calls the builtin 500 ([len]); frame 600 runs
    code 610, which has no name attribute; frame 900 is the frame of the
    interpreter's own top-level call. *)
Definition obj (t : pytype) (attrs : list (string * ptr)) : pyobj :=
  {| ob_type := t; ob_attrs := attrs |}.

Definition demo_heap : heap :=
  fun p =>
    if p =? 100 then obj Other [("f_code"%string, 200); ("f_globals"%string, 300)]
    else if p =? 150 then obj Other [("f_code"%string, 200); ("f_globals"%string, 300)]
    else if p =? 200 then obj Other [("co_qualname"%string, 210); ("co_name"%string, 210)]
    else if p =? 210 then obj (Unicode "foo") []
    else if p =? 300 then obj (Dict [("__name__"%string, 310)]) []
    else if p =? 310 then obj (Unicode "mymod") []
    else if p =? 400 then obj Other [("f_code"%string, 410); ("f_globals"%string, 300)]
    else if p =? 410 then obj Other [("co_name"%string, 420)]
    else if p =? 420 then obj (Unicode "main") []
    else if p =? 500 then obj (CFunction 510) [("__qualname__"%string, 520)]
    else if p =? 510 then obj (Unicode "builtins") []
    else if p =? 520 then obj (Unicode "len") []
    else if p =? 600 then obj Other [("f_code"%string, 610)]
    else if p =? 610 then obj Other []
    else if p =? 900 then obj Other [("f_code"%string, 910)]
    else obj Other [].

(** No rebalancing at all is one tree discipline that keeps the order. *)
Definition keep_shape (t : rb_tree) : rb_tree := t.

(** The process after module initialisation in a tracing session; 7000
    is the module's [trace] function. *)
Definition loaded : state :=
  final_state (PyInit_uftrace_python fair_env 7000 boot_state).

(** ... and after the interpreter's first event, on its root frame. *)
Definition active : state :=
  final_state (uftrace_trace_python fair_env demo_heap keep_shape
                 (Some (900, "call"%string, 0)) loaded).

(** ** Resolutions on the small heap *)

Definition after_foo : state :=
  final_state (convert_function_addr fair_env demo_heap keep_shape 100 0 true active).

Definition after_len : state :=
  final_state (convert_function_addr fair_env demo_heap keep_shape 400 500 false after_foo).

(** ** Reading the trace callback *)

(** The state once the callback has looked at its static [first_frame]. *)
Definition seen (frame : ptr) (s : state) : state :=
  if first_frame (adp s) =? NULL then set_adp (adp_first_frame frame) s else s.

(** The event is one the root-frame check drops. *)
Definition skipped (frame : ptr) (s : state) : bool :=
  skip_first_frame (adp (seen frame s)) && (frame =? first_frame (adp (seen frame s))).

Definition handle_of (s : state) : pyret :=
  match trace_func (adp s) with Some f => Py_Object f | None => Py_None end.

Definition is_enter (event : string) : bool := streq event "call" || streq event "c_call".

(** The name of the event's code object cannot be computed: the frame
    has no code object, or the code object is new to the cache and the
    name functions return [NULL]. *)
Definition unnamed (h : heap) (frame x : ptr) (k : bool) (s : state) : Prop :=
  PyObject_GetAttrString h frame "f_code" = NULL
  \/ (PyObject_GetAttrString h frame "f_code" <> NULL
      /\ rb_find (code_tree (adp s)) (code_of h frame x k) = None
      /\ funcname h frame (code_of h frame x k) k s = Ok None s).

(** ** Environments in which finalisation fails *)

(** [fopen] fails, everything else is granted. *)
Definition no_open_env : os_env :=
  {| env_UFTRACE_SHMEM := true; env_UFTRACE_DEBUG := false; env_UFTRACE_DIR := None;
     shm_open_ok := true; shm_limit := 2 ^ 40; fopen_ok := fun _ => false;
     fwrite_chunk := 4096; libmcount_hooks := (4198400, 4198912) |}.

(** [fwrite] writes nothing (a full disk, say). *)
Definition no_write_env : os_env :=
  {| env_UFTRACE_SHMEM := true; env_UFTRACE_DEBUG := false; env_UFTRACE_DIR := None;
     shm_open_ok := true; shm_limit := 2 ^ 40; fopen_ok := fun _ => true;
     fwrite_chunk := 0; libmcount_hooks := (4198400, 4198912) |}.

(** A table with one entry. *)
Definition one_entry : state := allocated "a" true fresh_table.

(** ** Outside a tracing session *)

(** No [UFTRACE_SHMEM] in the environment; the output directory exists. *)
Definition plain_env : os_env :=
  {| env_UFTRACE_SHMEM := false; env_UFTRACE_DEBUG := false; env_UFTRACE_DIR := None;
     shm_open_ok := true; shm_limit := 2 ^ 40; fopen_ok := fun _ => true;
     fwrite_chunk := 4096; libmcount_hooks := (4198400, 4198912) |}.

(** The same, without the output directory. *)
Definition plain_env_no_dir : os_env :=
  {| env_UFTRACE_SHMEM := false; env_UFTRACE_DEBUG := false; env_UFTRACE_DIR := None;
     shm_open_ok := true; shm_limit := 2 ^ 40; fopen_ok := fun _ => false;
     fwrite_chunk := 4096; libmcount_hooks := (4198400, 4198912) |}.

(** The process state after the module was loaded outside a session. *)
Definition loaded_plain : state :=
  final_state (PyInit_uftrace_python plain_env 7000 boot_state).

(** ** Several processes on one segment

    After a fork every process has its own mapping and runs
    [get_new_sym_addr] on the same shared object.  A call is cut at its
    accesses to the shared header: the read of [symtab->val], each
    compare-and-swap, and the part after the swap (growth check and
    [snprintf]).  The steps reuse [cas] and [write_sym] as they are. *)
Inductive pc :=
| Start (name : string) (is_pyfunc : bool)
| Swap (name : string) (is_pyfunc : bool) (old_hdr : Z)
| Store (name : string) (is_pyfunc : bool) (old_hdr new_hdr : Z)
| Returned (old_hdr new_hdr : Z)       (* returned new_hdr.count *)
| Crashed.

Record proc := { p_map : mapping; p_pc : pc }.

(** A successful swap: who asked, and the headers before and after. *)
Record grant := { g_name : string; g_old : Z; g_new : Z }.

(** The shared object, the processes, and the swaps that succeeded so
    far, in order (a history kept for the proofs only). *)
Record world := { w_seg : shm_seg; w_procs : list proc; w_log : list grant }.

(** A process's state as far as the table goes. *)
Definition view (g : shm_seg) (m : mapping) : state :=
  set_seg (fun _ => g) (set_map (fun _ => m) boot_state).

Definition step (e : os_env) (g : shm_seg) (p : proc) : shm_seg * proc * option grant :=
  match p_pc p with
  | Start name k =>
      if symtab (p_map p)
      then (g, {| p_map := p_map p; p_pc := Swap name k (val g) |}, None)
      else (g, {| p_map := p_map p; p_pc := Crashed |}, None)
  | Swap name k old_hdr =>
      let new_hdr := next_hdr old_hdr (entry_size_of name) in
      match cas old_hdr new_hdr (view g (p_map p)) with
      | Ok tmp_hdr s' =>
          if tmp_hdr =? old_hdr
          then (seg s', {| p_map := p_map p; p_pc := Store name k old_hdr new_hdr |},
                Some {| g_name := name; g_old := old_hdr; g_new := new_hdr |})
          else (seg s', {| p_map := p_map p; p_pc := Swap name k tmp_hdr |}, None)
      | Fatal s' | Fault s' | Hang s' =>
          (seg s', {| p_map := map_ s'; p_pc := Crashed |}, None)
      end
  | Store name k old_hdr new_hdr =>
      match write_sym e old_hdr new_hdr name k (view g (p_map p)) with
      | Ok _ s' => (seg s', {| p_map := map_ s'; p_pc := Returned old_hdr new_hdr |}, None)
      | Fatal s' | Fault s' | Hang s' =>
          (seg s', {| p_map := map_ s'; p_pc := Crashed |}, None)
      end
  | Returned _ _ | Crashed => (g, p, None)
  end.

Fixpoint set_nth {A} (i : nat) (x : A) (l : list A) : list A :=
  match l, i with
  | [], _ => []
  | _ :: r, O => x :: r
  | y :: r, S j => y :: set_nth j x r
  end.

(** Process [i] takes one step. *)
Definition schedule (e : os_env) (w : world) (i : nat) : world :=
  match nth_error (w_procs w) i with
  | Some p =>
      let '(g, p', won) := step e (w_seg w) p in
      {| w_seg := g; w_procs := set_nth i p' (w_procs w);
         w_log := w_log w ++ match won with Some x => [x] | None => [] end |}
  | None => w
  end.

Definition run (e : os_env) (order : list nat) (w : world) : world :=
  fold_left (schedule e) order w.

(** The byte range the swap gave a call. *)
Definition reserved (p : proc) : option (Z * Z) :=
  match p_pc p with
  | Store _ _ old_hdr new_hdr | Returned old_hdr new_hdr =>
      Some (hdr_offset old_hdr, hdr_offset new_hdr)
  | _ => None
  end.

Definition returned (p : proc) : option Z :=
  match p_pc p with
  | Returned _ new_hdr => Some (hdr_count new_hdr)
  | _ => None
  end.

(** ** The history of swaps *)

(** Bytes a process has still to ask for. *)
Definition need (p : proc) : Z :=
  match p_pc p with
  | Start name _ | Swap name _ _ => strlen name + 20
  | _ => 0
  end.

Fixpoint pending (l : list proc) : Z :=
  match l with
  | [] => 0
  | p :: r => need p + pending r
  end.

(** The history, read from header [base] on: every swap starts from the
    header the one before left, adds one to the count and the size of
    its entry to the offset. *)
Fixpoint stacked (base : Z) (ls : list grant) : Prop :=
  match ls with
  | [] => True
  | x :: r =>
      g_old x = base
      /\ hdr_offset (g_new x) = hdr_offset base + (strlen (g_name x) + 20)
      /\ hdr_count (g_new x) = wrap32 (hdr_count base + 1)
      /\ stacked (g_new x) r
  end.

Fixpoint last_hdr (base : Z) (ls : list grant) : Z :=
  match ls with
  | [] => base
  | x :: r => last_hdr (g_new x) r
  end.

(** What every schedule keeps: the history is stacked on the first
    header and ends in the current one, and what is still to be asked
    for fits below 2^32. *)
Definition shared_inv (v0 : Z) (w : world) : Prop :=
  stacked v0 (w_log w)
  /\ last_hdr v0 (w_log w) = val (w_seg w)
  /\ hdr_offset (val (w_seg w)) + pending (w_procs w) < 2 ^ 32.

(** ** Two callers *)

(** Two forked processes, each about to allocate one name. *)
Definition two_callers : world :=
  {| w_seg := seg fresh_table;
     w_procs := [ {| p_map := map_ fresh_table; p_pc := Start "a" true |};
                  {| p_map := map_ fresh_table; p_pc := Start "b" true |} ];
     w_log := [] |}.

(** The first caller swaps, the second swaps and stores, then the first
    stores. *)
Definition late_store : list nat := [0; 0; 1; 1; 1; 0]%nat.

(** Each caller runs to completion in turn. *)
Definition in_turn : list nat := [0; 0; 0; 1; 1; 1]%nat.

(** ** The header comment and its warning *)

(** The warning [write_symtab] gives about its header comment. *)
Definition header_warning (symtab_name : string) (count : Z) : list warning :=
  let len := wrap32 (blen (header_comment symtab_name count)) in
  if len =? UFTRACE_PYTHON_SYMTAB_HDRSZ then [] else [WarnHeaderSize len].

(** ** Tables for the edge cases *)



(** A process that still holds the size of a fresh table, on an object
    that has been grown to three units and is filled beyond two. *)
Definition stale_view : state :=
  set_seg (fun g => seg_length (3 * UFTRACE_PYTHON_SYMTAB_SIZE)
                      (seg_val (hdr_pack 3 (2 * UFTRACE_PYTHON_SYMTAB_SIZE + 100)) g))
          fresh_table.

(** [fwrite] writes one byte at a time. *)
Definition bytewise_env : os_env :=
  {| env_UFTRACE_SHMEM := true; env_UFTRACE_DEBUG := false; env_UFTRACE_DIR := None;
     shm_open_ok := true; shm_limit := 2 ^ 40; fopen_ok := fun _ => true;
     fwrite_chunk := 1; libmcount_hooks := (4198400, 4198912) |}.

(** A session in which the scan finds no hook; the output directory is
    given by [UFTRACE_DIR]. *)
Definition hookless_env : os_env :=
  {| env_UFTRACE_SHMEM := true; env_UFTRACE_DEBUG := false;
     env_UFTRACE_DIR := Some "/tmp/trace"%string;
     shm_open_ok := true; shm_limit := 2 ^ 40; fopen_ok := fun _ => true;
     fwrite_chunk := 4096; libmcount_hooks := (NULL, NULL) |}.

(** ** Names *)

(** The string behind an object pointer, if it points at a string. *)
Definition string_at (h : heap) (o : ptr) : option string :=
  if o =? NULL then None
  else match ob_type (h o) with Unicode s => Some s | _ => None end.

(** The name object of a code object: [co_qualname] where the
    interpreter has it, [co_name] otherwise. *)
Definition code_name (h : heap) (code : ptr) : ptr :=
  if PyObject_HasAttrString h code "co_qualname"
  then PyObject_GetAttrString h code "co_qualname"
  else PyObject_GetAttrString h code "co_name".

(** The [__name__] of the frame's globals, when the frame has globals
    and the entry is a string. *)
Definition module_name (h : heap) (frame : ptr) : option string :=
  let global := PyObject_GetAttrString h frame "f_globals" in
  if global =? NULL then None
  else string_at h (PyDict_GetItemString h global "__name__").

(** The name object of a C function. *)
Definition cfunc_name (h : heap) (code : ptr) : ptr :=
  if PyObject_HasAttrString h code "__qualname__"
  then PyObject_GetAttrString h code "__qualname__"
  else PyObject_GetAttrString h code "__name__".

(** A copy of a C string. *)
Definition strdup (s : string) : string := string_of_list_byte (c_str s).

(** ** Events *)

(** The event closes a frame. *)
Definition is_exit (event : string) : bool :=
  streq event "return" || streq event "c_return" || streq event "c_exception".

(** ** The cache and the table *)

(** Every cached address has been handed out by the table. *)
Definition cache_bound (s : state) : Prop :=
  forall c a, issued s c a -> 1 <= a <= hdr_count (val (seg s)).

(** No two code objects share an address. *)
Definition cache_inj (s : state) : Prop :=
  forall c1 c2 a, issued s c1 a -> issued s c2 a -> c1 = c2.

(** ** Calls that have won their swap *)

(** The headers of the swap a call has won. *)
Definition granted (p : proc) : option (Z * Z) :=
  match p_pc p with
  | Store _ _ old_hdr new_hdr | Returned old_hdr new_hdr => Some (old_hdr, new_hdr)
  | _ => None
  end.

(** Every call that has won a swap is in the history, and no two calls
    have won from the same header. *)
Definition owned (w : world) : Prop :=
  (forall i p o n,
     nth_error (w_procs w) i = Some p -> granted p = Some (o, n) ->
     exists x, In x (w_log w) /\ g_old x = o /\ g_new x = n)
  /\ (forall i j p q o n o' n',
        i <> j ->
        nth_error (w_procs w) i = Some p -> nth_error (w_procs w) j = Some q ->
        granted p = Some (o, n) -> granted q = Some (o', n') -> o <> o').

(** ** Reading the scan *)

(** The line names a mapping of libmcount. *)
Definition libmcount_line (sscanf_maps : string -> option (Z * Z * string * string))
    (basename : string -> string) (line : string) : bool :=
  match sscanf_maps line with
  | None => false
  | Some (_, _, _, path) => strncmp_eq (basename path) "libmcount" 9
  end.

(** The value of the last symbol called [name], if there is one. *)
Fixpoint last_symbol (name : string) (syms : list (string * Z)) : option Z :=
  match syms with
  | [] => None
  | (n, v) :: r =>
      match last_symbol name r with
      | Some v' => Some v'
      | None => if streq n name then Some v else None
      end
  end.

(** The hooks after a pass over [syms] with base address [base]. *)
Definition resolved (syms : list (string * Z)) (base : Z) (a : adapter) : adapter :=
  let a1 := match last_symbol "__cyg_profile_func_enter" syms with
            | Some v => adp_enter (wrap64 (v + base)) a
            | None => a
            end in
  match last_symbol "__cyg_profile_func_exit" syms with
  | Some v => adp_exit (wrap64 (v + base)) a1
  | None => a1
  end.

(** ** A small address space

    Four lines of [/proc/self/maps]: the interpreter, an anonymous
    mapping (no path: [sscanf] converts three items), and two libraries
    whose names start with [libmcount]. *)
Definition demo_maps : list string :=
  ["55d0c8a00000-55d0c8a01000 r--p 00000000 08:01 1311 /usr/bin/python3.11";
   "7f1e3c000000-7f1e3c021000 rw-p 00000000 00:00 0";
   "7f1e3d400000-7f1e3d419000 r-xp 00000000 08:01 2097 /usr/lib/libmcount-fast.so";
   "7f1e3d800000-7f1e3d9a0000 r-xp 00000000 08:01 1042 /usr/lib/libmcount.so"]%string.

Definition demo_sscanf (line : string) : option (Z * Z * string * string) :=
  if String.eqb line (nth 0 demo_maps EmptyString)
  then Some (0x55d0c8a00000, 0x55d0c8a01000, "r--p", "/usr/bin/python3.11")%string
  else if String.eqb line (nth 2 demo_maps EmptyString)
  then Some (0x7f1e3d400000, 0x7f1e3d419000, "r-xp", "/usr/lib/libmcount-fast.so")%string
  else if String.eqb line (nth 3 demo_maps EmptyString)
  then Some (0x7f1e3d800000, 0x7f1e3d9a0000, "r-xp", "/usr/lib/libmcount.so")%string
  else None.

Fixpoint has_slash (s : string) : bool :=
  match s with
  | EmptyString => false
  | String c r => Ascii.eqb c "/" || has_slash r
  end.

(** What follows the last slash. *)
Fixpoint after_last_slash (s : string) : string :=
  match s with
  | EmptyString => EmptyString
  | String c r =>
      if has_slash r then after_last_slash r
      else if Ascii.eqb c "/" then r else s
  end.

Definition demo_elf (path : string) : option (list (string * Z)) :=
  if String.eqb path "/usr/lib/libmcount-fast.so"
  then Some [("mcount", 0x3f20); ("__cyg_profile_func_enter", 0x4a10);
             ("__cyg_profile_func_exit", 0x4b30)]%string
  else None.

(** ** Headers a call has read *)

(** The header a call is about to swap from is one of the history: the
    first header, or one a swap has left. *)
Definition read_from (v0 : Z) (w : world) : Prop :=
  forall i p name k old_hdr,
    nth_error (w_procs w) i = Some p -> p_pc p = Swap name k old_hdr ->
    exists l1 l2, w_log w = l1 ++ l2 /\ old_hdr = last_hdr v0 l1.

(** ** A run of enter events *)

(** An enter event (frame, event name, argument) with the name its
    function has. *)
Definition named_event : Type := ptr * string * ptr * string.

Definition ev_args (ev : named_event) : option (ptr * string * ptr) :=
  let '(frame, event, x, _) := ev in Some (frame, event, x).

Definition ev_code (h : heap) (ev : named_event) : ptr :=
  let '(frame, event, x, _) := ev in code_of h frame x (streq event "call").

(** The entry the event's function gets: its name and its kind. *)
Definition ev_entry (ev : named_event) : string * bool :=
  let '(_, event, _, name) := ev in (name, streq event "call").

(** The callback on each event in turn. *)
Fixpoint trace_all (e : os_env) (h : heap) (rbc : rb_tree -> rb_tree)
    (evs : list named_event) : M unit :=
  match evs with
  | [] => ret tt
  | ev :: r => uftrace_trace_python e h rbc (ev_args ev) ;;; trace_all e h rbc r
  end.

(** An enter event on a frame other than [root], for a code object
    whose name is the one given and fits. *)
Definition new_function (h : heap) (root : ptr) (ev : named_event) : Prop :=
  let '(frame, event, x, name) := ev in
  is_enter event = true /\ frame <> root
  /\ PyObject_GetAttrString h frame "f_code" <> NULL
  /\ (forall t, funcname h frame (code_of h frame x (streq event "call"))
                  (streq event "call") t = Ok (Some name) t)
  /\ fits name.

(** Three enter events on the small heap: [foo], the builtin [len], and
    [main]. *)
Definition demo_events : list named_event :=
  [(100, "call", 0, "mymod.foo"); (400, "c_call", 500, "builtins.len");
   (400, "call", 0, "mymod.main")]%string.

(** * Properties *)

(** ** Header arithmetic *)

Lemma wrap32_range z : 0 <= wrap32 z < 2 ^ 32.
Proof. unfold wrap32. apply Z.mod_pos_bound. lia. Qed.

Lemma wrap32_small z : 0 <= z < 2 ^ 32 -> wrap32 z = z.
Proof. intros H. unfold wrap32. apply Z.mod_small. exact H. Qed.

Lemma int32_small z : - 2 ^ 31 <= z < 2 ^ 31 -> int32 z = z.
Proof. intros H. unfold int32. rewrite Z.mod_small; lia. Qed.

Lemma hdr_count_pack c o : hdr_count (hdr_pack c o) = wrap32 c.
Proof.
  unfold hdr_count, hdr_pack.
  pose proof (wrap32_range c).
  rewrite Z.mul_comm, Z.mod_add by lia.
  apply Z.mod_small. lia.
Qed.

Lemma hdr_offset_pack c o : hdr_offset (hdr_pack c o) = wrap32 o.
Proof.
  unfold hdr_offset, hdr_pack.
  pose proof (wrap32_range c). pose proof (wrap32_range o).
  rewrite Z.mul_comm, Z.div_add by lia.
  rewrite Z.div_small by lia. simpl.
  apply Z.mod_small. lia.
Qed.

Lemma hdr_pack_range c o : 0 <= hdr_pack c o < 2 ^ 64.
Proof.
  unfold hdr_pack.
  pose proof (wrap32_range c). pose proof (wrap32_range o). lia.
Qed.

Lemma hdr_count_range v : 0 <= hdr_count v < 2 ^ 32.
Proof. unfold hdr_count. apply Z.mod_pos_bound. lia. Qed.

Lemma hdr_offset_range v : 0 <= hdr_offset v < 2 ^ 32.
Proof. unfold hdr_offset. apply Z.mod_pos_bound. lia. Qed.

(** ** Memory *)

Lemma blen_app a b : blen (a ++ b) = blen a + blen b.
Proof. unfold blen. rewrite length_app. lia. Qed.

Lemma blen_nonneg a : 0 <= blen a.
Proof. unfold blen. lia. Qed.

Lemma load_bytes_length m off n : List.length (load_bytes m off n) = n.
Proof. unfold load_bytes. rewrite length_map, length_seq. reflexivity. Qed.

Lemma load_bytes_ext m m' off n :
  (forall i, off <= i < off + Z.of_nat n -> m i = m' i) ->
  load_bytes m off n = load_bytes m' off n.
Proof.
  intros H. unfold load_bytes. apply map_ext_in.
  intros k Hk. apply in_seq in Hk. apply H. lia.
Qed.

Lemma map_seq_from {A} (f : nat -> A) a b :
  map f (seq a b) = map (fun k => f (a + k)%nat) (seq 0 b).
Proof.
  revert a f. induction b as [|b IH]; intros a f; simpl; [reflexivity|].
  f_equal.
  - f_equal. lia.
  - rewrite (IH (S a)), (IH 1%nat). apply map_ext. intros k. f_equal. lia.
Qed.

Lemma nth_load_bytes m off n k :
  (k < n)%nat -> nth k (load_bytes m off n) NUL = m (off + Z.of_nat k).
Proof.
  intros H. unfold load_bytes.
  rewrite (nth_indep _ NUL (m (off + Z.of_nat 0))) by (rewrite length_map, length_seq; exact H).
  rewrite (map_nth (fun k => m (off + Z.of_nat k))), seq_nth by exact H. reflexivity.
Qed.

Lemma load_bytes_app m off a b :
  load_bytes m off (a + b) = load_bytes m off a ++ load_bytes m (off + Z.of_nat a) b.
Proof.
  unfold load_bytes. rewrite seq_app, map_app. f_equal.
  simpl. rewrite map_seq_from. apply map_ext. intros k. f_equal. lia.
Qed.

Lemma store_bytes_outside m off bs i :
  i < off \/ off + blen bs <= i -> store_bytes m off bs i = m i.
Proof.
  intros H. unfold store_bytes.
  destruct (off <=? i) eqn:E1; destruct (i <? off + blen bs) eqn:E2; simpl; try reflexivity.
  apply Z.leb_le in E1. apply Z.ltb_lt in E2. lia.
Qed.

Lemma load_store_same m off bs :
  load_bytes (store_bytes m off bs) off (List.length bs) = bs.
Proof.
  apply nth_ext with (d := NUL) (d' := NUL).
  - apply load_bytes_length.
  - intros n Hn. rewrite load_bytes_length in Hn.
    unfold load_bytes.
    set (g := fun k => store_bytes m off bs (off + Z.of_nat k)).
    rewrite (nth_indep (map g (seq 0 (List.length bs))) NUL (g 0%nat))
      by (rewrite length_map, length_seq; exact Hn).
    rewrite (map_nth g), seq_nth by exact Hn. simpl.
    unfold g, store_bytes, blen.
    replace (off <=? off + Z.of_nat n) with true by (symmetry; apply Z.leb_le; lia).
    replace (off + Z.of_nat n <? off + Z.of_nat (List.length bs)) with true
      by (symmetry; apply Z.ltb_lt; lia).
    simpl. f_equal. lia.
Qed.

Lemma load_store_before m off bs o n :
  o + Z.of_nat n <= off ->
  load_bytes (store_bytes m off bs) o n = load_bytes m o n.
Proof.
  intros H. apply load_bytes_ext. intros i Hi.
  apply store_bytes_outside. lia.
Qed.

(** ** Formatting *)

Lemma fmt_016x_length n : List.length (fmt_016x n) = 16%nat.
Proof. reflexivity. Qed.

Lemma sym_line_blen a k n : blen (sym_line a k n) = blen n + 20.
Proof.
  unfold sym_line. rewrite !blen_app. unfold blen at 1 2 3 4 6.
  rewrite fmt_016x_length. simpl List.length. lia.
Qed.


Lemma strlen_nonneg name : 0 <= strlen name.
Proof. apply blen_nonneg. Qed.

Lemma fits_int_sized name : fits name -> int_sized name.
Proof. unfold fits, int_sized, UFTRACE_PYTHON_SYMTAB_SIZE. lia. Qed.

Lemma entry_size_small name : int_sized name -> entry_size_of name = strlen name + 20.
Proof.
  intros H. unfold entry_size_of. apply int32_small.
  pose proof (strlen_nonneg name). unfold int_sized in H. lia.
Qed.

Lemma entry_bytes_small c k name :
  int_sized name ->
  entry_bytes c k name = sym_line c (kind_char k) (c_str name) ++ [NUL].
Proof.
  intros H. unfold entry_bytes, snprintf_bytes.
  rewrite (entry_size_small name H).
  pose proof (strlen_nonneg name).
  assert (Hsz : strlen name + 20 + 1 < 2 ^ 64) by (unfold int_sized in H; lia).
  rewrite Z.mod_small by lia.
  destruct (strlen name + 20 + 1 <=? 0) eqn:E; [apply Z.leb_le in E; lia|].
  rewrite firstn_all2; [reflexivity|].
  pose proof (sym_line_blen c (kind_char k) (c_str name)) as L.
  fold (strlen name) in L. unfold blen in L. lia.
Qed.

Lemma entry_bytes_blen_small c k name :
  int_sized name -> blen (entry_bytes c k name) = strlen name + 21.
Proof.
  intros H. rewrite (entry_bytes_small c k name H), blen_app, sym_line_blen.
  unfold strlen. change (blen [NUL]) with 1. lia.
Qed.

Lemma entry_size_fits name : fits name -> entry_size_of name = strlen name + 20.
Proof. intros H. apply entry_size_small, fits_int_sized, H. Qed.

Lemma entry_bytes_fits c k name :
  fits name ->
  entry_bytes c k name = sym_line c (kind_char k) (c_str name) ++ [NUL].
Proof. intros H. apply entry_bytes_small, fits_int_sized, H. Qed.

Lemma entry_bytes_blen c k name :
  fits name -> blen (entry_bytes c k name) = strlen name + 21.
Proof. intros H. apply entry_bytes_blen_small, fits_int_sized, H. Qed.

(** ** One allocation in one process *)

Lemma unit_step n :
  0 < n < 2 ^ 32 -> n mod UFTRACE_PYTHON_SYMTAB_SIZE = 0 ->
  n + UFTRACE_PYTHON_SYMTAB_SIZE <= 2 ^ 32.
Proof.
  unfold UFTRACE_PYTHON_SYMTAB_SIZE. intros H Hm.
  apply Z.mod_divide in Hm; [|lia]. destruct Hm as [q Hq]. subst n.
  assert (q < 4096) by lia. lia.
Qed.

Lemma next_offset_small s name :
  int_sized name ->
  hdr_offset (val (seg s)) + (strlen name + 20) < 2 ^ 32 ->
  hdr_offset (next_hdr (val (seg s)) (entry_size_of name))
  = hdr_offset (val (seg s)) + (strlen name + 20).
Proof.
  intros F H. unfold next_hdr. rewrite hdr_offset_pack, (entry_size_small name F).
  apply wrap32_small.
  pose proof (hdr_offset_range (val (seg s))). pose proof (strlen_nonneg name). lia.
Qed.

Lemma next_offset_fits s name :
  reg_inv s -> fits name ->
  hdr_offset (next_hdr (val (seg s)) (entry_size_of name))
  = hdr_offset (val (seg s)) + (strlen name + 20).
Proof.
  intros I F. apply next_offset_small; [apply fits_int_sized, F|].
  pose proof (inv_offset s I) as Ho. pose proof (inv_size s I) as Hs.
  pose proof (unit_step _ Hs (inv_unit s I)).
  pose proof (strlen_nonneg name).
  unfold fits in F. unfold UFTRACE_PYTHON_SYMTAB_HDRSZ in *. lia.
Qed.

Lemma get_new_sym_addr_unfold e name k s :
  symtab (map_ s) = true ->
  get_new_sym_addr e name k s
  = write_sym e (val (seg s)) (next_hdr (val (seg s)) (entry_size_of name)) name k
      (set_seg (seg_val (next_hdr (val (seg s)) (entry_size_of name))) s).
Proof.
  intros Hm. unfold get_new_sym_addr, cas_loop, cas, bind, guard_mapped, get, ret.
  rewrite Hm, Z.eqb_refl. reflexivity.
Qed.

Lemma grow_symtab_ok e s :
  uftrace_shmem_fd (map_ s) = true ->
  0 < uftrace_symtab_size (map_ s) ->
  grantable e s ->
  grow_symtab e s = Ok tt (grown s).
Proof.
  intros Hfd Hpos [Hlt Hle].
  unfold grow_symtab, ftruncate, map_pages, bind, get, modify, ret.
  rewrite (wrap32_small (uftrace_symtab_size (map_ s) + UFTRACE_PYTHON_SYMTAB_SIZE))
    by (unfold UFTRACE_PYTHON_SYMTAB_SIZE in *; lia).
  rewrite Hfd.
  replace (0 <=? uftrace_symtab_size (map_ s) + UFTRACE_PYTHON_SYMTAB_SIZE) with true
    by (symmetry; apply Z.leb_le; unfold UFTRACE_PYTHON_SYMTAB_SIZE; lia).
  replace (0 <? uftrace_symtab_size (map_ s) + UFTRACE_PYTHON_SYMTAB_SIZE) with true
    by (symmetry; apply Z.ltb_lt; unfold UFTRACE_PYTHON_SYMTAB_SIZE; lia).
  replace (uftrace_symtab_size (map_ s) + UFTRACE_PYTHON_SYMTAB_SIZE <=? shm_limit e)
    with true by (symmetry; apply Z.leb_le; exact Hle).
  reflexivity.
Qed.


Lemma get_new_sym_addr_ok e name k s :
  reg_inv s -> fits name ->
  (grows name s = true -> grantable e s) ->
  get_new_sym_addr e name k s
  = Ok (wrap32 (hdr_count (val (seg s)) + 1)) (allocated name k s).
Proof.
  intros I F G.
  rewrite get_new_sym_addr_unfold by (apply (inv_mapped s I)).
  unfold write_sym, allocated, bind, get, ret.
  cbn [map_ set_seg].
  pose proof (next_offset_fits s name I F) as Hoff.
  pose proof (inv_offset s I) as Ho. pose proof (inv_size s I) as Hs.
  pose proof (strlen_nonneg name) as Hn.
  set (new_hdr := next_hdr (val (seg s)) (entry_size_of name)) in *.
  assert (Hc : hdr_count new_hdr = wrap32 (hdr_count (val (seg s)) + 1))
    by (unfold new_hdr, next_hdr; apply hdr_count_pack).
  unfold grows in G. rewrite <- Hoff in G.
  destruct (hdr_offset new_hdr >=? uftrace_symtab_size (map_ s)) eqn:E.
  - rewrite grow_symtab_ok; cbn [map_ set_seg]; try apply (inv_fd s I); try lia;
      [|apply (G eq_refl)].
    unfold store_at, grown. cbn [map_ seg set_seg set_map map_size map_symtab symtab
      uftrace_symtab_size shm_length seg_length seg_data seg_val].
    rewrite (entry_bytes_blen _ k name F).
    replace (0 <=? hdr_offset (val (seg s))) with true
      by (symmetry; apply Z.leb_le; unfold UFTRACE_PYTHON_SYMTAB_HDRSZ in Ho; lia).
    replace (hdr_offset (val (seg s)) + (strlen name + 21)
             <=? uftrace_symtab_size (map_ s) + UFTRACE_PYTHON_SYMTAB_SIZE) with true
      by (symmetry; apply Z.leb_le; unfold fits in F; lia).
    cbn [andb]. rewrite Hc. reflexivity.
  - unfold store_at. cbn [map_ seg set_seg seg_val shm_length].
    rewrite (entry_bytes_blen _ k name F), (inv_mapped s I), (inv_length s I).
    rewrite Z.geb_leb in E. apply Z.leb_gt in E.
    replace (0 <=? hdr_offset (val (seg s))) with true
      by (symmetry; apply Z.leb_le; unfold UFTRACE_PYTHON_SYMTAB_HDRSZ in Ho; lia).
    replace (hdr_offset (val (seg s)) + (strlen name + 21)
             <=? uftrace_symtab_size (map_ s)) with true
      by (symmetry; apply Z.leb_le; lia).
    cbn [andb]. rewrite Hc. reflexivity.
Qed.


Lemma allocated_inv name k s :
  reg_inv s -> fits name ->
  (grows name s = true ->
   uftrace_symtab_size (map_ s) + UFTRACE_PYTHON_SYMTAB_SIZE < 2 ^ 32) ->
  reg_inv (allocated name k s).
Proof.
  intros I F G.
  pose proof (next_offset_fits s name I F) as Hoff.
  pose proof (inv_offset s I) as Ho. pose proof (inv_size s I) as Hs.
  pose proof (strlen_nonneg name) as Hn.
  unfold grows in G. rewrite <- Hoff in G.
  unfold allocated.
  set (new_hdr := next_hdr (val (seg s)) (entry_size_of name)) in *.
  destruct (hdr_offset new_hdr >=? uftrace_symtab_size (map_ s)) eqn:E.
  - specialize (G eq_refl).
    constructor; unfold grown;
      cbn [map_ seg set_seg set_map map_size map_symtab symtab uftrace_symtab_size
           uftrace_shmem_fd shm_length seg_length seg_data seg_val val];
      try reflexivity.
    + apply (inv_fd s I).
    + unfold UFTRACE_PYTHON_SYMTAB_SIZE in *. lia.
    + rewrite <- Z.add_mod_idemp_l, (inv_unit s I) by (unfold UFTRACE_PYTHON_SYMTAB_SIZE; lia).
      reflexivity.
    + rewrite Hoff. unfold fits in F. lia.
  - rewrite Z.geb_leb in E. apply Z.leb_gt in E.
    constructor;
      cbn [map_ seg set_seg seg_data seg_val val shm_length];
      try apply I.
    rewrite Hoff in *. lia.
Qed.

(** ** C10 *)


(** ** The file system *)

Lemma lookup_update_same path c f : lookup_file path (update_file path c f) = Some c.
Proof.
  induction f as [|[p c'] r IH]; simpl.
  - rewrite String.eqb_refl. reflexivity.
  - destruct (String.eqb p path) eqn:E; simpl; rewrite E; [reflexivity|exact IH].
Qed.

Lemma update_update path c1 c2 f :
  update_file path c2 (update_file path c1 f) = update_file path c2 f.
Proof.
  induction f as [|[p c'] r IH]; simpl.
  - rewrite String.eqb_refl. reflexivity.
  - destruct (String.eqb p path) eqn:E; simpl; rewrite E; [reflexivity|].
    rewrite IH. reflexivity.
Qed.

Lemma update_lookup path c f : lookup_file path f = Some c -> update_file path c f = f.
Proof.
  induction f as [|[p c'] r IH]; simpl; [discriminate|].
  destruct (String.eqb p path) eqn:E.
  - intros H. inversion H. reflexivity.
  - intros H. rewrite IH by exact H. reflexivity.
Qed.

Lemma set_files_same s : set_files (files s) s = s.
Proof. destruct s. reflexivity. Qed.

(** ** Writing the table out *)

Lemma copy_loop_ok e fuel : forall path buf len s c,
  writes_well e ->
  symtab (map_ s) = true ->
  0 <= buf -> 0 <= len < 2 ^ 32 ->
  buf + len <= uftrace_symtab_size (map_ s) ->
  buf + len <= shm_length (seg s) ->
  (Z.to_nat len <= fuel)%nat ->
  lookup_file path (files s) = Some c ->
  copy_loop e fuel path buf len s
  = Ok tt (set_files (update_file path
                        (c ++ load_bytes (data (seg s)) buf (Z.to_nat len)) (files s)) s).
Proof.
  induction fuel as [|fuel IH]; intros path buf len s c W Hm Hb Hl Hs Hsl Hf Hc.
  - assert (len = 0) by lia. subst len. simpl.
    rewrite app_nil_r, (update_lookup _ _ _ Hc), set_files_same. reflexivity.
  - simpl. destruct (len =? 0) eqn:E.
    + apply Z.eqb_eq in E. subst len. simpl.
      rewrite app_nil_r, (update_lookup _ _ _ Hc), set_files_same. reflexivity.
    + apply Z.eqb_neq in E. unfold bind, fwrite.
      set (n := Z.max 0 (Z.min len (fwrite_chunk e))).
      assert (Hn : 0 < n <= len /\ n < 2 ^ 31) by (unfold writes_well in W; lia).
      rewrite Hm, Hc.
      replace (0 <=? buf) with true by (symmetry; apply Z.leb_le; lia).
      replace (buf + n <=? uftrace_symtab_size (map_ s)) with true
        by (symmetry; apply Z.leb_le; lia).
      replace (buf + n <=? shm_length (seg s)) with true
        by (symmetry; apply Z.leb_le; lia).
      cbn [andb]. rewrite int32_small by lia.
      replace (n <? 0) with false by (symmetry; apply Z.ltb_ge; lia).
      rewrite wrap32_small by lia.
      rewrite (IH path (buf + n) (len - n) _ (c ++ load_bytes (data (seg s)) buf (Z.to_nat n)));
        try assumption; cbn [map_ seg files set_files]; try lia.
      * rewrite update_update, <- app_assoc.
        replace (Z.to_nat len) with (Z.to_nat n + Z.to_nat (len - n))%nat by lia.
        rewrite load_bytes_app, Z2Nat.id by lia. reflexivity.
      * apply lookup_update_same.
Qed.

Lemma copy_loop_stuck e fuel : forall path buf len s c,
  fwrite_chunk e <= 0 ->
  symtab (map_ s) = true ->
  0 <= buf <= uftrace_symtab_size (map_ s) ->
  buf <= shm_length (seg s) ->
  0 < len < 2 ^ 32 ->
  lookup_file path (files s) = Some c ->
  copy_loop e fuel path buf len s = Hang s.
Proof.
  induction fuel as [|fuel IH]; intros path buf len s c W Hm Hb Hsl Hl Hc.
  - simpl. replace (len =? 0) with false by (symmetry; apply Z.eqb_neq; lia). reflexivity.
  - simpl. replace (len =? 0) with false by (symmetry; apply Z.eqb_neq; lia).
    unfold bind, fwrite.
    replace (Z.max 0 (Z.min len (fwrite_chunk e))) with 0 by lia.
    rewrite Hm, Hc.
    replace (0 <=? buf) with true by (symmetry; apply Z.leb_le; lia).
    replace (buf + 0 <=? uftrace_symtab_size (map_ s)) with true
      by (symmetry; apply Z.leb_le; lia).
    replace (buf + 0 <=? shm_length (seg s)) with true
      by (symmetry; apply Z.leb_le; lia).
    cbn [andb]. change (int32 0) with 0. change (0 <? 0) with false. cbv iota.
    change (Z.to_nat 0) with 0%nat. change (load_bytes (data (seg s)) buf 0) with (@nil byte).
    rewrite app_nil_r, (update_lookup _ _ _ Hc), set_files_same.
    rewrite Z.add_0_r, Z.sub_0_r, wrap32_small by lia.
    apply (IH path buf len s c); assumption.
Qed.

Lemma fprintf_ok path text s c :
  lookup_file path (files s) = Some c ->
  fprintf path text s
  = Ok (blen text) (set_files (update_file path (c ++ text) (files s)) s).
Proof. intros H. unfold fprintf. rewrite H. reflexivity. Qed.

(** Once the file is open and the table is mapped, the header comment is
    written and the copy loop is reached. *)
Lemma write_symtab_header e symtab_name dirname s :
  symtab (map_ s) = true ->
  fopen_ok e (symtab_path symtab_name dirname) = true ->
  exists s5,
    write_symtab e symtab_name dirname s
    = copy_and_release e (symtab_path symtab_name dirname) (val (seg s)) s5
    /\ lookup_file (symtab_path symtab_name dirname) (files s5)
       = Some (header_comment symtab_name (hdr_count (val (seg s))))
    /\ seg s5 = seg s /\ map_ s5 = map_ s
    /\ hook_log s5 = hook_log s /\ adp s5 = adp s.
Proof.
  intros Hm Hf.
  set (path := symtab_path symtab_name dirname) in *.
  set (count := hdr_count (val (seg s))).
  unfold write_symtab. fold path.
  unfold bind at 1. unfold fopen_w. rewrite Hf. cbn [negb].
  unfold bind at 1. unfold get.
  set (s1 := set_files (update_file path [] (files s)) s).
  assert (Hm1 : symtab (map_ s1) = true) by exact Hm.
  assert (Hg : forall t, symtab (map_ t) = true -> guard_mapped t = Ok tt t)
    by (intros t Ht; unfold guard_mapped; rewrite Ht; reflexivity).
  unfold bind at 1.
  replace ((if debug s1 then guard_mapped else ret tt) s1) with (Ok tt s1)
    by (destruct (debug s1); [rewrite Hg by exact Hm1|]; reflexivity).
  unfold bind at 1. rewrite Hg by exact Hm1.
  unfold bind at 1.
  rewrite (fprintf_ok path _ s1 []) by apply lookup_update_same.
  set (s2 := set_files _ s1).
  unfold bind at 1.
  rewrite (fprintf_ok path _ s2 ([] ++ header_line1 (hdr_count (val (seg s1)))))
    by apply lookup_update_same.
  set (s3 := set_files _ s2).
  unfold bind at 1.
  rewrite (fprintf_ok path _ s3
             (([] ++ header_line1 (hdr_count (val (seg s1)))) ++ header_line2 symtab_name))
    by apply lookup_update_same.
  set (s4 := set_files _ s3).
  set (text := (_ ++ header_line3 _)) in s4.
  assert (Htext : text = header_comment symtab_name count).
  { unfold text, header_comment. cbn [app]. rewrite <- app_assoc. reflexivity. }
  set (hlen := wrap32 _).
  set (s5 := if hlen =? UFTRACE_PYTHON_SYMTAB_HDRSZ then s4
             else pr_warn (WarnHeaderSize hlen) s4).
  assert (H5 : seg s5 = seg s /\ map_ s5 = map_ s
               /\ files s5 = files s4 /\ hook_log s5 = hook_log s /\ adp s5 = adp s).
  { unfold s5. destruct (hlen =? UFTRACE_PYTHON_SYMTAB_HDRSZ); repeat split. }
  destruct H5 as (Hseg5 & Hmap5 & Hfiles5 & Hhook5 & Hadp5).
  unfold bind at 1.
  replace ((if hlen =? UFTRACE_PYTHON_SYMTAB_HDRSZ then ret tt
            else modify (pr_warn (WarnHeaderSize hlen))) s4) with (Ok tt s5)
    by (unfold s5; destruct (hlen =? UFTRACE_PYTHON_SYMTAB_HDRSZ); reflexivity).
  change (val (seg s1)) with (val (seg s)).
  exists s5. split; [reflexivity|].
  rewrite Hfiles5. unfold s4. cbn [files set_files]. rewrite lookup_update_same, Htext.
  repeat split; assumption.
Qed.

Lemma write_symtab_ok e symtab_name dirname s :
  symtab (map_ s) = true ->
  UFTRACE_PYTHON_SYMTAB_HDRSZ <= hdr_offset (val (seg s)) <= uftrace_symtab_size (map_ s) ->
  hdr_offset (val (seg s)) <= shm_length (seg s) ->
  fopen_ok e (symtab_path symtab_name dirname) = true ->
  writes_well e ->
  exists s',
    write_symtab e symtab_name dirname s = Ok tt s'
    /\ lookup_file (symtab_path symtab_name dirname) (files s')
       = Some (symtab_file symtab_name (hdr_count (val (seg s)))
                 (load_bytes (data (seg s)) UFTRACE_PYTHON_SYMTAB_HDRSZ
                    (Z.to_nat (hdr_offset (val (seg s)) - UFTRACE_PYTHON_SYMTAB_HDRSZ))))
    /\ symtab (map_ s') = false
    /\ uftrace_shmem_fd (map_ s') = false
    /\ shm_linked (seg s') = false
    /\ hook_log s' = hook_log s
    /\ adp s' = adp s.
Proof.
  intros Hm Ho Hsl Hf W.
  pose proof (hdr_offset_range (val (seg s))) as Hr.
  destruct (write_symtab_header e symtab_name dirname s Hm Hf)
    as (s5 & E & Hfile & Hseg5 & Hmap5 & Hhook5 & Hadp5).
  rewrite E. unfold copy_and_release.
  rewrite (wrap32_small (hdr_offset (val (seg s)) - UFTRACE_PYTHON_SYMTAB_HDRSZ))
    by (unfold UFTRACE_PYTHON_SYMTAB_HDRSZ in *; lia).
  unfold bind at 1.
  rewrite (copy_loop_ok e _ _ _ _ s5 (header_comment symtab_name (hdr_count (val (seg s)))) W);
    try exact Hfile.
  - unfold bind at 1.
    erewrite fprintf_ok by (cbn [files set_files]; apply lookup_update_same).
    eexists. split; [reflexivity|].
    cbn [modify bind files set_files set_seg set_map map_ seg symtab uftrace_shmem_fd
         shm_linked map_symtab map_fd seg_linked hook_log adp].
    rewrite lookup_update_same, Hseg5, Hhook5, Hadp5.
    unfold symtab_file. rewrite <- app_assoc. repeat split.
  - rewrite Hmap5. exact Hm.
  - unfold UFTRACE_PYTHON_SYMTAB_HDRSZ. lia.
  - unfold UFTRACE_PYTHON_SYMTAB_HDRSZ in *. lia.
  - rewrite Hmap5. unfold UFTRACE_PYTHON_SYMTAB_HDRSZ in *. lia.
  - rewrite Hseg5. unfold UFTRACE_PYTHON_SYMTAB_HDRSZ in *. lia.
  - lia.
Qed.

(** When [fwrite] writes nothing and there is an entry to copy, the
    loop never ends; the table is still mapped, open and linked. *)
Lemma write_symtab_write_failure e symtab_name dirname s :
  symtab (map_ s) = true ->
  UFTRACE_PYTHON_SYMTAB_HDRSZ < hdr_offset (val (seg s)) ->
  UFTRACE_PYTHON_SYMTAB_HDRSZ <= uftrace_symtab_size (map_ s) ->
  UFTRACE_PYTHON_SYMTAB_HDRSZ <= shm_length (seg s) ->
  fopen_ok e (symtab_path symtab_name dirname) = true ->
  fwrite_chunk e <= 0 ->
  exists s',
    write_symtab e symtab_name dirname s = Hang s'
    /\ seg s' = seg s /\ map_ s' = map_ s.
Proof.
  intros Hm Ho Hsz Hsl Hf W.
  pose proof (hdr_offset_range (val (seg s))) as Hr.
  destruct (write_symtab_header e symtab_name dirname s Hm Hf)
    as (s5 & E & Hfile & Hseg5 & Hmap5 & _).
  rewrite E. unfold copy_and_release.
  rewrite (wrap32_small (hdr_offset (val (seg s)) - UFTRACE_PYTHON_SYMTAB_HDRSZ))
    by (unfold UFTRACE_PYTHON_SYMTAB_HDRSZ in *; lia).
  unfold bind at 1.
  rewrite (copy_loop_stuck e _ _ _ _ s5
             (header_comment symtab_name (hdr_count (val (seg s)))) W);
    try exact Hfile.
  - exists s5. auto.
  - rewrite Hmap5. exact Hm.
  - rewrite Hmap5. unfold UFTRACE_PYTHON_SYMTAB_HDRSZ in *. lia.
  - rewrite Hseg5. unfold UFTRACE_PYTHON_SYMTAB_HDRSZ in *. lia.
  - unfold UFTRACE_PYTHON_SYMTAB_HDRSZ in *. lia.
Qed.

(** ** A run of allocations in one process *)

Lemma app_eq_prefix {A} (a a' b b' : list A) :
  a ++ b = a' ++ b' -> List.length a = List.length a' -> a = a'.
Proof.
  revert a'. induction a as [|x a IH]; destruct a' as [|y a']; simpl; intros H L;
    try discriminate; [reflexivity|].
  inversion H; subst. f_equal. apply IH; [assumption|lia].
Qed.

Lemma load_store_prefix m off a b :
  load_bytes (store_bytes m off (a ++ b)) off (List.length a) = a.
Proof.
  pose proof (load_store_same m off (a ++ b)) as H.
  rewrite length_app, load_bytes_app in H.
  apply app_eq_prefix in H; [exact H|].
  apply load_bytes_length.
Qed.

Lemma load_trunc m n off k :
  off + Z.of_nat k <= n -> load_bytes (trunc_mem n m) off k = load_bytes m off k.
Proof.
  intros H. apply load_bytes_ext. intros i Hi. unfold trunc_mem.
  replace (i <? n) with true by (symmetry; apply Z.ltb_lt; lia). reflexivity.
Qed.

Lemma table_grantable e s c bs n :
  table s c bs -> room e n -> hdr_offset (val (seg s)) <= n -> grantable e s.
Proof.
  intros T [R1 R2] Hn. pose proof (tab_size s c bs T). unfold grantable. lia.
Qed.

Lemma allocated_table e s c bs name k :
  table s c bs -> fits name ->
  room e (hdr_offset (val (seg s))) ->
  table (allocated name k s) (c + 1)
        (bs ++ sym_line (c + 1) (kind_char k) (c_str name)).
Proof.
  intros T F R.
  pose proof (tab_inv s c bs T) as I.
  pose proof (table_grantable e s c bs _ T R (Z.le_refl _)) as G.
  pose proof (inv_offset s I) as Ho. pose proof (inv_size s I) as Hs.
  pose proof (strlen_nonneg name) as Hn.
  pose proof (tab_lines s c bs T) as Hl.
  pose proof (tab_offset s c bs T) as Hoff.
  pose proof (next_offset_fits s name I F) as Hnext.
  assert (Hc : wrap32 (c + 1) = c + 1)
    by (apply wrap32_small; unfold UFTRACE_PYTHON_SYMTAB_HDRSZ in *; lia).
  assert (Hinv : reg_inv (allocated name k s))
    by (apply allocated_inv; try assumption; intros _; apply G).
  assert (Hval : val (seg (allocated name k s))
                 = next_hdr (val (seg s)) (entry_size_of name))
    by (unfold allocated;
        destruct (hdr_offset (next_hdr (val (seg s)) (entry_size_of name))
                  >=? uftrace_symtab_size (map_ s)); reflexivity).
  constructor.
  - exact Hinv.
  - rewrite Hval. unfold next_hdr. rewrite hdr_count_pack, (tab_count s c bs T). exact Hc.
  - rewrite Hval, Hnext, Hoff, blen_app, sym_line_blen. unfold strlen. lia.
  - rewrite length_app, load_bytes_app.
    assert (Hcnt : hdr_count (next_hdr (val (seg s)) (entry_size_of name)) = c + 1)
      by (unfold next_hdr; rewrite hdr_count_pack, (tab_count s c bs T); exact Hc).
    unfold allocated. rewrite Hcnt, (entry_bytes_fits _ k name F).
    assert (Hlen : UFTRACE_PYTHON_SYMTAB_HDRSZ + Z.of_nat (List.length bs)
                   = hdr_offset (val (seg s))) by (rewrite Hoff; reflexivity).
    destruct (hdr_offset (next_hdr (val (seg s)) (entry_size_of name))
              >=? uftrace_symtab_size (map_ s)); unfold grown;
      cbn [data seg set_seg set_map seg_data seg_length seg_val];
      rewrite Hlen, load_store_prefix; f_equal;
      rewrite load_store_before by lia.
    + rewrite load_trunc; [apply (tab_bytes s c bs T)|].
      cbn [map_ set_seg]. unfold UFTRACE_PYTHON_SYMTAB_SIZE. lia.
    + apply (tab_bytes s c bs T).
  - rewrite blen_app, sym_line_blen. pose proof (blen_nonneg (c_str name)). lia.
  - rewrite Hval, Hnext.
    unfold allocated. rewrite Hnext.
    destruct (hdr_offset (val (seg s)) + (strlen name + 20)
              >=? uftrace_symtab_size (map_ s)) eqn:E; unfold grown;
      cbn [map_ set_seg set_map map_size uftrace_symtab_size].
    + rewrite Z.geb_leb in E. apply Z.leb_le in E. lia.
    + pose proof (tab_size s c bs T). lia.
Qed.

Lemma total_size_nonneg l : 0 <= total_size l.
Proof.
  induction l as [|[n k] r IH]; simpl; [lia|].
  pose proof (strlen_nonneg n). lia.
Qed.

Lemma alloc_all_ok e l : forall s c bs,
  table s c bs ->
  Forall (fun p => fits (fst p)) l ->
  room e (hdr_offset (val (seg s)) + total_size l) ->
  alloc_all e l s = Ok (addrs c l) (allocated_all l s)
  /\ table (allocated_all l s) (c + Z.of_nat (List.length l)) (bs ++ lines c l).
Proof.
  induction l as [|[name k] r IH]; intros s c bs T F R.
  - simpl. rewrite Z.add_0_r, app_nil_r. split; [reflexivity|exact T].
  - inversion F as [|? ? Fn Fr]; subst. simpl in Fn.
    pose proof (total_size_nonneg r) as Hr. pose proof (strlen_nonneg name) as Hn.
    assert (R1 : room e (hdr_offset (val (seg s))))
      by (destruct R as [R1 R2]; cbn [total_size] in R1, R2; split; lia).
    pose proof (allocated_table e s c bs name k T Fn R1) as T1.
    pose proof (tab_inv s c bs T) as I.
    pose proof (tab_lines s c bs T) as Hl.
    pose proof (tab_offset s c bs T) as Hoff.
    pose proof (inv_offset s I) as Ho. pose proof (inv_size s I) as Hs.
    cbn [alloc_all allocated_all addrs lines List.length].
    unfold bind at 1.
    rewrite (get_new_sym_addr_ok e name k s I Fn)
      by (intros _; apply (table_grantable e s c bs _ T R1); lia).
    rewrite (tab_count s c bs T), wrap32_small
      by (unfold UFTRACE_PYTHON_SYMTAB_HDRSZ in *; lia).
    destruct (IH (allocated name k s) (c + 1) _ T1 Fr) as [E1 T2].
    { rewrite (tab_offset _ _ _ T1), blen_app, sym_line_blen.
      destruct R as [Ra Rb]. cbn [total_size] in Ra, Rb. rewrite Hoff in Ra, Rb.
      unfold strlen in *. split; lia. }
    unfold bind. rewrite E1. split; [reflexivity|].
    replace (c + Z.of_nat (S (List.length r))) with (c + 1 + Z.of_nat (List.length r)) by lia.
    rewrite app_assoc. exact T2.
Qed.

(** ** From a fresh table to the file *)



Lemma init_symtab_ok e s :
  shm_open_ok e = true ->
  UFTRACE_PYTHON_SYMTAB_SIZE <= shm_limit e ->
  exists s',
    init_symtab e s = Ok tt s'
    /\ table s' 0 []
    /\ shm_linked (seg s') = true
    /\ files s' = files s /\ adp s' = adp s
    /\ hook_log s' = hook_log s /\ warn_log s' = warn_log s.
Proof.
  intros Ho Hl.
  unfold init_symtab, ftruncate, map_pages, bind, modify, ret.
  rewrite Ho.
  cbn [map_ seg set_map set_seg map_fd uftrace_shmem_fd andb].
  replace (0 <=? UFTRACE_PYTHON_SYMTAB_SIZE) with true by reflexivity.
  replace (0 <? UFTRACE_PYTHON_SYMTAB_SIZE) with true by reflexivity.
  replace (UFTRACE_PYTHON_SYMTAB_SIZE <=? shm_limit e) with true
    by (symmetry; apply Z.leb_le; exact Hl).
  cbn [andb].
  eexists. split; [reflexivity|].
  split; [|repeat split].
  constructor; [constructor|..];
    cbn [map_ seg set_map set_seg map_fd map_size map_symtab seg_val seg_length seg_data
         val data shm_length symtab uftrace_symtab_size uftrace_shmem_fd];
    try reflexivity; vm_compute; try (split; congruence); try congruence.
Qed.


(** ** Runs and their prefixes *)

Lemma alloc_step e s c bs name k :
  table s c bs -> fits name ->
  room e (hdr_offset (val (seg s))) ->
  get_new_sym_addr e name k s = Ok (c + 1) (allocated name k s)
  /\ table (allocated name k s) (c + 1)
           (bs ++ sym_line (c + 1) (kind_char k) (c_str name)).
Proof.
  intros T F R. split; [|apply (allocated_table e); assumption].
  pose proof (tab_inv s c bs T) as I.
  pose proof (tab_lines s c bs T) as Hl.
  pose proof (tab_offset s c bs T) as Hoff.
  pose proof (inv_offset s I) as Ho. pose proof (inv_size s I) as Hs.
  rewrite (get_new_sym_addr_ok e name k s I F)
    by (intros _; apply (table_grantable e s c bs _ T R); lia).
  rewrite (tab_count s c bs T), wrap32_small
    by (unfold UFTRACE_PYTHON_SYMTAB_HDRSZ in *; lia).
  reflexivity.
Qed.




(** ** C6 *)


(** ** Concrete runs *)

(** When one more unit is not enough for the store, whether because the
    entry is larger than a unit or because the process's size is behind
    the shared offset, the store runs past the end of the mapping; the
    object has by then been set to the process's size plus one unit. *)
Lemma get_new_sym_addr_overrun e name k s :
  symtab (map_ s) = true ->
  uftrace_shmem_fd (map_ s) = true ->
  0 < uftrace_symtab_size (map_ s) ->
  int_sized name -> grantable e s ->
  hdr_offset (val (seg s)) + (strlen name + 20) < 2 ^ 32 ->
  uftrace_symtab_size (map_ s) + UFTRACE_PYTHON_SYMTAB_SIZE
  < hdr_offset (val (seg s)) + (strlen name + 21) ->
  exists s',
    get_new_sym_addr e name k s = Fault s'
    /\ uftrace_symtab_size (map_ s')
       = uftrace_symtab_size (map_ s) + UFTRACE_PYTHON_SYMTAB_SIZE
    /\ shm_length (seg s')
       = uftrace_symtab_size (map_ s) + UFTRACE_PYTHON_SYMTAB_SIZE
    /\ files s' = files s /\ symtab (map_ s') = true.
Proof.
  intros Hm Hfd Hs F G Hlt Hbig.
  rewrite get_new_sym_addr_unfold by exact Hm.
  unfold write_sym, bind, get. cbn [map_ set_seg].
  rewrite (next_offset_small s name F Hlt).
  replace (hdr_offset (val (seg s)) + (strlen name + 20) >=? uftrace_symtab_size (map_ s))
    with true
    by (symmetry; rewrite Z.geb_leb; apply Z.leb_le;
        unfold UFTRACE_PYTHON_SYMTAB_SIZE in *; lia).
  rewrite grow_symtab_ok; cbn [map_ set_seg]; try exact Hfd; try lia; try exact G.
  unfold store_at, grown.
  cbn [map_ seg set_seg set_map map_size map_symtab symtab
       uftrace_symtab_size shm_length seg_length seg_data seg_val].
  rewrite (entry_bytes_blen_small _ k name F).
  replace (hdr_offset (val (seg s)) + (strlen name + 21)
           <=? uftrace_symtab_size (map_ s) + UFTRACE_PYTHON_SYMTAB_SIZE) with false
    by (symmetry; apply Z.leb_gt; lia).
  rewrite !andb_false_r.
  eexists. split; [reflexivity|]. repeat split.
Qed.

Lemma c_str_long_name n :
  c_str (string_of_list_ascii (repeat "a"%char n)) = repeat x61 n.
Proof. induction n as [|n IH]; simpl; [reflexivity|]. rewrite IH. reflexivity. Qed.

Lemma strlen_long_name n : 0 <= n -> strlen (long_name n) = n.
Proof.
  intros H. unfold strlen, long_name, blen.
  rewrite c_str_long_name, repeat_length. lia.
Qed.

Lemma fresh_table_init : init_symtab fair_env boot_state = Ok tt fresh_table.
Proof. reflexivity. Qed.

Lemma fresh_table_table : table fresh_table 0 [].
Proof.
  destruct (init_symtab_ok fair_env boot_state) as (s1 & E1 & T1 & _);
    [reflexivity|vm_compute; discriminate|].
  rewrite fresh_table_init in E1. injection E1 as E1. subst s1. exact T1.
Qed.

(** Why the growth property is stated for entries of at most one unit.
    The growth step adds one unit whatever the size of the entry.  For a
    single name of 2 MiB on a fresh table the growth branch is taken, the
    mapping has two units afterwards, and the entry with its terminator
    ends 69 bytes past them: a store outside the mapping, where C defines
    no outcome and the model stops with [Fault]. *)
Lemma oversized_entry_overruns_mapping :
  let name := long_name (2 * 1024 * 1024) in
  grows name fresh_table = true
  /\ uftrace_symtab_size (map_ (grown fresh_table)) = 2 * UFTRACE_PYTHON_SYMTAB_SIZE
  /\ hdr_offset (val (seg fresh_table)) + blen (entry_bytes 1 true name)
     = 2 * UFTRACE_PYTHON_SYMTAB_SIZE + 69
  /\ exists s', get_new_sym_addr fair_env name true fresh_table = Fault s'.
Proof.
  intros name.
  assert (Hlen : strlen name = 2 * 1024 * 1024) by (apply strlen_long_name; lia).
  assert (Hint : int_sized name) by (unfold int_sized; rewrite Hlen; reflexivity).
  split; [unfold grows; rewrite Hlen; reflexivity|].
  split; [reflexivity|].
  split; [rewrite (entry_bytes_blen_small 1 true name Hint), Hlen; reflexivity|].
  destruct (get_new_sym_addr_overrun fair_env name true fresh_table)
    as (s' & E & _).
  - reflexivity.
  - reflexivity.
  - reflexivity.
  - exact Hint.
  - split; vm_compute; [reflexivity|discriminate].
  - rewrite Hlen. reflexivity.
  - rewrite Hlen. reflexivity.
  - exists s'. exact E.
Qed.


Lemma growing_run_grows :
  grows (long_name (1024 * 1024 - 68)) fresh_table = true
  /\ uftrace_symtab_size (map_ (allocated (long_name (1024 * 1024 - 68)) true fresh_table))
     = 2 * UFTRACE_PYTHON_SYMTAB_SIZE.
Proof.
  assert (Hlen : strlen (long_name (1024 * 1024 - 68)) = 1024 * 1024 - 68)
    by (apply strlen_long_name; lia).
  assert (F : fits (long_name (1024 * 1024 - 68)))
    by (unfold fits; rewrite Hlen; unfold UFTRACE_PYTHON_SYMTAB_SIZE; lia).
  split.
  - unfold grows. rewrite Hlen. reflexivity.
  - unfold allocated.
    rewrite (next_offset_fits _ _ (tab_inv _ _ _ fresh_table_table) F), Hlen.
    reflexivity.
Qed.







(** ** C2 *)

(** C2: from a freshly initialised table, allocating "a" (managed), "b"
    (managed), "c" (native) returns 1, 2, 3, and the file [write_symtab]
    leaves is the header comment followed by exactly the three entry
    lines and the end marker with address 4. *)
Theorem abc_scenario e symtab_name dirname s :
  grants_all e (symtab_path symtab_name dirname) ->
  exists s',
    python_symtab e symtab_name dirname s = Ok (1, 2, 3) s'
    /\ lookup_file (symtab_path symtab_name dirname) (files s')
       = Some (header_comment symtab_name 3
               ++ bytes "0000000000000001 T a"  ++ [x0a]
               ++ bytes "0000000000000002 T b" ++ [x0a]
               ++ bytes "0000000000000003 t c" ++ [x0a]
               ++ bytes "0000000000000004 ? __sym_end" ++ [x0a]).
Proof.
  intros (Ho & Hl & Hf & W).
  destruct (init_symtab_ok e s Ho) as (s1 & E1 & T1 & _);
    [unfold UFTRACE_PYTHON_SYMTAB_SIZE in *; lia|].
  assert (R : forall t c bs, table t c bs -> blen bs <= 63 ->
                             room e (hdr_offset (val (seg t)))).
  { intros t c bs T Hb. rewrite (tab_offset _ _ _ T).
    unfold room, UFTRACE_PYTHON_SYMTAB_HDRSZ, UFTRACE_PYTHON_SYMTAB_SIZE in *.
    split; lia. }
  assert (Fits : forall n, strlen n = 1 -> fits n)
    by (intros n Hn; unfold fits; rewrite Hn; vm_compute; discriminate).
  destruct (alloc_step e s1 0 [] "a" true T1) as [Ea Ta];
    [apply Fits; reflexivity|apply (R _ _ _ T1); vm_compute; discriminate|].
  destruct (alloc_step e _ _ _ "b" true Ta) as [Eb Tb];
    [apply Fits; reflexivity|apply (R _ _ _ Ta); vm_compute; discriminate|].
  destruct (alloc_step e _ _ _ "c" false Tb) as [Ec Tc];
    [apply Fits; reflexivity|apply (R _ _ _ Tb); vm_compute; discriminate|].
  set (s4 := allocated "c" false _) in *.
  pose proof (tab_inv _ _ _ Tc) as I.
  destruct (write_symtab_ok e symtab_name dirname s4) as (s5 & E5 & Hfile & _);
    try assumption.
  { apply (inv_mapped _ I). }
  { pose proof (inv_offset _ I). lia. }
  { pose proof (inv_offset _ I). rewrite (inv_length _ I). lia. }
  exists s5. unfold python_symtab, bind.
  rewrite E1, Ea, Eb, Ec, E5. split; [reflexivity|].
  pose proof (tab_offset _ _ _ Tc) as Hoff. pose proof (tab_bytes _ _ _ Tc) as Hb.
  set (bs := _ ++ sym_line (0 + 1 + 1 + 1) _ _) in *.
  rewrite Hfile, (tab_count _ _ _ Tc), Hoff.
  replace (UFTRACE_PYTHON_SYMTAB_HDRSZ + blen bs - UFTRACE_PYTHON_SYMTAB_HDRSZ)
    with (blen bs) by lia.
  unfold blen. rewrite Nat2Z.id, Hb.
  reflexivity.
Qed.

Lemma abc_scenario_witness :
  exists s',
    python_symtab fair_env "python.fake" "." boot_state = Ok (1, 2, 3) s'
    /\ lookup_file (symtab_path "python.fake" ".") (files s')
       = Some (header_comment "python.fake" 3
               ++ bytes "0000000000000001 T a"  ++ [x0a]
               ++ bytes "0000000000000002 T b" ++ [x0a]
               ++ bytes "0000000000000003 t c" ++ [x0a]
               ++ bytes "0000000000000004 ? __sym_end" ++ [x0a]).
Proof.
  apply (abc_scenario fair_env "python.fake" "." boot_state).
  repeat split; vm_compute; try reflexivity; discriminate.
Defined.

(** ** The code tree *)

Ltac plia := unfold ptr in *; lia.

Lemma descending_app l1 l2 :
  descending (l1 ++ l2) <->
  descending l1 /\ descending l2
  /\ (forall p q, In p l1 -> In q l2 -> fst q < fst p).
Proof.
  induction l1 as [|x l1 IH]; simpl.
  - split; [intros H; repeat split; [exact H|intros p q []]|intros (_ & H & _); exact H].
  - rewrite Forall_app, IH. split.
    + intros ((F1 & F2) & D1 & D2 & C). repeat split; try assumption.
      intros p q [<-|Hp] Hq.
      * rewrite Forall_forall in F2. apply F2, Hq.
      * apply C; assumption.
    + intros ((F1 & D1) & D2 & C). repeat split; try assumption.
      * apply Forall_forall. intros q Hq. apply C; [left; reflexivity|exact Hq].
      * intros p q Hp Hq. apply C; [right; exact Hp|exact Hq].
Qed.

Lemma lookup_code_app c l1 l2 :
  lookup_code c (l1 ++ l2)
  = match lookup_code c l1 with Some a => Some a | None => lookup_code c l2 end.
Proof.
  induction l1 as [|[c' a] l1 IH]; simpl; [reflexivity|].
  destruct (c' =? c); [reflexivity|exact IH].
Qed.

Lemma lookup_code_absent c l :
  (forall q, In q l -> fst q <> c) -> lookup_code c l = None.
Proof.
  induction l as [|[c' a] l IH]; simpl; intros H; [reflexivity|].
  destruct (c' =? c) eqn:E.
  - apply Z.eqb_eq in E. exfalso. apply (H (c', a)); [left; reflexivity|exact E].
  - apply IH. intros q Hq. apply H. right. exact Hq.
Qed.

(** On a search tree the descent finds what the in-order list holds. *)
Lemma rb_find_inorder t c :
  descending (rb_inorder t) -> rb_find t c = lookup_code c (rb_inorder t).
Proof.
  induction t as [|l IHl k v r IHr]; simpl; intros D; [reflexivity|].
  apply descending_app in D. destruct D as (Dl & Dkr & C).
  simpl in Dkr. destruct Dkr as (Fr & Dr). rewrite Forall_forall in Fr.
  rewrite lookup_code_app. simpl.
  destruct (k =? c) eqn:E.
  - apply Z.eqb_eq in E. subst c.
    rewrite (lookup_code_absent k (rb_inorder l)); [reflexivity|].
    intros q Hq. specialize (C q (k, v) Hq (or_introl eq_refl)). simpl in C. plia.
  - apply Z.eqb_neq in E. destruct (k <? c) eqn:L.
    + apply Z.ltb_lt in L. rewrite (IHl Dl).
      destruct (lookup_code c (rb_inorder l)); [reflexivity|].
      symmetry. apply lookup_code_absent.
      intros q Hq. specialize (Fr q Hq). simpl in Fr. plia.
    + apply Z.ltb_ge in L. rewrite (IHr Dr).
      rewrite (lookup_code_absent c (rb_inorder l)); [reflexivity|].
      intros q Hq. specialize (C q (k, v) Hq (or_introl eq_refl)). simpl in C. plia.
Qed.

Lemma rb_find_link t c a : forall c',
  rb_find t c = None ->
  rb_find (rb_link t c a) c' = if c =? c' then Some a else rb_find t c'.
Proof.
  induction t as [|l IHl k v r IHr]; intros c' H; simpl in *.
  - destruct (c =? c'), (c <? c'); reflexivity.
  - destruct (k =? c) eqn:E; [discriminate|]. apply Z.eqb_neq in E.
    destruct (k <? c) eqn:L; simpl.
    + apply Z.ltb_lt in L. destruct (k =? c') eqn:E'.
      * apply Z.eqb_eq in E'. subst c'.
        replace (c =? k) with false by (symmetry; apply Z.eqb_neq; plia). reflexivity.
      * destruct (k <? c') eqn:L'; [apply IHl; exact H|].
        apply Z.ltb_ge in L'.
        replace (c =? c') with false by (symmetry; apply Z.eqb_neq; plia). reflexivity.
    + apply Z.ltb_ge in L. destruct (k =? c') eqn:E'.
      * apply Z.eqb_eq in E'. subst c'.
        replace (c =? k) with false by (symmetry; apply Z.eqb_neq; plia). reflexivity.
      * destruct (k <? c') eqn:L'; [|apply IHr; exact H].
        apply Z.ltb_lt in L'.
        replace (c =? c') with false by (symmetry; apply Z.eqb_neq; plia). reflexivity.
Qed.

Lemma rb_link_inorder t c a :
  descending (rb_inorder t) -> rb_find t c = None ->
  descending (rb_inorder (rb_link t c a))
  /\ (forall p, In p (rb_inorder (rb_link t c a)) <-> p = (c, a) \/ In p (rb_inorder t)).
Proof.
  induction t as [|l IHl k v r IHr]; simpl; intros D H.
  - split; [split; [constructor|exact I]|]. intros p. intuition congruence.
  - destruct (k =? c) eqn:E; [discriminate|]. apply Z.eqb_neq in E.
    apply descending_app in D. destruct D as (Dl & Dkr & C).
    pose proof Dkr as Dkr'. simpl in Dkr'. destruct Dkr' as (Fr & Dr).
    rewrite Forall_forall in Fr.
    destruct (k <? c) eqn:L; simpl.
    + apply Z.ltb_lt in L. destruct (IHl Dl H) as (D' & I').
      split.
      * apply descending_app. split; [exact D'|split; [exact Dkr|]].
        intros p q Hp Hq. apply I' in Hp. destruct Hp as [->|Hp]; [|apply C; assumption].
        simpl. destruct Hq as [<-|Hq]; [exact L|]. specialize (Fr q Hq). simpl in Fr. plia.
      * intros p. rewrite !in_app_iff, I'. simpl. tauto.
    + apply Z.ltb_ge in L. destruct (IHr Dr H) as (D' & I').
      split.
      * apply descending_app. split; [exact Dl|split].
        -- simpl. split; [|exact D'].
           apply Forall_forall. intros q Hq. apply I' in Hq.
           destruct Hq as [->|Hq]; [simpl; lia|apply Fr, Hq].
        -- intros p q Hp Hq. destruct Hq as [<-|Hq];
             [apply C; [exact Hp|left; reflexivity]|].
           apply I' in Hq. destruct Hq as [->|Hq]; [|apply C; [exact Hp|right; exact Hq]].
           specialize (C p (k, v) Hp (or_introl eq_refl)). simpl in *. plia.
      * intros p. rewrite !in_app_iff. simpl. rewrite I'. tauto.
Qed.

Section CodeTree.

Variable rb_insert_color : rb_tree -> rb_tree.

(** Recolouring and rotating keep the nodes in their order. *)
Hypothesis rb_insert_color_inorder :
  forall t, rb_inorder (rb_insert_color t) = rb_inorder t.

Lemma rb_find_insert t c a c' :
  descending (rb_inorder t) -> rb_find t c = None ->
  rb_find (rb_insert_color (rb_link t c a)) c'
  = if c =? c' then Some a else rb_find t c'.
Proof.
  intros D H. destruct (rb_link_inorder t c a D H) as (D' & _).
  rewrite rb_find_inorder by (rewrite rb_insert_color_inorder; exact D').
  rewrite rb_insert_color_inorder, <- rb_find_inorder by exact D'.
  apply rb_find_link. exact H.
Qed.

Lemma rb_insert_descending t c a :
  descending (rb_inorder t) -> rb_find t c = None ->
  descending (rb_inorder (rb_insert_color (rb_link t c a))).
Proof.
  intros D H. rewrite rb_insert_color_inorder. apply (rb_link_inorder t c a D H).
Qed.

End CodeTree.

(** ** Computations that only read *)

Lemma pure_ret {A} (a : A) : pure (ret a).
Proof. intros s. left. exists a. reflexivity. Qed.

Lemma pure_fault {A} : pure (@fault A).
Proof. intros s. right. reflexivity. Qed.

Lemma pure_bind {A B} (m : M A) (k : A -> M B) :
  pure m -> (forall a, pure (k a)) -> pure (bind m k).
Proof.
  intros Hm Hk s. unfold bind. destruct (Hm s) as [[a E]|E]; rewrite E.
  - apply Hk.
  - right. reflexivity.
Qed.

Lemma pure_if {A} (b : bool) (m1 m2 : M A) : pure m1 -> pure m2 -> pure (if b then m1 else m2).
Proof. destruct b; auto. Qed.

Lemma pure_get_c_string h o : pure (get_c_string h o).
Proof.
  unfold get_c_string. apply pure_if; [apply pure_fault|].
  destruct (ob_type (h o)); apply pure_ret.
Qed.

Lemma pure_deref o : pure (deref o).
Proof. destruct o; [apply pure_ret|apply pure_fault]. Qed.

Ltac pure_steps :=
  repeat first
    [ apply pure_ret | apply pure_fault | apply pure_get_c_string | apply pure_deref
    | apply pure_bind; [|intros ?] | apply pure_if
    | match goal with |- pure (match ?x with _ => _ end) => destruct x end ].

Lemma pure_get_python_funcname h frame code : pure (get_python_funcname h frame code).
Proof. unfold get_python_funcname. pure_steps. Qed.

Lemma pure_get_c_funcname h frame code : pure (get_c_funcname h frame code).
Proof. unfold get_c_funcname. pure_steps. Qed.

Lemma pure_ok {A} (m : M A) s a s' : pure m -> m s = Ok a s' -> s' = s.
Proof.
  intros P E. destruct (P s) as [[a' E']|E']; rewrite E' in E; [|discriminate].
  injection E as _ E. symmetry. exact E.
Qed.

(** ** What an allocation leaves alone *)

Lemma get_new_sym_addr_frame e name k s a s' :
  get_new_sym_addr e name k s = Ok a s' ->
  adp s' = adp s /\ hook_log s' = hook_log s /\ files s' = files s
  /\ warn_log s' = warn_log s /\ debug s' = debug s.
Proof.
  unfold get_new_sym_addr, write_sym, grow_symtab, cas_loop, cas, store_at, ftruncate,
    map_pages, bind, guard_mapped, get, modify, ret, pr_err, hang.
  repeat match goal with
         | |- context [if ?b then _ else _] => destruct b
         end;
    intros H; try discriminate; injection H as _ H; subst s'; repeat split.
Qed.

(** ** Resolving a code object *)

Section Resolve.

Variable e : os_env.

Variable h : heap.

Variable rb_insert_color : rb_tree -> rb_tree.

Hypothesis rb_insert_color_inorder :
  forall t, rb_inorder (rb_insert_color t) = rb_inorder t.

Lemma pure_funcname frame code k : pure (funcname h frame code k).
Proof.
  unfold funcname. destruct k; [apply pure_get_python_funcname|apply pure_get_c_funcname].
Qed.

Local Abbreviation convert := (convert_function_addr e h rb_insert_color).

Lemma convert_no_code frame args k s :
  PyObject_GetAttrString h frame "f_code" = NULL ->
  convert frame args k s = Ok 0 s.
Proof.
  intros H. unfold convert_function_addr. rewrite H. reflexivity.
Qed.

Lemma convert_hit frame args k s a :
  PyObject_GetAttrString h frame "f_code" <> NULL ->
  issued s (code_of h frame args k) a ->
  convert frame args k s = Ok a s.
Proof.
  intros Hc Hi. unfold issued, code_of in Hi. unfold convert_function_addr.
  apply Z.eqb_neq in Hc. rewrite Hc in *.
  unfold bind, get. rewrite Hi. reflexivity.
Qed.

Lemma convert_no_name frame args k s :
  PyObject_GetAttrString h frame "f_code" <> NULL ->
  rb_find (code_tree (adp s)) (code_of h frame args k) = None ->
  funcname h frame (code_of h frame args k) k s = Ok None s ->
  convert frame args k s = Ok 0 s.
Proof.
  intros Hc Hm Hn. unfold code_of, funcname in *. unfold convert_function_addr.
  apply Z.eqb_neq in Hc. rewrite Hc in *.
  unfold bind at 1. unfold get. rewrite Hm.
  unfold bind. destruct k; rewrite Hn; reflexivity.
Qed.

(** Every way a call can return. *)
Lemma convert_cases frame args k s a s' :
  convert frame args k s = Ok a s' ->
  let c := code_of h frame args k in
  (PyObject_GetAttrString h frame "f_code" = NULL /\ a = 0 /\ s' = s)
  \/ (PyObject_GetAttrString h frame "f_code" <> NULL /\ issued s c a /\ s' = s)
  \/ (PyObject_GetAttrString h frame "f_code" <> NULL
      /\ rb_find (code_tree (adp s)) c = None
      /\ funcname h frame c k s = Ok None s /\ a = 0 /\ s' = s)
  \/ (PyObject_GetAttrString h frame "f_code" <> NULL
      /\ rb_find (code_tree (adp s)) c = None
      /\ exists name s1,
           funcname h frame c k s = Ok (Some name) s
           /\ get_new_sym_addr e name k s = Ok a s1
           /\ s' = set_adp (adp_tree (rb_insert_color (rb_link (code_tree (adp s1)) c a))) s1).
Proof.
  intros H c. unfold convert_function_addr in H. unfold c, code_of, issued.
  destruct (PyObject_GetAttrString h frame "f_code" =? NULL) eqn:Hc.
  - apply Z.eqb_eq in Hc. left. injection H as <- <-. auto.
  - apply Z.eqb_neq in Hc. right.
    set (code := if k then PyObject_GetAttrString h frame "f_code" else args) in *.
    unfold bind at 1 in H. unfold get in H.
    destruct (rb_find (code_tree (adp s)) code) as [a0|] eqn:Hf.
    + left. injection H as <- <-. auto.
    + right. unfold bind at 1 in H.
      fold (funcname h frame code k) in H.
      destruct (pure_funcname frame code k s) as [[n En]|En]; rewrite En in H;
        [|discriminate].
      destruct n as [name|].
      * right. split; [exact Hc|]. split; [reflexivity|].
        unfold bind, modify, ret in H.
        destruct (get_new_sym_addr e name k s) as [a1 s1| | |] eqn:Ea; try discriminate.
        injection H as <- <-.
        exists name, s1. auto.
      * left. injection H as <- <-. auto.
Qed.

Lemma convert_stable frame args k s a s' :
  cache_ok s ->
  convert frame args k s = Ok a s' ->
  cache_ok s'
  /\ (forall c0 a0, issued s c0 a0 -> issued s' c0 a0)
  /\ (issued s' (code_of h frame args k) a \/ (a = 0 /\ s' = s)).
Proof.
  intros Hok H. apply convert_cases in H.
  destruct H as [(_ & -> & ->)|[(_ & Hi & ->)|[(_ & _ & _ & -> & ->)
                |(_ & Hm & name & s1 & _ & Ea & ->)]]]; auto.
  apply get_new_sym_addr_frame in Ea. destruct Ea as (Ha & _).
  unfold cache_ok, issued in *. cbn [adp set_adp code_tree adp_tree]. rewrite Ha.
  split; [|split].
  - apply rb_insert_descending; assumption.
  - intros c0 a0 H0. rewrite rb_find_insert by assumption.
    destruct (code_of h frame args k =? c0) eqn:E; [|exact H0].
    apply Z.eqb_eq in E. rewrite E in Hm. rewrite Hm in H0. discriminate.
  - left. rewrite rb_find_insert by assumption. rewrite Z.eqb_refl. reflexivity.
Qed.

Local Abbreviation trace := (uftrace_trace_python e h rb_insert_color).

Lemma trace_stable args s r s' :
  cache_ok s ->
  trace args s = Ok r s' ->
  cache_ok s' /\ (forall c0 a0, issued s c0 a0 -> issued s' c0 a0).
Proof.
  intros Hok H. unfold uftrace_trace_python in H.
  destruct args as [[[frame event] args_tuple]|];
    [|injection H as _ <-; auto].
  unfold bind at 1 in H. unfold get in H. unfold bind at 1 in H.
  set (s1 := if first_frame (adp s) =? NULL then set_adp (adp_first_frame frame) s else s)
    in *.
  assert (E1 : (if first_frame (adp s) =? NULL
                then modify (set_adp (adp_first_frame frame)) else ret tt) s = Ok tt s1)
    by (unfold s1; destruct (first_frame (adp s) =? NULL); reflexivity).
  rewrite E1 in H.
  assert (T1 : code_tree (adp s1) = code_tree (adp s))
    by (unfold s1; destruct (first_frame (adp s) =? NULL); reflexivity).
  assert (Hok1 : cache_ok s1) by (unfold cache_ok; rewrite T1; exact Hok).
  assert (Hi1 : forall c0 a0, issued s c0 a0 -> issued s1 c0 a0)
    by (unfold issued; rewrite T1; auto).
  unfold bind at 1 in H. unfold get in H.
  destruct (skip_first_frame (adp s1) && (frame =? first_frame (adp s1)));
    [injection H as _ <-; auto|].
  unfold trace_event in H. unfold bind at 1 in H.
  assert (Hlog : forall hc t, cache_ok t -> cache_ok (log_hook hc t)) by (intros; assumption).
  destruct (streq event "call" || streq event "c_call").
  - unfold bind at 1 in H.
    destruct (convert frame args_tuple (streq event "call") s1) as [a s2| | |] eqn:Ec;
      try discriminate.
    destruct (convert_stable _ _ _ _ _ _ Hok1 Ec) as (Hok2 & Hi2 & _).
    unfold call_enter, get_trace_function in H.
    destruct (cygprof_enter (adp s2) =? NULL); [discriminate|].
    cbn [adp log_hook] in H.
    destruct (trace_func (adp s2)); injection H as _ <-;
      (split; [exact Hok2|intros c0 a0 H0; apply Hi2, Hi1, H0]).
  - unfold call_exit, get_trace_function, ret in H.
    destruct (streq event "return" || streq event "c_return");
      [|destruct (streq event "c_exception")];
      try (destruct (cygprof_exit (adp s1) =? NULL); [discriminate|]);
      cbn [adp log_hook] in H;
      destruct (trace_func (adp s1)); injection H as _ <-;
      (split; [exact Hok1|intros c0 a0 H0; apply Hi1, H0]).
Qed.

Lemma later_stable s s' :
  later e h rb_insert_color s s' -> cache_ok s ->
  cache_ok s' /\ (forall c0 a0, issued s c0 a0 -> issued s' c0 a0).
Proof.
  induction 1 as [s|s s1 s2 frame args k a L IH E|s s1 s2 a L IH E|s s1 s2 args r L IH E];
    intros Hok.
  - auto.
  - destruct (IH Hok) as (Hok1 & Hi1).
    destruct (convert_stable _ _ _ _ _ _ Hok1 E) as (Hok2 & Hi2 & _). auto.
  - destruct (IH Hok) as (Hok1 & Hi1).
    unfold call_enter in E. destruct (cygprof_enter (adp s1) =? NULL); [discriminate|].
    injection E as <-. auto.
  - destruct (IH Hok) as (Hok1 & Hi1).
    destruct (trace_stable _ _ _ _ Hok1 E) as (Hok2 & Hi2). auto.
Qed.

End Resolve.

(** ** C3 *)

(** C3: once a resolution has given code object [c] an address [a1],
    every later resolution of [c] in the same process, whatever was
    resolved or traced in between, returns [a1] again and leaves the
    whole state, the shared table with its count and offset included, as
    it was. *)
Theorem resolve_again_same_address e h rb_insert_color
    s f1 x1 k1 a1 s1 s2 f2 x2 k2 :
  (forall t, rb_inorder (rb_insert_color t) = rb_inorder t) ->
  cache_ok s ->
  convert_function_addr e h rb_insert_color f1 x1 k1 s = Ok a1 s1 ->
  a1 <> 0 ->
  later e h rb_insert_color s1 s2 ->
  code_of h f2 x2 k2 = code_of h f1 x1 k1 ->
  PyObject_GetAttrString h f2 "f_code" <> NULL ->
  convert_function_addr e h rb_insert_color f2 x2 k2 s2 = Ok a1 s2.
Proof.
  intros Hrb Hok E1 Ha L Hc Hf.
  destruct (convert_stable e h rb_insert_color Hrb _ _ _ _ _ _ Hok E1) as (Hok1 & _ & Hi).
  destruct Hi as [Hi|[Hz _]]; [|contradiction].
  destruct (later_stable e h rb_insert_color Hrb _ _ L Hok1) as (_ & Hi2).
  apply convert_hit; [exact Hf|]. rewrite Hc. apply Hi2, Hi.
Qed.

Lemma resolve_again_witness :
  convert_function_addr fair_env demo_heap keep_shape 150 0 true after_len
  = Ok 1 after_len.
Proof.
  apply (resolve_again_same_address fair_env demo_heap keep_shape
           active 100 0 true 1 after_foo after_len 150 0 true).
  - intros t. reflexivity.
  - exact I.
  - reflexivity.
  - discriminate.
  - apply (later_resolve fair_env demo_heap keep_shape after_foo after_foo after_len
             400 500 false 2); [apply later_refl|reflexivity].
  - reflexivity.
  - discriminate.
Defined.

(** ** The trace callback *)

Lemma trace_unfold e h rbc frame event x s :
  uftrace_trace_python e h rbc (Some (frame, event, x)) s
  = if skipped frame s then Ok Py_None (seen frame s)
    else trace_event e h rbc frame event x (seen frame s).
Proof.
  unfold uftrace_trace_python, skipped, seen, bind, get, modify, ret.
  destruct (first_frame (adp s) =? NULL);
    match goal with |- context [if ?b then _ else _] => destruct b end; reflexivity.
Qed.

Lemma trace_event_enter e h rbc frame event x s a s' :
  is_enter event = true ->
  convert_function_addr e h rbc frame x (streq event "call") s = Ok a s' ->
  cygprof_enter (adp s') <> NULL ->
  trace_event e h rbc frame event x s = Ok (handle_of s') (log_hook (Enter a 0) s').
Proof.
  intros He Ec Hh. unfold trace_event, is_enter in *. rewrite He.
  unfold bind. rewrite Ec. unfold call_enter.
  apply Z.eqb_neq in Hh. rewrite Hh.
  unfold get_trace_function, handle_of. cbn [adp log_hook].
  destruct (trace_func (adp s')); reflexivity.
Qed.

(** A resolution changes nothing of the adapter but the code tree. *)
Lemma convert_keeps_adapter e h rbc frame x k s a s' :
  convert_function_addr e h rbc frame x k s = Ok a s' ->
  handle_of s' = handle_of s
  /\ cygprof_enter (adp s') = cygprof_enter (adp s)
  /\ first_frame (adp s') = first_frame (adp s)
  /\ skip_first_frame (adp s') = skip_first_frame (adp s).
Proof.
  intros H. apply convert_cases in H.
  destruct H as [(_ & _ & ->)|[(_ & _ & ->)|[(_ & _ & _ & _ & ->)
                |(_ & _ & name & s1 & _ & Ea & ->)]]]; auto.
  apply get_new_sym_addr_frame in Ea. destruct Ea as (Ha & _).
  unfold handle_of.
  cbn [adp set_adp adp_tree trace_func cygprof_enter first_frame skip_first_frame].
  rewrite Ha. auto.
Qed.

(** Once recorded, the root frame stays, and so does the skip flag. *)
Lemma trace_keeps_root e h rbc args s r s' :
  uftrace_trace_python e h rbc args s = Ok r s' ->
  first_frame (adp s) <> NULL ->
  first_frame (adp s') = first_frame (adp s)
  /\ skip_first_frame (adp s') = skip_first_frame (adp s).
Proof.
  intros H Hf. destruct args as [[[frame event] x]|];
    [|injection H as _ <-; auto].
  rewrite trace_unfold in H.
  assert (Hseen : seen frame s = s)
    by (unfold seen; apply Z.eqb_neq in Hf; rewrite Hf; reflexivity).
  rewrite Hseen in H.
  destruct (skipped frame s); [injection H as _ <-; auto|].
  unfold trace_event in H. unfold bind at 1 in H.
  destruct (streq event "call" || streq event "c_call").
  - unfold bind at 1 in H.
    destruct (convert_function_addr e h rbc frame x (streq event "call") s)
      as [a s1| | |] eqn:Ec; try discriminate.
    destruct (convert_keeps_adapter _ _ _ _ _ _ _ _ _ Ec) as (_ & _ & H1 & H2).
    unfold call_enter, get_trace_function in H.
    destruct (cygprof_enter (adp s1) =? NULL); [discriminate|].
    cbn [adp log_hook] in H.
    destruct (trace_func (adp s1)); injection H as _ <-; auto.
  - unfold call_exit, get_trace_function, ret in H.
    destruct (streq event "return" || streq event "c_return");
      [|destruct (streq event "c_exception")];
      try (destruct (cygprof_exit (adp s) =? NULL); [discriminate|]);
      cbn [adp log_hook] in H;
      destruct (trace_func (adp s)); injection H as _ <-; auto.
Qed.

Lemma later_keeps_root e h rbc s s' :
  later e h rbc s s' ->
  first_frame (adp s) <> NULL ->
  first_frame (adp s') = first_frame (adp s)
  /\ skip_first_frame (adp s') = skip_first_frame (adp s).
Proof.
  induction 1 as [s|s s1 s2 frame args k a L IH E|s s1 s2 a L IH E|s s1 s2 args r L IH E];
    intros Hf.
  - auto.
  - destruct (IH Hf) as (H1 & H2).
    destruct (convert_keeps_adapter _ _ _ _ _ _ _ _ _ E) as (_ & _ & H3 & H4).
    rewrite H3, H4. auto.
  - destruct (IH Hf) as (H1 & H2).
    unfold call_enter in E. destruct (cygprof_enter (adp s1) =? NULL); [discriminate|].
    injection E as <-. auto.
  - destruct (IH Hf) as (H1 & H2).
    destruct (trace_keeps_root _ _ _ _ _ _ _ E) as (H3 & H4); [rewrite H1; exact Hf|].
    rewrite H3, H4. auto.
Qed.

(** ** C4 *)

(** C4 (as amended): for an enter event that is not dropped by the
    root-frame check and whose name cannot be computed, the callback
    leaves the table and the cache as they are, but it does call the
    enter hook, with address 0, and returns the trace function; nothing
    else changes, so later events are traced as before. *)
Theorem unnamed_enter_passes_zero e h rbc frame event x s :
  is_enter event = true ->
  skipped frame s = false ->
  unnamed h frame x (streq event "call") (seen frame s) ->
  cygprof_enter (adp s) <> NULL ->
  uftrace_trace_python e h rbc (Some (frame, event, x)) s
  = Ok (handle_of s) (log_hook (Enter 0 0) (seen frame s)).
Proof.
  intros He Hs Hu Hh. rewrite trace_unfold, Hs.
  assert (Hh' : cygprof_enter (adp (seen frame s)) <> NULL)
    by (unfold seen; destruct (first_frame (adp s) =? NULL); exact Hh).
  assert (Ht : handle_of (seen frame s) = handle_of s)
    by (unfold seen; destruct (first_frame (adp s) =? NULL); reflexivity).
  rewrite <- Ht. apply trace_event_enter; [exact He| |exact Hh'].
  destruct Hu as [Hn|(Hc & Hm & Hn)].
  - apply convert_no_code, Hn.
  - apply convert_no_name; assumption.
Qed.

Lemma unnamed_enter_witness :
  uftrace_trace_python fair_env demo_heap keep_shape (Some (600, "call"%string, 0)) active
  = Ok (handle_of active) (log_hook (Enter 0 0) (seen 600 active)).
Proof.
  apply (unnamed_enter_passes_zero fair_env demo_heap keep_shape 600 "call" 0 active).
  - reflexivity.
  - reflexivity.
  - right. split; [discriminate|split; reflexivity].
  - discriminate.
Defined.

(** C4, as first stated, fails: frame 600 runs a code object without a
    name; the table and the cache stay as they are, yet the enter hook is
    called. *)
Lemma unnamed_enter_invokes_hook :
  funcname demo_heap 600 610 true active = Ok None active
  /\ exists r s',
       uftrace_trace_python fair_env demo_heap keep_shape
         (Some (600, "call"%string, 0)) active = Ok r s'
       /\ seg s' = seg active
       /\ code_tree (adp s') = code_tree (adp active)
       /\ hook_log active = []
       /\ hook_log s' = [Enter 0 0].
Proof.
  split; [reflexivity|].
  eexists. eexists. split; [reflexivity|]. repeat split.
Qed.

(** ** C7 *)

(** C7: with root-frame skipping enabled, the first event records its
    frame and returns without any hook call or cache change; from then
    on, whatever the process traces or resolves in between, an event on
    that frame changes nothing at all, and an event on any other frame
    goes through the event dispatch: if it is an enter event whose code
    object resolves to [a], the enter hook is called with [a]. *)
Theorem root_frame_is_skipped e h rbc s frame event x :
  skip_first_frame (adp s) = true ->
  first_frame (adp s) = NULL ->
  frame <> NULL ->
  let s1 := set_adp (adp_first_frame frame) s in
  uftrace_trace_python e h rbc (Some (frame, event, x)) s = Ok Py_None s1
  /\ hook_log s1 = hook_log s
  /\ code_tree (adp s1) = code_tree (adp s)
  /\ forall s' frame' event' x',
       later e h rbc s1 s' ->
       (frame' = frame ->
        uftrace_trace_python e h rbc (Some (frame', event', x')) s' = Ok Py_None s')
       /\ (frame' <> frame ->
           uftrace_trace_python e h rbc (Some (frame', event', x')) s'
           = trace_event e h rbc frame' event' x' s'
           /\ forall a s'',
                is_enter event' = true ->
                convert_function_addr e h rbc frame' x' (streq event' "call") s' = Ok a s'' ->
                cygprof_enter (adp s'') <> NULL ->
                uftrace_trace_python e h rbc (Some (frame', event', x')) s'
                = Ok (handle_of s'') (log_hook (Enter a 0) s'')).
Proof.
  intros Hskip Hfirst Hframe s1.
  split; [|split; [reflexivity|split; [reflexivity|]]].
  - rewrite trace_unfold. unfold skipped, seen. rewrite Hfirst.
    cbn [Z.eqb NULL adp set_adp adp_first_frame skip_first_frame first_frame].
    rewrite Hskip, Z.eqb_refl. reflexivity.
  - intros s' frame' event' x' L.
    destruct (later_keeps_root e h rbc s1 s' L) as (Hfirst' & Hskip'); [exact Hframe|].
    cbn [s1 adp set_adp adp_first_frame first_frame skip_first_frame] in Hfirst', Hskip'.
    rewrite Hskip in Hskip'.
    assert (Hseen : seen frame' s' = s').
    { unfold seen. rewrite Hfirst'.
      destruct (frame =? NULL) eqn:E; [apply Z.eqb_eq in E; contradiction|reflexivity]. }
    split.
    + intros ->. rewrite trace_unfold. unfold skipped. rewrite Hseen, Hskip', Hfirst'.
      rewrite Z.eqb_refl. reflexivity.
    + intros Hne.
      assert (Hns : skipped frame' s' = false).
      { unfold skipped. rewrite Hseen, Hskip', Hfirst'.
        apply Z.eqb_neq in Hne. rewrite Hne. reflexivity. }
      rewrite trace_unfold, Hns, Hseen. split; [reflexivity|].
      intros a s'' He Ec Hh. apply trace_event_enter; assumption.
Qed.

Lemma root_frame_witness :
  uftrace_trace_python fair_env demo_heap keep_shape (Some (900, "call"%string, 0)) loaded
  = Ok Py_None (set_adp (adp_first_frame 900) loaded).
Proof.
  apply (proj1 (root_frame_is_skipped fair_env demo_heap keep_shape loaded 900 "call" 0
                  eq_refl eq_refl ltac:(discriminate))).
Defined.

(** ** C8 *)

Lemma trace_event_handle e h rbc frame event x s r s' :
  trace_event e h rbc frame event x s = Ok r s' -> r = handle_of s.
Proof.
  unfold trace_event. unfold bind at 1.
  destruct (streq event "call" || streq event "c_call").
  - unfold bind at 1.
    destruct (convert_function_addr e h rbc frame x (streq event "call") s)
      as [a s1| | |] eqn:Ec; try discriminate.
    destruct (convert_keeps_adapter _ _ _ _ _ _ _ _ _ Ec) as (Hh & _).
    unfold call_enter. destruct (cygprof_enter (adp s1) =? NULL); [discriminate|].
    unfold get_trace_function. rewrite <- Hh. unfold handle_of. cbn [adp log_hook].
    destruct (trace_func (adp s1)); intros H; injection H as <- _; reflexivity.
  - unfold call_exit, get_trace_function, handle_of, ret.
    destruct (streq event "return" || streq event "c_return");
      [|destruct (streq event "c_exception")];
      try (destruct (cygprof_exit (adp s) =? NULL); [discriminate|]);
      cbn [adp log_hook];
      destruct (trace_func (adp s)); intros H; injection H as <- _; reflexivity.
Qed.

(** An exit or exception event that is not skipped always returns the
    handle, once the exit hook is resolved. *)
Lemma exit_event_returns_handle e h rbc frame event x s :
  (streq event "return" || streq event "c_return" || streq event "c_exception") = true ->
  is_enter event = false ->
  cygprof_exit (adp s) <> NULL ->
  trace_event e h rbc frame event x s = Ok (handle_of s) (log_hook (Exit 0 0) s).
Proof.
  intros He Hn Hh. unfold trace_event, is_enter in *. rewrite Hn.
  unfold bind, call_exit, get_trace_function, handle_of.
  apply Z.eqb_neq in Hh.
  destruct (streq event "return" || streq event "c_return"); simpl in He.
  - rewrite Hh. cbn [adp log_hook]. destruct (trace_func (adp s)); reflexivity.
  - rewrite He, Hh. cbn [adp log_hook]. destruct (trace_func (adp s)); reflexivity.
Qed.

(** C8 (as amended): the callback returns the trace function object
    held in the module state for every event it dispatches; for an event
    it drops at the root-frame check, and for arguments it cannot parse,
    it returns [None]. *)
Theorem trace_returns_handle_unless_skipped e h rbc args s :
  match args with
  | None => uftrace_trace_python e h rbc None s = Ok Py_None s
  | Some (frame, event, x) =>
      if skipped frame s
      then uftrace_trace_python e h rbc args s = Ok Py_None (seen frame s)
      else uftrace_trace_python e h rbc args s
           = trace_event e h rbc frame event x (seen frame s)
           /\ forall r s',
                uftrace_trace_python e h rbc args s = Ok r s' -> r = handle_of s
  end.
Proof.
  destruct args as [[[frame event] x]|]; [|reflexivity].
  rewrite trace_unfold. destruct (skipped frame s); [reflexivity|].
  split; [reflexivity|].
  intros r s' H. apply trace_event_handle in H. rewrite H.
  unfold handle_of, seen. destruct (first_frame (adp s) =? NULL); reflexivity.
Qed.

Lemma trace_returns_handle_witness :
  uftrace_trace_python fair_env demo_heap keep_shape (Some (100, "call"%string, 0)) active
  = trace_event fair_env demo_heap keep_shape 100 "call" 0 (seen 100 active)
  /\ Py_Object 7000 = handle_of active.
Proof.
  pose proof (trace_returns_handle_unless_skipped fair_env demo_heap keep_shape
                (Some (100, "call"%string, 0)) active) as H.
  change (skipped 100 active) with false in H. cbv iota in H.
  destruct H as [H1 H2]. split; [exact H1|].
  apply (H2 (Py_Object 7000)
            (final_state (uftrace_trace_python fair_env demo_heap keep_shape
                            (Some (100, "call"%string, 0)) active))).
  reflexivity.
Defined.

(** C8, as first stated, fails: the very first event, on the root
    frame, is answered with [None] although the module holds its trace
    function. *)
Lemma skipped_event_returns_none :
  trace_func (adp loaded) = Some 7000
  /\ uftrace_trace_python fair_env demo_heap keep_shape (Some (900, "call"%string, 0)) loaded
     = Ok Py_None active.
Proof. split; reflexivity. Qed.

(** ** C5 *)

(** When the file cannot be opened, [write_symtab] warns and returns at
    once: the state is otherwise untouched. *)
Lemma write_symtab_open_failure e symtab_name dirname s :
  fopen_ok e (symtab_path symtab_name dirname) = false ->
  write_symtab e symtab_name dirname s = Ok tt (pr_warn WarnOpenFailed s).
Proof.
  intros H. unfold write_symtab, bind, fopen_w. rewrite H. reflexivity.
Qed.

(** C5 (the code departs from it): when the file cannot be opened,
    [write_symtab] returns after its warning with the mapping, the
    descriptor and the segment name all still in place; when [fwrite]
    writes nothing, the copy loop never ends, again with nothing
    released.  Only when the file is written does the release happen. *)
Theorem finalize_skips_release_on_failure :
  (exists s',
     write_symtab no_open_env "python.fake" "." one_entry = Ok tt s'
     /\ warn_log s' = [WarnOpenFailed]
     /\ symtab (map_ s') = true
     /\ uftrace_shmem_fd (map_ s') = true
     /\ shm_linked (seg s') = true)
  /\ (exists s',
        write_symtab no_write_env "python.fake" "." one_entry = Hang s'
        /\ symtab (map_ s') = true
        /\ uftrace_shmem_fd (map_ s') = true
        /\ shm_linked (seg s') = true)
  /\ (exists s',
        write_symtab fair_env "python.fake" "." one_entry = Ok tt s'
        /\ symtab (map_ s') = false
        /\ uftrace_shmem_fd (map_ s') = false
        /\ shm_linked (seg s') = false).
Proof.
  split; [|split].
  - exists (pr_warn WarnOpenFailed one_entry).
    split; [apply write_symtab_open_failure; reflexivity|repeat split].
  - destruct (write_symtab_write_failure no_write_env "python.fake" "." one_entry)
      as (s' & E & Hseg & Hmap); try reflexivity.
    + discriminate.
    + discriminate.
    + exists s'. rewrite Hseg, Hmap. split; [exact E|repeat split].
  - destruct (write_symtab_ok fair_env "python.fake" "." one_entry)
      as (s' & E & _ & H1 & H2 & H3 & _); try reflexivity.
    + split; discriminate.
    + discriminate.
    + split; reflexivity.
    + exists s'. auto.
Qed.

(** ** C9 *)

Lemma init_uftrace_gated e s :
  env_UFTRACE_SHMEM e = false -> init_uftrace e s = Ok tt s.
Proof. intros H. unfold init_uftrace. rewrite H. reflexivity. Qed.

(** With no table mapped, [write_symtab] still opens the file, then
    reads [symtab->count] through the null pointer. *)
Lemma write_symtab_unmapped e symtab_name dirname s :
  symtab (map_ s) = false ->
  fopen_ok e (symtab_path symtab_name dirname) = true ->
  write_symtab e symtab_name dirname s
  = Fault (set_files (update_file (symtab_path symtab_name dirname) [] (files s)) s).
Proof.
  intros Hm Hf. unfold write_symtab, fopen_w, bind, get.
  rewrite Hf. cbn [negb debug set_files].
  unfold guard_mapped, ret.
  destruct (debug s); cbn [map_ set_files]; rewrite Hm; reflexivity.
Qed.

(** C9 (the code departs from it): without the variable, initialisation
    indeed creates no segment and resolves no hook; but the destructor
    is not gated: it opens the symbol file for writing, which creates it,
    and then reads the count through the null table pointer.  Where the
    output directory is missing it warns instead. *)
Theorem finish_runs_without_session :
  PyInit_uftrace_python plain_env 7000 boot_state = Ok tt loaded_plain
  /\ seg loaded_plain = seg boot_state
  /\ symtab (map_ loaded_plain) = false
  /\ cygprof_enter (adp loaded_plain) = NULL
  /\ cygprof_exit (adp loaded_plain) = NULL
  /\ files loaded_plain = []
  /\ warn_log loaded_plain = []
  /\ (exists s',
        uftrace_trace_python_finish plain_env "python.fake" "uftrace.data" loaded_plain
        = Fault s'
        /\ files s' = [("uftrace.data/python.fake.sym"%string, [])])
  /\ (exists s',
        uftrace_trace_python_finish plain_env_no_dir "python.fake" "uftrace.data"
          loaded_plain = Ok tt s'
        /\ warn_log s' = [WarnOpenFailed]).
Proof.
  repeat (split; [reflexivity|]). split.
  - eexists. split.
    + unfold uftrace_trace_python_finish. apply write_symtab_unmapped; reflexivity.
    + reflexivity.
  - eexists. split.
    + unfold uftrace_trace_python_finish. apply write_symtab_open_failure. reflexivity.
    + reflexivity.
Qed.

(** ** Several processes on one segment *)

(** A process alone goes through the three steps to what
    [get_new_sym_addr] computes. *)
Lemma solo_steps_agree e g m name k :
  symtab m = true ->
  let w := run e [0; 0; 0]%nat
             {| w_seg := g; w_procs := [{| p_map := m; p_pc := Start name k |}];
                w_log := [] |} in
  match get_new_sym_addr e name k (view g m) with
  | Ok a s' =>
      w_seg w = seg s'
      /\ exists old_hdr new_hdr,
           w_procs w = [{| p_map := map_ s'; p_pc := Returned old_hdr new_hdr |}]
           /\ hdr_count new_hdr = a
  | Fatal s' | Fault s' | Hang s' =>
      w_seg w = seg s' /\ w_procs w = [{| p_map := map_ s'; p_pc := Crashed |}]
  end.
Proof.
  intros Hm w.
  rewrite get_new_sym_addr_unfold by exact Hm.
  unfold w, run, schedule, step, cas. cbn [fold_left nth_error w_procs w_seg p_pc p_map set_nth].
  rewrite Hm.
  cbn [fold_left nth_error w_procs w_seg p_pc p_map set_nth val seg view set_seg set_map].
  rewrite Z.eqb_refl.
  cbn [fold_left nth_error w_procs w_seg p_pc p_map set_nth val seg view set_seg set_map
       seg_val].
  set (new_hdr := next_hdr (val g) (entry_size_of name)).
  change (view (seg_val new_hdr g) m) with (set_seg (seg_val new_hdr) (view g m)).
  destruct (write_sym e (val g) new_hdr name k (set_seg (seg_val new_hdr) (view g m)))
    as [a s'| s' | s' | s'] eqn:E; cbn [w_seg w_procs]; try (split; reflexivity).
  split; [reflexivity|]. exists (val g), new_hdr. split; [reflexivity|].
  unfold write_sym, bind, get, ret in E.
  repeat match type of E with
         | context [match ?x with _ => _ end] => destruct x; try discriminate
         end.
  injection E as <- _. reflexivity.
Qed.

(** ** What the swaps hand out *)

Lemma wrap32_add_int32 a z : wrap32 (a + int32 z) = wrap32 (a + z).
Proof.
  unfold wrap32, int32.
  replace (a + ((z + 2 ^ 31) mod 2 ^ 32 - 2 ^ 31))
    with ((z + 2 ^ 31) mod 2 ^ 32 + (a - 2 ^ 31)) by lia.
  rewrite Z.add_mod_idemp_l by lia. f_equal. lia.
Qed.

Lemma next_hdr_offset old_hdr name :
  hdr_offset (next_hdr old_hdr (entry_size_of name))
  = wrap32 (hdr_offset old_hdr + (strlen name + 20)).
Proof.
  unfold next_hdr, entry_size_of. rewrite hdr_offset_pack. apply wrap32_add_int32.
Qed.

Lemma next_hdr_count old_hdr es :
  hdr_count (next_hdr old_hdr es) = wrap32 (hdr_count old_hdr + 1).
Proof. unfold next_hdr. apply hdr_count_pack. Qed.

(** The part of a call after the swap never writes the header. *)
Lemma write_sym_keeps_val e old_hdr new_hdr name k s :
  val (seg (final_state (write_sym e old_hdr new_hdr name k s))) = val (seg s).
Proof.
  unfold write_sym, grow_symtab, store_at, ftruncate, map_pages, bind, get, modify, ret,
    pr_err.
  repeat match goal with
         | |- context [if ?b then _ else _] => destruct b
         end; reflexivity.
Qed.

Lemma need_nonneg p : 0 <= need p.
Proof.
  unfold need. destruct (p_pc p); try lia;
    match goal with |- context [strlen ?n] => pose proof (strlen_nonneg n) end; lia.
Qed.

Lemma pending_nonneg l : 0 <= pending l.
Proof. induction l as [|p r IH]; simpl; [lia|]. pose proof (need_nonneg p). lia. Qed.

Lemma pending_set_nth l : forall i p p',
  nth_error l i = Some p ->
  pending (set_nth i p' l) = pending l - need p + need p'.
Proof.
  induction l as [|q r IH]; intros [|i] p p' H; simpl in *; try discriminate.
  - injection H as ->. lia.
  - rewrite (IH i p p' H). lia.
Qed.

Lemma need_le_pending l : forall i p, nth_error l i = Some p -> need p <= pending l.
Proof.
  induction l as [|q r IH]; intros [|i] p H; simpl in *; try discriminate.
  - injection H as ->. pose proof (pending_nonneg r). lia.
  - specialize (IH i p H). pose proof (need_nonneg q). lia.
Qed.

Lemma stacked_snoc ls : forall base x,
  stacked base ls ->
  g_old x = last_hdr base ls ->
  hdr_offset (g_new x) = hdr_offset (g_old x) + (strlen (g_name x) + 20) ->
  hdr_count (g_new x) = wrap32 (hdr_count (g_old x) + 1) ->
  stacked base (ls ++ [x]) /\ last_hdr base (ls ++ [x]) = g_new x.
Proof.
  induction ls as [|y r IH]; intros base x S Ho Hoff Hc; simpl in *.
  - rewrite Ho in *. auto.
  - destruct S as (S1 & S2 & S3 & S4).
    destruct (IH (g_new y) x S4 Ho Hoff Hc) as [S' L']. auto.
Qed.

(** Offsets only go up along the history. *)
Lemma stacked_offsets ls : forall base,
  stacked base ls ->
  hdr_offset base <= hdr_offset (last_hdr base ls)
  /\ forall x, In x ls ->
       hdr_offset base <= hdr_offset (g_old x)
       /\ hdr_offset (g_new x) <= hdr_offset (last_hdr base ls).
Proof.
  induction ls as [|y r IH]; intros base S; simpl in *.
  - split; [lia|intros x []].
  - destruct S as (S1 & S2 & S3 & S4). destruct (IH _ S4) as [L A].
    pose proof (strlen_nonneg (g_name y)).
    split; [lia|]. intros x [<-|Hx].
    + rewrite S1. split; [lia|exact L].
    + destruct (A x Hx). split; [lia|assumption].
Qed.

(** Two swaps of one history got ranges that do not meet: the earlier
    one ends where the later one starts, or before. *)
Lemma stacked_apart ls : forall base l1 x l2 y l3,
  stacked base ls ->
  ls = l1 ++ x :: l2 ++ y :: l3 ->
  hdr_offset (g_old x) < hdr_offset (g_new x)
  /\ hdr_offset (g_new x) <= hdr_offset (g_old y)
  /\ hdr_offset (g_old y) < hdr_offset (g_new y).
Proof.
  induction ls as [|z r IH]; intros base l1 x l2 y l3 S E.
  - destruct l1; discriminate.
  - simpl in S. destruct S as (S1 & S2 & S3 & S4).
    destruct l1 as [|z' l1]; simpl in E; injection E as -> E.
    + subst r. destruct (stacked_offsets _ _ S4) as [_ A].
      destruct (A y) as [A1 _]; [apply in_app_iff; right; left; reflexivity|].
      assert (Sy : hdr_offset (g_old y) < hdr_offset (g_new y)).
      { clear - S4. revert S4. generalize (g_new x). induction l2 as [|u l2 IH2];
          simpl; intros b (T1 & T2 & T3 & T4).
        - rewrite T1, T2. pose proof (strlen_nonneg (g_name y)). lia.
        - apply (IH2 _ T4). }
      rewrite S1, S2. pose proof (strlen_nonneg (g_name x)). lia.
    + apply (IH (g_new z') l1 x l2 y l3 S4 E).
Qed.

Lemma schedule_keeps_inv e v0 w i :
  shared_inv v0 w -> shared_inv v0 (schedule e w i).
Proof.
  intros (S & L & B). unfold schedule.
  destruct (nth_error (w_procs w) i) as [p|] eqn:Hp; [|repeat split; assumption].
  pose proof (fun p' => pending_set_nth _ _ _ p' Hp) as Hset.
  pose proof (need_le_pending _ _ _ Hp) as Hle.
  unfold step, need in *.
  destruct (p_pc p) as [name k|name k old_hdr|name k old_hdr new_hdr|old_hdr new_hdr|] eqn:Hpc.
  - destruct (symtab (p_map p)); unfold shared_inv;
      cbn [w_seg w_procs w_log]; rewrite app_nil_r, Hset; cbn [p_pc];
      pose proof (strlen_nonneg name); repeat split; try assumption; lia.
  - unfold cas. cbn [val seg view set_seg set_map].
    destruct (val (w_seg w) =? old_hdr) eqn:E.
    + apply Z.eqb_eq in E.
      cbn [seg set_seg view set_map seg_val]. unfold shared_inv.
      cbn [w_seg w_procs w_log val seg_val].
      pose proof (hdr_offset_range (val (w_seg w))) as Hr.
      pose proof (strlen_nonneg name) as Hn.
      pose proof (pending_nonneg (w_procs w)) as Hpn.
      assert (Hoff : hdr_offset (next_hdr old_hdr (entry_size_of name))
                     = hdr_offset old_hdr + (strlen name + 20)).
      { rewrite next_hdr_offset. apply wrap32_small. rewrite <- E. lia. }
      destruct (stacked_snoc (w_log w) v0
                  {| g_name := name; g_old := old_hdr;
                     g_new := next_hdr old_hdr (entry_size_of name) |} S) as [S' L'];
        cbn [g_name g_old g_new]; try assumption.
      * rewrite L. symmetry. exact E.
      * apply next_hdr_count.
      * split; [exact S'|]. split; [exact L'|].
        rewrite Hset. cbn [p_pc]. cbn [g_new] in L'. rewrite Hoff, <- E. lia.
    + unfold shared_inv. cbn [w_seg w_procs w_log seg view set_seg set_map].
      rewrite app_nil_r, Hset. cbn [p_pc]. repeat split; try assumption. lia.
  - pose proof (write_sym_keeps_val e old_hdr new_hdr name k (view (w_seg w) (p_map p)))
      as Hv.
    destruct (write_sym e old_hdr new_hdr name k (view (w_seg w) (p_map p)));
      cbn [final_state] in Hv; unfold shared_inv;
      cbn [w_seg w_procs w_log]; rewrite app_nil_r, Hset, Hv; cbn [p_pc];
      repeat split; try assumption; cbn [val seg view set_seg]; lia.
  - unfold shared_inv. cbn [w_seg w_procs w_log]. rewrite app_nil_r, Hset, Hpc.
    repeat split; try assumption. lia.
  - unfold shared_inv. cbn [w_seg w_procs w_log]. rewrite app_nil_r, Hset, Hpc.
    repeat split; try assumption. lia.
Qed.

Lemma run_keeps_inv e v0 order : forall w,
  shared_inv v0 w -> shared_inv v0 (run e order w).
Proof.
  induction order as [|i r IH]; intros w I; [exact I|].
  apply IH, schedule_keeps_inv, I.
Qed.

(** Whatever the order of steps, the swaps that succeed hand out ranges
    of [strlen(name) + 20] bytes each, every one starting where the one
    before ended, with consecutive addresses: no two of them meet. *)
Lemma swaps_reserve_disjoint_ranges e order w :
  w_log w = [] ->
  hdr_offset (val (w_seg w)) + pending (w_procs w) < 2 ^ 32 ->
  let w' := run e order w in
  stacked (val (w_seg w)) (w_log w')
  /\ last_hdr (val (w_seg w)) (w_log w') = val (w_seg w')
  /\ forall l1 x l2 y l3,
       w_log w' = l1 ++ x :: l2 ++ y :: l3 ->
       hdr_offset (g_old x) < hdr_offset (g_new x)
       /\ hdr_offset (g_new x) <= hdr_offset (g_old y)
       /\ hdr_offset (g_old y) < hdr_offset (g_new y).
Proof.
  intros Hlog Hb w'.
  assert (I : shared_inv (val (w_seg w)) w)
    by (unfold shared_inv; rewrite Hlog; simpl; auto).
  destruct (run_keeps_inv e _ order w I) as (S & L & _).
  split; [exact S|]. split; [exact L|].
  intros l1 x l2 y l3 E. apply (stacked_apart _ _ _ _ _ _ _ S E).
Qed.

(** ** C1 *)

(** The store of an entry is one byte longer than the range the swap
    reserved: the terminator follows the text. *)
Lemma store_exceeds_reservation c k name :
  int_sized name -> blen (entry_bytes c k name) = entry_size_of name + 1.
Proof.
  intros H. rewrite entry_bytes_blen_small, entry_size_small by exact H. lia.
Qed.

(** C1 (the code departs from it): the swap does hand the two callers
    the disjoint ranges [48, 69) and [69, 90) and the addresses 1 and 2,
    but the store of the first entry runs one byte past its range: when
    it comes after the second caller's store, the terminator replaces the
    first character of the second entry.  Run in turn, the same two calls
    leave both entries whole. *)
Theorem terminator_lands_in_next_entry :
  let w := run fair_env late_store two_callers in
  map reserved (w_procs w) = [Some (48, 69); Some (69, 90)]
  /\ map returned (w_procs w) = [Some 1; Some 2]
  /\ load_bytes (data (w_seg w)) 48 21 = sym_line 1 x54 (c_str "a")
  /\ sym_line 2 x54 (c_str "b") = x30 :: tl (sym_line 2 x54 (c_str "b"))
  /\ load_bytes (data (w_seg w)) 69 21 = NUL :: tl (sym_line 2 x54 (c_str "b"))
  /\ load_bytes (data (w_seg (run fair_env in_turn two_callers))) 48 42
     = sym_line 1 x54 (c_str "a") ++ sym_line 2 x54 (c_str "b").
Proof.
  vm_compute. repeat split.
Qed.

(** * Further properties *)

(** ** Setting up the table *)

(** [init_symtab] either ends the process through [pr_err] or leaves an
    empty table: it returns exactly when [shm_open] succeeds and one
    unit is granted, and then the table has count 0, offset 48 and one
    unit of zero bytes, whatever the state before.  When the object was
    created and its size is refused, the object stays linked. *)
Theorem init_symtab_outcome e s :
  match init_symtab e s with
  | Ok _ s' =>
      shm_open_ok e = true /\ UFTRACE_PYTHON_SYMTAB_SIZE <= shm_limit e
      /\ table s' 0 []
      /\ shm_linked (seg s') = true
      /\ (forall i, data (seg s') i = NUL)
      /\ files s' = files s /\ adp s' = adp s
  | Fatal s' =>
      (shm_open_ok e = false /\ s' = s)
      \/ (shm_open_ok e = true /\ shm_limit e < UFTRACE_PYTHON_SYMTAB_SIZE
          /\ shm_linked (seg s') = true /\ symtab (map_ s') = symtab (map_ s))
  | Fault _ | Hang _ => False
  end.
Proof.
  destruct (shm_open_ok e) eqn:Ho.
  - destruct (UFTRACE_PYTHON_SYMTAB_SIZE <=? shm_limit e) eqn:Hb.
    + assert (Hl : UFTRACE_PYTHON_SYMTAB_SIZE <= shm_limit e) by (apply Z.leb_le; exact Hb).
      destruct (init_symtab_ok e s Ho Hl) as (s' & E & T & L & F & A & _).
      rewrite E. split; [reflexivity|]. split; [exact Hl|]. split; [exact T|].
      split; [exact L|]. split; [|split; assumption].
      intros i. revert E. unfold init_symtab, bind, modify, ftruncate, map_pages, ret.
      rewrite Ho. unfold UFTRACE_PYTHON_SYMTAB_SIZE in Hb.
      change (1 * 1024 * 1024) with 1048576 in Hb. cbn. rewrite Hb. cbn.
      intros E. injection E as E. subst s'. cbn. unfold trunc_mem, zero_mem.
      destruct (i <? _); reflexivity.
    + unfold init_symtab, bind, modify, ftruncate, map_pages, ret, pr_err.
      rewrite Ho. unfold UFTRACE_PYTHON_SYMTAB_SIZE in Hb.
      change (1 * 1024 * 1024) with 1048576 in Hb. cbn. rewrite Hb.
      cbn. right. apply Z.leb_gt in Hb. repeat split; try reflexivity.
      unfold UFTRACE_PYTHON_SYMTAB_SIZE. lia.
  - unfold init_symtab, bind, pr_err. rewrite Ho. left. split; reflexivity.
Qed.

(** ** The header word and the entry *)

(** The union read both ways: [val] is made of [count] and [offset] and
    gives them back, so one swap of [val] replaces both at once. *)
Theorem header_word_round_trip v :
  0 <= v < 2 ^ 64 ->
  hdr_pack (hdr_count v) (hdr_offset v) = v
  /\ forall c o, 0 <= c < 2 ^ 32 -> 0 <= o < 2 ^ 32 ->
       hdr_count (hdr_pack c o) = c /\ hdr_offset (hdr_pack c o) = o.
Proof.
  intros Hv. split.
  - unfold hdr_pack, hdr_count, hdr_offset, wrap32.
    rewrite !Z.mod_mod by lia.
    rewrite (Z.mod_small (v / 2 ^ 32)).
    + rewrite Z.add_comm. symmetry. apply Z.div_mod. lia.
    + split; [apply Z.div_pos; lia|].
      apply Z.div_lt_upper_bound; [lia|]. change (2 ^ 32 * 2 ^ 32) with (2 ^ 64). lia.
  - intros c o Hc Ho. rewrite hdr_count_pack, hdr_offset_pack, !wrap32_small by lia. auto.
Qed.

Lemma header_word_round_trip_witness :
  hdr_pack (hdr_count 296352743425) (hdr_offset 296352743425) = 296352743425
  /\ forall c o, 0 <= c < 2 ^ 32 -> 0 <= o < 2 ^ 32 ->
       hdr_count (hdr_pack c o) = c /\ hdr_offset (hdr_pack c o) = o.
Proof.
  apply (header_word_round_trip 296352743425). vm_compute. split; [discriminate|reflexivity].
Defined.

(** The bound handed to [snprintf] never cuts an entry: what is stored
    is the whole line, sixteen hexadecimal digits, the kind between two
    blanks, the name and a newline, followed by the terminator. *)
Theorem stored_entry_is_whole c k name :
  int_sized name ->
  entry_bytes c k name
  = fmt_016x c ++ [x20; kind_char k; x20] ++ c_str name ++ [x0a; NUL]
  /\ blen (entry_bytes c k name) = strlen name + 21.
Proof.
  intros H. split.
  - rewrite entry_bytes_small by exact H. unfold sym_line.
    rewrite <- !app_assoc. reflexivity.
  - apply entry_bytes_blen_small, H.
Qed.

Lemma stored_entry_is_whole_witness :
  entry_bytes 3 false "c"
  = fmt_016x 3 ++ [x20; kind_char false; x20] ++ c_str "c" ++ [x0a; NUL]
  /\ blen (entry_bytes 3 false "c") = strlen "c" + 21.
Proof.
  apply (stored_entry_is_whole 3 false "c"). unfold int_sized. vm_compute. reflexivity.
Defined.

(** ** Growth that goes wrong *)





(** The growth step works from the size the process remembers, not from
    the length of the object.  When the object is longer than that
    (another process has grown it since), an allocation that takes the
    growth branch cuts it to the remembered size plus one unit: what
    lay beyond is gone, whether or not the store of the entry then
    succeeds. *)
Theorem stale_size_shrinks_object e name k s :
  symtab (map_ s) = true ->
  uftrace_shmem_fd (map_ s) = true ->
  0 < uftrace_symtab_size (map_ s) ->
  int_sized name -> grantable e s ->
  hdr_offset (val (seg s)) + (strlen name + 20) < 2 ^ 32 ->
  uftrace_symtab_size (map_ s) <= hdr_offset (val (seg s)) + (strlen name + 20) ->
  uftrace_symtab_size (map_ s) + UFTRACE_PYTHON_SYMTAB_SIZE < shm_length (seg s) ->
  let s' := final_state (get_new_sym_addr e name k s) in
  shm_length (seg s') = uftrace_symtab_size (map_ s) + UFTRACE_PYTHON_SYMTAB_SIZE
  /\ forall i, uftrace_symtab_size (map_ s) + UFTRACE_PYTHON_SYMTAB_SIZE <= i ->
       data (seg s') i = NUL.
Proof.
  intros Hm Hfd Hs F G Hlt Hgrow Hlong s'. unfold s'.
  rewrite get_new_sym_addr_unfold by exact Hm.
  unfold write_sym, bind, get. cbn [map_ set_seg].
  rewrite (next_offset_small s name F Hlt).
  replace (hdr_offset (val (seg s)) + (strlen name + 20) >=? uftrace_symtab_size (map_ s))
    with true by (symmetry; rewrite Z.geb_leb; apply Z.leb_le; lia).
  rewrite grow_symtab_ok; cbn [map_ set_seg]; try exact Hfd; try lia; try exact G.
  unfold store_at, grown.
  cbn [map_ seg set_seg set_map map_size map_symtab symtab
       uftrace_symtab_size shm_length seg_length seg_data seg_val].
  set (n := uftrace_symtab_size (map_ s) + UFTRACE_PYTHON_SYMTAB_SIZE).
  set (bs := entry_bytes _ k name).
  destruct (true && (0 <=? hdr_offset (val (seg s)))
            && (hdr_offset (val (seg s)) + blen bs <=? n)
            && (hdr_offset (val (seg s)) + blen bs <=? n)) eqn:E;
    cbn [final_state seg set_seg seg_data shm_length data ret].
  - split; [reflexivity|]. intros i Hi.
    apply andb_prop in E. destruct E as [_ E]. apply Z.leb_le in E.
    rewrite store_bytes_outside by lia.
    cbn [data seg set_map set_seg seg_length seg_data seg_val]. unfold trunc_mem.
    replace (i <? n) with false by (symmetry; apply Z.ltb_ge; lia).
    reflexivity.
  - split; [reflexivity|]. intros i Hi.
    cbn [data seg set_map set_seg seg_length seg_data seg_val]. unfold trunc_mem.
    replace (i <? n) with false by (symmetry; apply Z.ltb_ge; lia).
    reflexivity.
Qed.

Lemma stale_size_shrinks_object_witness :
  let s' := final_state (get_new_sym_addr fair_env "a" true stale_view) in
  shm_length (seg s')
  = uftrace_symtab_size (map_ stale_view) + UFTRACE_PYTHON_SYMTAB_SIZE
  /\ forall i, uftrace_symtab_size (map_ stale_view) + UFTRACE_PYTHON_SYMTAB_SIZE <= i ->
       data (seg s') i = NUL.
Proof.
  apply (stale_size_shrinks_object fair_env "a" true stale_view).
  - reflexivity.
  - reflexivity.
  - reflexivity.
  - unfold int_sized. vm_compute. reflexivity.
  - split; vm_compute; [reflexivity|discriminate].
  - vm_compute. reflexivity.
  - vm_compute. discriminate.
  - vm_compute. reflexivity.
Defined.

(** ** The header comment *)

Lemma dec_digits_length fuel : forall n acc,
  (List.length acc + (if Nat.eqb fuel 0 then 0 else 1)
   <= List.length (dec_digits fuel n acc) <= List.length acc + fuel)%nat.
Proof.
  induction fuel as [|f IH]; intros n acc; simpl.
  - lia.
  - destruct (n / 10 =? 0).
    + simpl. lia.
    + specialize (IH (n / 10) (hex_digit (n mod 10) :: acc)). simpl in IH.
      destruct (Nat.eqb f 0); lia.
Qed.

(** ["%u"] prints between one and ten digits. *)
Lemma fmt_u_length n : 1 <= blen (fmt_u n) <= 10.
Proof.
  unfold fmt_u, blen. pose proof (dec_digits_length 10 n []) as H.
  change (Nat.eqb 10 0) with false in H. cbn [List.length] in H. lia.
Qed.

Lemma header_line1_blen count : blen (header_line1 count) = 12 + blen (fmt_u count).
Proof.
  unfold header_line1. rewrite !blen_app.
  change (blen (bytes "# symbols: ")) with 11. change (blen [x0a]) with 1. lia.
Qed.

Lemma header_line2_blen name : blen (header_line2 name) = 14 + strlen name.
Proof.
  unfold header_line2. rewrite !blen_app.
  change (blen (bytes "# path name: ")) with 13. change (blen [x0a]) with 1.
  unfold strlen. lia.
Qed.

Lemma header_line3_blen len :
  blen (header_line3 len)
  = 2 + Z.abs (int32 (wrap32 (UFTRACE_PYTHON_SYMTAB_HDRSZ - 2 - len))).
Proof.
  unfold header_line3. rewrite !blen_app.
  change (blen [x23]) with 1. change (blen [x0a]) with 1.
  unfold blen. rewrite repeat_length. lia.
Qed.

Lemma int32_wrap32 z : int32 (wrap32 z) = int32 z.
Proof.
  unfold int32, wrap32.
  rewrite Zplus_mod_idemp_l. reflexivity.
Qed.

(** The header comment fills exactly the 48 bytes reserved for it when
    the digits of the count and the table's name take at most 20
    characters together, and is longer otherwise. *)
Lemma header_comment_size name count :
  strlen name < 2 ^ 30 ->
  let n := blen (fmt_u count) + strlen name in
  blen (header_comment name count)
  = if n <=? 20 then UFTRACE_PYTHON_SYMTAB_HDRSZ else 2 * n + 8.
Proof.
  intros Hn n.
  pose proof (fmt_u_length count) as Hd. pose proof (strlen_nonneg name) as H0.
  unfold header_comment. rewrite !blen_app, header_line3_blen, int32_wrap32.
  rewrite header_line1_blen, header_line2_blen.
  rewrite (wrap32_small (12 + _ + _)) by lia.
  unfold UFTRACE_PYTHON_SYMTAB_HDRSZ.
  rewrite int32_small by lia.
  fold n. destruct (n <=? 20) eqn:E.
  - apply Z.leb_le in E. lia.
  - apply Z.leb_gt in E. lia.
Qed.

(** ** Writing the table out, in full *)

Lemma lookup_update_other path p c f :
  p <> path -> lookup_file p (update_file path c f) = lookup_file p f.
Proof.
  intros Hne. induction f as [|[q c'] r IH]; simpl.
  - destruct (String.eqb path p) eqn:E; [|reflexivity].
    apply String.eqb_eq in E. congruence.
  - destruct (String.eqb q path) eqn:E; simpl.
    + apply String.eqb_eq in E. subst q.
      destruct (String.eqb path p) eqn:E2; [|reflexivity].
      apply String.eqb_eq in E2. congruence.
    + destruct (String.eqb q p); [reflexivity|exact IH].
Qed.

(** The header comment, the warning about it, and the files it leaves
    alone. *)
Lemma write_symtab_header_warns e symtab_name dirname s :
  symtab (map_ s) = true ->
  fopen_ok e (symtab_path symtab_name dirname) = true ->
  exists s5,
    write_symtab e symtab_name dirname s
    = copy_and_release e (symtab_path symtab_name dirname) (val (seg s)) s5
    /\ lookup_file (symtab_path symtab_name dirname) (files s5)
       = Some (header_comment symtab_name (hdr_count (val (seg s))))
    /\ seg s5 = seg s /\ map_ s5 = map_ s
    /\ warn_log s5 = warn_log s ++ header_warning symtab_name (hdr_count (val (seg s)))
    /\ hook_log s5 = hook_log s /\ adp s5 = adp s
    /\ forall p, p <> symtab_path symtab_name dirname ->
         lookup_file p (files s5) = lookup_file p (files s).
Proof.
  intros Hm Hf.
  set (path := symtab_path symtab_name dirname) in *.
  set (count := hdr_count (val (seg s))).
  unfold write_symtab. fold path.
  unfold bind at 1. unfold fopen_w. rewrite Hf. cbn [negb].
  unfold bind at 1. unfold get.
  set (s1 := set_files (update_file path [] (files s)) s).
  assert (Hm1 : symtab (map_ s1) = true) by exact Hm.
  assert (Hg : forall t, symtab (map_ t) = true -> guard_mapped t = Ok tt t)
    by (intros t Ht; unfold guard_mapped; rewrite Ht; reflexivity).
  unfold bind at 1.
  replace ((if debug s1 then guard_mapped else ret tt) s1) with (Ok tt s1)
    by (destruct (debug s1); [rewrite Hg by exact Hm1|]; reflexivity).
  unfold bind at 1. rewrite Hg by exact Hm1.
  unfold bind at 1.
  rewrite (fprintf_ok path _ s1 []) by apply lookup_update_same.
  set (s2 := set_files _ s1).
  unfold bind at 1.
  rewrite (fprintf_ok path _ s2 ([] ++ header_line1 (hdr_count (val (seg s1)))))
    by apply lookup_update_same.
  set (s3 := set_files _ s2).
  unfold bind at 1.
  rewrite (fprintf_ok path _ s3
             (([] ++ header_line1 (hdr_count (val (seg s1)))) ++ header_line2 symtab_name))
    by apply lookup_update_same.
  set (s4 := set_files _ s3).
  set (text := (_ ++ header_line3 _)) in s4.
  assert (Htext : text = header_comment symtab_name count).
  { unfold text, header_comment. cbn [app]. rewrite <- app_assoc. reflexivity. }
  set (hlen := wrap32 _).
  assert (Hlen : hlen = wrap32 (blen (header_comment symtab_name count))).
  { unfold hlen, header_comment. rewrite !blen_app. f_equal.
    change (hdr_count (val (seg s1))) with count. lia. }
  set (s5 := if hlen =? UFTRACE_PYTHON_SYMTAB_HDRSZ then s4
             else pr_warn (WarnHeaderSize hlen) s4).
  unfold bind at 1.
  replace ((if hlen =? UFTRACE_PYTHON_SYMTAB_HDRSZ then ret tt
            else modify (pr_warn (WarnHeaderSize hlen))) s4) with (Ok tt s5)
    by (unfold s5; destruct (hlen =? UFTRACE_PYTHON_SYMTAB_HDRSZ); reflexivity).
  change (val (seg s1)) with (val (seg s)).
  exists s5. split; [reflexivity|].
  assert (H5 : seg s5 = seg s /\ map_ s5 = map_ s /\ files s5 = files s4
               /\ warn_log s5 = warn_log s ++ header_warning symtab_name count
               /\ hook_log s5 = hook_log s /\ adp s5 = adp s).
  { unfold s5, header_warning. rewrite <- Hlen.
    destruct (hlen =? UFTRACE_PYTHON_SYMTAB_HDRSZ); cbn;
      rewrite ?app_nil_r; repeat split. }
  destruct H5 as (Hseg5 & Hmap5 & Hfiles5 & Hwarn5 & Hhook5 & Hadp5).
  rewrite Hfiles5. unfold s4. cbn [files set_files]. rewrite lookup_update_same, Htext.
  repeat split; try assumption.
  intros p Hp. unfold s3, s2, s1. cbn [files set_files].
  rewrite !lookup_update_other by exact Hp. reflexivity.
Qed.

(** [write_symtab] on a table that can be written: the file, the
    warning, the release of the table, and what it leaves alone. *)
Lemma write_symtab_written e symtab_name dirname s :
  symtab (map_ s) = true ->
  UFTRACE_PYTHON_SYMTAB_HDRSZ <= hdr_offset (val (seg s)) <= uftrace_symtab_size (map_ s) ->
  hdr_offset (val (seg s)) <= shm_length (seg s) ->
  fopen_ok e (symtab_path symtab_name dirname) = true ->
  writes_well e ->
  exists s',
    write_symtab e symtab_name dirname s = Ok tt s'
    /\ lookup_file (symtab_path symtab_name dirname) (files s')
       = Some (symtab_file symtab_name (hdr_count (val (seg s)))
                 (load_bytes (data (seg s)) UFTRACE_PYTHON_SYMTAB_HDRSZ
                    (Z.to_nat (hdr_offset (val (seg s)) - UFTRACE_PYTHON_SYMTAB_HDRSZ))))
    /\ warn_log s' = warn_log s ++ header_warning symtab_name (hdr_count (val (seg s)))
    /\ (forall p, p <> symtab_path symtab_name dirname ->
          lookup_file p (files s') = lookup_file p (files s))
    /\ symtab (map_ s') = false
    /\ uftrace_shmem_fd (map_ s') = false
    /\ shm_linked (seg s') = false
    /\ hook_log s' = hook_log s
    /\ adp s' = adp s.
Proof.
  intros Hm Ho Hsl Hf W.
  pose proof (hdr_offset_range (val (seg s))) as Hr.
  destruct (write_symtab_header_warns e symtab_name dirname s Hm Hf)
    as (s5 & E & Hfile & Hseg5 & Hmap5 & Hwarn5 & Hhook5 & Hadp5 & Hother5).
  rewrite E. unfold copy_and_release.
  rewrite (wrap32_small (hdr_offset (val (seg s)) - UFTRACE_PYTHON_SYMTAB_HDRSZ))
    by (unfold UFTRACE_PYTHON_SYMTAB_HDRSZ in *; lia).
  unfold bind at 1.
  rewrite (copy_loop_ok e _ _ _ _ s5 (header_comment symtab_name (hdr_count (val (seg s)))) W);
    try exact Hfile.
  - unfold bind at 1.
    erewrite fprintf_ok by (cbn [files set_files]; apply lookup_update_same).
    eexists. split; [reflexivity|].
    cbn [modify bind files set_files set_seg set_map map_ seg symtab uftrace_shmem_fd
         shm_linked map_symtab map_fd seg_linked hook_log adp warn_log].
    rewrite lookup_update_same, Hseg5, Hwarn5, Hhook5, Hadp5.
    unfold symtab_file. rewrite <- app_assoc.
    split; [reflexivity|]. split; [reflexivity|]. split; [|repeat split].
    intros p Hp. rewrite !lookup_update_other by exact Hp. apply Hother5, Hp.
  - rewrite Hmap5. exact Hm.
  - unfold UFTRACE_PYTHON_SYMTAB_HDRSZ. lia.
  - unfold UFTRACE_PYTHON_SYMTAB_HDRSZ in *. lia.
  - rewrite Hmap5. unfold UFTRACE_PYTHON_SYMTAB_HDRSZ in *. lia.
  - rewrite Hseg5. unfold UFTRACE_PYTHON_SYMTAB_HDRSZ in *. lia.
  - lia.
Qed.

Lemma sym_end_line_blen count : blen (sym_end_line count) = 29.
Proof. unfold sym_end_line. rewrite sym_line_blen. reflexivity. Qed.

(** The one warning of [write_symtab] on a table that can be written:
    none when the count's digits and the table's name take at most 20
    characters, the size of the longer header otherwise. *)
Theorem long_header_is_reported e symtab_name dirname s :
  symtab (map_ s) = true ->
  UFTRACE_PYTHON_SYMTAB_HDRSZ <= hdr_offset (val (seg s)) <= uftrace_symtab_size (map_ s) ->
  hdr_offset (val (seg s)) <= shm_length (seg s) ->
  fopen_ok e (symtab_path symtab_name dirname) = true ->
  writes_well e ->
  strlen symtab_name < 2 ^ 30 ->
  let n := blen (fmt_u (hdr_count (val (seg s)))) + strlen symtab_name in
  exists s',
    write_symtab e symtab_name dirname s = Ok tt s'
    /\ warn_log s'
       = warn_log s ++ (if n <=? 20 then [] else [WarnHeaderSize (2 * n + 8)]).
Proof.
  intros Hm Ho Hsl Hf W Hn n.
  destruct (write_symtab_written e symtab_name dirname s Hm Ho Hsl Hf W)
    as (s' & E & _ & Hw & _).
  exists s'. split; [exact E|]. rewrite Hw. f_equal.
  unfold header_warning.
  rewrite (header_comment_size symtab_name _ Hn). fold n.
  pose proof (fmt_u_length (hdr_count (val (seg s)))) as Hd.
  pose proof (strlen_nonneg symtab_name) as H0.
  destruct (n <=? 20) eqn:En.
  - reflexivity.
  - apply Z.leb_gt in En. rewrite wrap32_small by lia.
    replace (2 * n + 8 =? UFTRACE_PYTHON_SYMTAB_HDRSZ) with false
      by (symmetry; apply Z.eqb_neq; unfold UFTRACE_PYTHON_SYMTAB_HDRSZ; lia).
    reflexivity.
Qed.

Lemma long_header_is_reported_witness :
  exists s',
    write_symtab fair_env "a-rather-long-table-name" "." one_entry = Ok tt s'
    /\ warn_log s' = warn_log one_entry ++ [WarnHeaderSize 58].
Proof.
  apply (long_header_is_reported fair_env "a-rather-long-table-name" "." one_entry).
  - reflexivity.
  - vm_compute. split; discriminate.
  - vm_compute. discriminate.
  - reflexivity.
  - vm_compute. split; reflexivity.
  - vm_compute. reflexivity.
Defined.

(** With a header comment of exactly 48 bytes, the file is an image of
    the table: its length is the table's offset plus the 29 bytes of the
    end marker, and every byte between the header and the offset sits
    in the file where it sits in the shared object. *)
Theorem file_offsets_match_table e symtab_name dirname s :
  symtab (map_ s) = true ->
  UFTRACE_PYTHON_SYMTAB_HDRSZ <= hdr_offset (val (seg s)) <= uftrace_symtab_size (map_ s) ->
  hdr_offset (val (seg s)) <= shm_length (seg s) ->
  fopen_ok e (symtab_path symtab_name dirname) = true ->
  writes_well e ->
  blen (fmt_u (hdr_count (val (seg s)))) + strlen symtab_name <= 20 ->
  exists s' f,
    write_symtab e symtab_name dirname s = Ok tt s'
    /\ lookup_file (symtab_path symtab_name dirname) (files s') = Some f
    /\ blen f = hdr_offset (val (seg s)) + 29
    /\ forall i, UFTRACE_PYTHON_SYMTAB_HDRSZ <= i < hdr_offset (val (seg s)) ->
         nth (Z.to_nat i) f NUL = data (seg s) i.
Proof.
  intros Hm Ho Hsl Hf W Hn.
  pose proof (fmt_u_length (hdr_count (val (seg s)))) as Hd.
  destruct (write_symtab_written e symtab_name dirname s Hm Ho Hsl Hf W)
    as (s' & E & Hfile & _).
  assert (Hh : blen (header_comment symtab_name (hdr_count (val (seg s))))
               = UFTRACE_PYTHON_SYMTAB_HDRSZ).
  { rewrite header_comment_size by lia.
    replace (_ <=? 20) with true by (symmetry; apply Z.leb_le; exact Hn). reflexivity. }
  eexists. eexists. split; [exact E|]. split; [exact Hfile|].
  unfold symtab_file. split.
  - rewrite !blen_app, Hh, sym_end_line_blen. unfold blen. rewrite load_bytes_length.
    unfold UFTRACE_PYTHON_SYMTAB_HDRSZ in *. lia.
  - intros i Hi. unfold UFTRACE_PYTHON_SYMTAB_HDRSZ in *. unfold blen in Hh.
    rewrite app_nth2 by lia. rewrite app_nth1 by (rewrite load_bytes_length; lia).
    rewrite nth_load_bytes by lia. f_equal. lia.
Qed.

Lemma file_offsets_match_table_witness :
  exists s' f,
    write_symtab fair_env "python.fake" "." one_entry = Ok tt s'
    /\ lookup_file (symtab_path "python.fake" ".") (files s') = Some f
    /\ blen f = hdr_offset (val (seg one_entry)) + 29
    /\ forall i, UFTRACE_PYTHON_SYMTAB_HDRSZ <= i < hdr_offset (val (seg one_entry)) ->
         nth (Z.to_nat i) f NUL = data (seg one_entry) i.
Proof.
  apply (file_offsets_match_table fair_env "python.fake" "." one_entry).
  - reflexivity.
  - vm_compute. split; discriminate.
  - vm_compute. discriminate.
  - reflexivity.
  - vm_compute. split; reflexivity.
  - vm_compute. discriminate.
Defined.

(** How much one [fwrite] manages to write does not show in the file:
    the copy loop takes up where the short write stopped. *)
Theorem file_does_not_depend_on_chunking e1 e2 symtab_name dirname s :
  symtab (map_ s) = true ->
  UFTRACE_PYTHON_SYMTAB_HDRSZ <= hdr_offset (val (seg s)) <= uftrace_symtab_size (map_ s) ->
  hdr_offset (val (seg s)) <= shm_length (seg s) ->
  fopen_ok e1 (symtab_path symtab_name dirname) = true ->
  fopen_ok e2 (symtab_path symtab_name dirname) = true ->
  writes_well e1 -> writes_well e2 ->
  exists s1 s2 f,
    write_symtab e1 symtab_name dirname s = Ok tt s1
    /\ write_symtab e2 symtab_name dirname s = Ok tt s2
    /\ lookup_file (symtab_path symtab_name dirname) (files s1) = Some f
    /\ lookup_file (symtab_path symtab_name dirname) (files s2) = Some f.
Proof.
  intros Hm Ho Hsl Hf1 Hf2 W1 W2.
  destruct (write_symtab_written e1 symtab_name dirname s Hm Ho Hsl Hf1 W1)
    as (s1 & E1 & F1 & _).
  destruct (write_symtab_written e2 symtab_name dirname s Hm Ho Hsl Hf2 W2)
    as (s2 & E2 & F2 & _).
  eauto 8.
Qed.

Lemma file_does_not_depend_on_chunking_witness :
  exists s1 s2 f,
    write_symtab fair_env "python.fake" "." one_entry = Ok tt s1
    /\ write_symtab bytewise_env "python.fake" "." one_entry = Ok tt s2
    /\ lookup_file (symtab_path "python.fake" ".") (files s1) = Some f
    /\ lookup_file (symtab_path "python.fake" ".") (files s2) = Some f.
Proof.
  apply (file_does_not_depend_on_chunking fair_env bytewise_env "python.fake" "." one_entry).
  - reflexivity.
  - vm_compute. split; discriminate.
  - vm_compute. discriminate.
  - reflexivity.
  - reflexivity.
  - vm_compute. split; reflexivity.
  - vm_compute. split; reflexivity.
Defined.

(** An empty table is written without a single [fwrite]: the file is the
    header comment and the end marker with address 1, whatever [fwrite]
    would do. *)
Theorem empty_table_needs_no_fwrite e symtab_name dirname s :
  symtab (map_ s) = true ->
  hdr_offset (val (seg s)) = UFTRACE_PYTHON_SYMTAB_HDRSZ ->
  hdr_count (val (seg s)) = 0 ->
  fopen_ok e (symtab_path symtab_name dirname) = true ->
  exists s',
    write_symtab e symtab_name dirname s = Ok tt s'
    /\ lookup_file (symtab_path symtab_name dirname) (files s')
       = Some (header_comment symtab_name 0 ++ sym_line 1 x3f (bytes "__sym_end"))
    /\ symtab (map_ s') = false
    /\ shm_linked (seg s') = false.
Proof.
  intros Hm Ho Hc Hf.
  destruct (write_symtab_header e symtab_name dirname s Hm Hf)
    as (s5 & E & Hfile & Hseg5 & Hmap5 & _).
  rewrite E. unfold copy_and_release. rewrite Ho, Hc, Z.sub_diag.
  change (wrap32 0) with 0. cbn [Z.to_nat copy_loop Z.eqb]. unfold bind at 1. unfold ret at 1.
  unfold bind at 1. rewrite (fprintf_ok _ _ s5 _ Hfile).
  eexists. split; [reflexivity|].
  cbn [modify bind files set_files set_seg set_map map_ seg symtab shm_linked
       map_symtab map_fd seg_linked].
  rewrite lookup_update_same, Hc. repeat split.
Qed.

Lemma empty_table_needs_no_fwrite_witness :
  exists s',
    write_symtab no_write_env "python.fake" "." fresh_table = Ok tt s'
    /\ lookup_file (symtab_path "python.fake" ".") (files s')
       = Some (header_comment "python.fake" 0 ++ sym_line 1 x3f (bytes "__sym_end"))
    /\ symtab (map_ s') = false
    /\ shm_linked (seg s') = false.
Proof.
  apply (empty_table_needs_no_fwrite no_write_env "python.fake" "." fresh_table);
    reflexivity.
Defined.

(** After [write_symtab] has written the file the table is gone: a
    further allocation is an invalid access, and so is a second
    [write_symtab], which has emptied the file by then. *)
Theorem finalized_table_is_gone e symtab_name dirname s :
  symtab (map_ s) = true ->
  UFTRACE_PYTHON_SYMTAB_HDRSZ <= hdr_offset (val (seg s)) <= uftrace_symtab_size (map_ s) ->
  hdr_offset (val (seg s)) <= shm_length (seg s) ->
  fopen_ok e (symtab_path symtab_name dirname) = true ->
  writes_well e ->
  exists s',
    write_symtab e symtab_name dirname s = Ok tt s'
    /\ (forall name k, get_new_sym_addr e name k s' = Fault s')
    /\ exists s'',
         write_symtab e symtab_name dirname s' = Fault s''
         /\ lookup_file (symtab_path symtab_name dirname) (files s'') = Some [].
Proof.
  intros Hm Ho Hsl Hf W.
  destruct (write_symtab_written e symtab_name dirname s Hm Ho Hsl Hf W)
    as (s' & E & _ & _ & _ & Hu & _).
  exists s'. split; [exact E|]. split.
  - intros name k. unfold get_new_sym_addr, bind, guard_mapped. rewrite Hu. reflexivity.
  - eexists. split; [apply write_symtab_unmapped; assumption|].
    cbn [files set_files]. apply lookup_update_same.
Qed.

Lemma finalized_table_is_gone_witness :
  exists s',
    write_symtab fair_env "python.fake" "." one_entry = Ok tt s'
    /\ (forall name k, get_new_sym_addr fair_env name k s' = Fault s')
    /\ exists s'',
         write_symtab fair_env "python.fake" "." s' = Fault s''
         /\ lookup_file (symtab_path "python.fake" ".") (files s'') = Some [].
Proof.
  apply (finalized_table_is_gone fair_env "python.fake" "." one_entry).
  - reflexivity.
  - vm_compute. split; discriminate.
  - vm_compute. discriminate.
  - reflexivity.
  - vm_compute. split; reflexivity.
Defined.

(** The destructor writes the table of the process into the directory
    named by [UFTRACE_DIR], or into [UFTRACE_DIR_NAME] when the variable
    is not set: the file holds the header comment, the entries and the
    end marker; no other file is touched, no hook is called, and the
    table is released. *)
Theorem finish_writes_only_the_symbol_file e symtab_name dir_name s c bs :
  let dirname := match env_UFTRACE_DIR e with Some d => d | None => dir_name end in
  table s c bs ->
  fopen_ok e (symtab_path symtab_name dirname) = true ->
  writes_well e ->
  exists s',
    uftrace_trace_python_finish e symtab_name dir_name s = Ok tt s'
    /\ lookup_file (symtab_path symtab_name dirname) (files s')
       = Some (symtab_file symtab_name c bs)
    /\ (forall p, p <> symtab_path symtab_name dirname ->
          lookup_file p (files s') = lookup_file p (files s))
    /\ hook_log s' = hook_log s
    /\ symtab (map_ s') = false
    /\ uftrace_shmem_fd (map_ s') = false
    /\ shm_linked (seg s') = false.
Proof.
  intros dirname T Hf W.
  pose proof (tab_inv _ _ _ T) as I.
  pose proof (inv_offset s I) as Ho. pose proof (inv_length s I) as Hl.
  destruct (write_symtab_written e symtab_name dirname s (inv_mapped s I))
    as (s' & E & Hfile & _ & Hother & Hu & Hfd & Hlk & Hhook & _);
    try assumption; try lia.
  exists s'. unfold uftrace_trace_python_finish. fold dirname.
  split; [exact E|]. split; [|auto 8].
  rewrite Hfile, (tab_count _ _ _ T). do 2 f_equal.
  rewrite (tab_offset _ _ _ T).
  replace (Z.to_nat (UFTRACE_PYTHON_SYMTAB_HDRSZ + blen bs - UFTRACE_PYTHON_SYMTAB_HDRSZ))
    with (List.length bs) by (unfold blen; lia).
  apply (tab_bytes _ _ _ T).
Qed.

Lemma finish_writes_only_the_symbol_file_witness :
  exists s',
    uftrace_trace_python_finish hookless_env "python.fake" "uftrace.data" fresh_table
    = Ok tt s'
    /\ lookup_file (symtab_path "python.fake" "/tmp/trace") (files s')
       = Some (symtab_file "python.fake" 0 [])
    /\ (forall p, p <> symtab_path "python.fake" "/tmp/trace" ->
          lookup_file p (files s') = lookup_file p (files fresh_table))
    /\ hook_log s' = hook_log fresh_table
    /\ symtab (map_ s') = false
    /\ uftrace_shmem_fd (map_ s') = false
    /\ shm_linked (seg s') = false.
Proof.
  apply (finish_writes_only_the_symbol_file hookless_env "python.fake" "uftrace.data"
           fresh_table 0 []).
  - exact fresh_table_table.
  - reflexivity.
  - vm_compute. split; reflexivity.
Defined.

(** ** No terminator in the file *)

Lemma hex_digit_not_nul d : hex_digit d <> NUL.
Proof.
  unfold hex_digit. generalize (Z.to_nat d). intros n.
  do 16 (destruct n as [|n]; [discriminate|]). destruct n; discriminate.
Qed.

Lemma c_str_no_nul s : Forall (fun b => b <> NUL) (c_str s).
Proof.
  induction s as [|c r IH]; simpl; [constructor|].
  destruct (Ascii.eqb c Ascii.zero) eqn:E; [constructor|].
  constructor; [|exact IH].
  intros H. apply Ascii.eqb_neq in E. apply E.
  rewrite <- (ascii_of_byte_of_ascii c), H. reflexivity.
Qed.

Lemma dec_digits_no_nul fuel : forall n acc,
  Forall (fun b => b <> NUL) acc -> Forall (fun b => b <> NUL) (dec_digits fuel n acc).
Proof.
  induction fuel as [|f IH]; intros n acc H; simpl; [exact H|].
  assert (H' : Forall (fun b => b <> NUL) (hex_digit (n mod 10) :: acc))
    by (constructor; [apply hex_digit_not_nul|exact H]).
  destruct (n / 10 =? 0); [exact H'|apply IH, H'].
Qed.

Lemma sym_line_no_nul a k name :
  k <> NUL -> Forall (fun b => b <> NUL) name ->
  Forall (fun b => b <> NUL) (sym_line a k name).
Proof.
  intros Hk Hn. unfold sym_line, fmt_016x.
  apply Forall_app. split.
  - apply Forall_map. apply Forall_forall. intros i _. apply hex_digit_not_nul.
  - constructor; [discriminate|]. constructor; [exact Hk|]. constructor; [discriminate|].
    apply Forall_app. split; [exact Hn|]. constructor; [discriminate|constructor].
Qed.

Lemma lines_no_nul l : forall c, Forall (fun b => b <> NUL) (lines c l).
Proof.
  induction l as [|[name k] r IH]; intros c; cbn [lines]; [constructor|].
  apply Forall_app. split; [|apply IH].
  apply sym_line_no_nul; [destruct k; discriminate|apply c_str_no_nul].
Qed.

Lemma header_comment_no_nul name count :
  Forall (fun b => b <> NUL) (header_comment name count).
Proof.
  unfold header_comment, header_line1, header_line2, header_line3.
  repeat (apply Forall_app; split).
  - repeat constructor; discriminate.
  - apply dec_digits_no_nul. constructor.
  - repeat constructor; discriminate.
  - repeat constructor; discriminate.
  - apply c_str_no_nul.
  - repeat constructor; discriminate.
  - repeat constructor; discriminate.
  - apply Forall_forall. intros b Hb. apply repeat_spec in Hb. subst b. discriminate.
  - repeat constructor; discriminate.
Qed.

Lemma init_symtab_zeroes e s s' :
  init_symtab e s = Ok tt s' -> forall i, data (seg s') i = NUL.
Proof.
  unfold init_symtab, bind, modify, ftruncate, map_pages, ret, pr_err.
  destruct (shm_open_ok e); [|discriminate]. cbn.
  repeat match goal with
         | |- context [if ?b then _ else _] => destruct b; cbn
         end;
    intros H; try discriminate; injection H as <-; intros i; cbn;
    unfold trunc_mem, zero_mem; destruct (i <? _); reflexivity.
Qed.

Lemma last_or_nil {A} (l : list A) : l = [] \/ exists l' x, l = l' ++ [x].
Proof. induction l using rev_ind; [left; reflexivity|right; eauto]. Qed.

Lemma allocated_all_app l1 : forall l2 s,
  allocated_all (l1 ++ l2) s = allocated_all l2 (allocated_all l1 s).
Proof.
  induction l1 as [|[name k] r IH]; intros l2 s; [reflexivity|]. cbn. apply IH.
Qed.

Lemma total_size_app l1 : forall l2, total_size (l1 ++ l2) = total_size l1 + total_size l2.
Proof.
  induction l1 as [|[name k] r IH]; intros l2; cbn [app total_size]; [lia|].
  rewrite IH. lia.
Qed.

(** An allocation leaves a terminator right at the new offset. *)
Lemma allocated_terminated name k s :
  reg_inv s -> fits name ->
  data (seg (allocated name k s)) (hdr_offset (val (seg (allocated name k s)))) = NUL.
Proof.
  intros I F.
  pose proof (next_offset_fits s name I F) as Hoff.
  pose proof (strlen_nonneg name) as Hn.
  unfold allocated.
  set (new_hdr := next_hdr (val (seg s)) (entry_size_of name)) in *.
  assert (Hv : forall t : state,
            val (seg (if hdr_offset new_hdr >=? uftrace_symtab_size (map_ s)
                      then grown (set_seg (seg_val new_hdr) t)
                      else set_seg (seg_val new_hdr) t)) = new_hdr)
    by (intros t; destruct (hdr_offset new_hdr >=? _); reflexivity).
  cbn [seg set_seg seg_data val data]. rewrite Hv, Hoff.
  rewrite (entry_bytes_fits _ k name F).
  unfold store_bytes. rewrite blen_app, sym_line_blen. fold (strlen name).
  change (blen [NUL]) with 1.
  replace (hdr_offset (val (seg s)) <=? hdr_offset (val (seg s)) + (strlen name + 20))
    with true by (symmetry; apply Z.leb_le; lia).
  replace (hdr_offset (val (seg s)) + (strlen name + 20)
           <? hdr_offset (val (seg s)) + (strlen name + 20 + 1))
    with true by (symmetry; apply Z.ltb_lt; lia).
  cbn [andb].
  rewrite app_nth2.
  - replace (Z.to_nat (hdr_offset (val (seg s)) + (strlen name + 20) - hdr_offset (val (seg s)))
             - List.length (sym_line (hdr_count new_hdr) (kind_char k) (c_str name)))%nat
      with 0%nat; [reflexivity|].
    pose proof (sym_line_blen (hdr_count new_hdr) (kind_char k) (c_str name)) as Hb.
    unfold blen in Hb. fold (blen (c_str name)) in Hb. fold (strlen name) in Hb. lia.
  - pose proof (sym_line_blen (hdr_count new_hdr) (kind_char k) (c_str name)) as Hb.
    unfold blen in Hb. fold (blen (c_str name)) in Hb. fold (strlen name) in Hb. lia.
Qed.

(** In one process the file never holds a terminator: each NUL that
    [snprintf] stores after an entry is overwritten by the first byte of
    the next entry, and the last one lies at the table's offset, past
    what is copied.  Whatever the names, the file written after any run
    of allocations on a fresh table is free of NUL bytes. *)
Theorem symbol_file_has_no_terminator e symtab_name dirname l s :
  shm_open_ok e = true ->
  Forall (fun p => fits (fst p)) l ->
  room e (UFTRACE_PYTHON_SYMTAB_HDRSZ + total_size l) ->
  fopen_ok e (symtab_path symtab_name dirname) = true ->
  writes_well e ->
  exists s1 s2 s3 f,
    init_symtab e s = Ok tt s1
    /\ alloc_all e l s1 = Ok (addrs 0 l) s2
    /\ data (seg s2) (hdr_offset (val (seg s2))) = NUL
    /\ write_symtab e symtab_name dirname s2 = Ok tt s3
    /\ lookup_file (symtab_path symtab_name dirname) (files s3) = Some f
    /\ Forall (fun b => b <> NUL) f.
Proof.
  intros Ho F R Hf W.
  pose proof (total_size_nonneg l) as Ht.
  destruct (init_symtab_ok e s Ho) as (s1 & E1 & T1 & _).
  { destruct R as [_ R]. unfold UFTRACE_PYTHON_SYMTAB_SIZE, UFTRACE_PYTHON_SYMTAB_HDRSZ in *.
    lia. }
  assert (R1 : room e (hdr_offset (val (seg s1)) + total_size l)).
  { rewrite (tab_offset _ _ _ T1). change (blen []) with 0. rewrite Z.add_0_r. exact R. }
  destruct (alloc_all_ok e l s1 0 [] T1 F R1) as [E2 T2].
  rewrite app_nil_l in T2.
  set (s2 := allocated_all l s1) in *.
  assert (Hterm : data (seg s2) (hdr_offset (val (seg s2))) = NUL).
  { destruct (last_or_nil l) as [->|(l' & [name k] & ->)].
    - apply (init_symtab_zeroes _ _ _ E1).
    - unfold s2. rewrite allocated_all_app. cbn [allocated_all].
      apply Forall_app in F. destruct F as [F' Fx].
      inversion Fx as [|? ? Fn _]; subst. cbn [fst] in Fn.
      rewrite total_size_app in R1. cbn [total_size] in R1.
      pose proof (strlen_nonneg name) as Hn.
      destruct (alloc_all_ok e l' s1 0 [] T1 F') as [_ T'].
      { destruct R1 as [Ra Rb]. split; lia. }
      apply allocated_terminated; [apply (tab_inv _ _ _ T')|exact Fn]. }
  pose proof (tab_inv _ _ _ T2) as I.
  pose proof (inv_offset s2 I) as Hoff. pose proof (inv_length s2 I) as Hl.
  destruct (write_symtab_written e symtab_name dirname s2 (inv_mapped s2 I))
    as (s3 & E3 & Hfile & _); try assumption; try lia.
  exists s1, s2, s3. eexists.
  split; [exact E1|]. split; [exact E2|]. split; [exact Hterm|].
  split; [exact E3|]. split; [exact Hfile|].
  rewrite (tab_offset _ _ _ T2).
  replace (Z.to_nat (UFTRACE_PYTHON_SYMTAB_HDRSZ + blen (lines 0 l)
                     - UFTRACE_PYTHON_SYMTAB_HDRSZ))
    with (List.length (lines 0 l)) by (unfold blen; lia).
  rewrite (tab_bytes _ _ _ T2). unfold symtab_file.
  apply Forall_app. split; [apply header_comment_no_nul|].
  apply Forall_app. split; [apply lines_no_nul|].
  unfold sym_end_line. apply sym_line_no_nul; [discriminate|].
  repeat constructor; discriminate.
Qed.

Lemma symbol_file_has_no_terminator_witness :
  exists s1 s2 s3 f,
    init_symtab fair_env boot_state = Ok tt s1
    /\ alloc_all fair_env [("a", true); ("b", true); ("c", false)]%string s1
       = Ok (addrs 0 [("a", true); ("b", true); ("c", false)]%string) s2
    /\ data (seg s2) (hdr_offset (val (seg s2))) = NUL
    /\ write_symtab fair_env "python.fake" "." s2 = Ok tt s3
    /\ lookup_file (symtab_path "python.fake" ".") (files s3) = Some f
    /\ Forall (fun b => b <> NUL) f.
Proof.
  apply (symbol_file_has_no_terminator fair_env "python.fake" "."
           [("a", true); ("b", true); ("c", false)]%string boot_state).
  - reflexivity.
  - repeat constructor; unfold fits; vm_compute; discriminate.
  - vm_compute. split; [reflexivity|discriminate].
  - reflexivity.
  - vm_compute. split; reflexivity.
Defined.

(** ** The code tree as a map *)

Lemma lookup_code_in l : forall c a,
  descending l -> (lookup_code c l = Some a <-> In (c, a) l).
Proof.
  induction l as [|[c' a'] r IH]; intros c a D; simpl.
  - split; [discriminate|contradiction].
  - destruct D as [F D]. destruct (c' =? c) eqn:E.
    + apply Z.eqb_eq in E. subst c'. split.
      * intros H. injection H as <-. left. reflexivity.
      * intros [H|H]; [injection H as <-; reflexivity|].
        rewrite Forall_forall in F. specialize (F _ H). cbn [fst] in F. plia.
    + apply Z.eqb_neq in E. rewrite (IH c a D). split.
      * intros H. right. exact H.
      * intros [H|H]; [injection H as -> _; contradiction|exact H].
Qed.

(** The code tree as a map from code pointers to addresses: in a search
    tree the descent finds exactly the nodes of the tree; linking a new
    node where the descent ended, and rebalancing, adds that node and
    changes no other lookup. *)
Theorem code_tree_insert_lookup rbc t c a :
  (forall t, rb_inorder (rbc t) = rb_inorder t) ->
  descending (rb_inorder t) ->
  rb_find t c = None ->
  let t' := rbc (rb_link t c a) in
  descending (rb_inorder t')
  /\ (forall c' a', rb_find t' c' = Some a' <-> In (c', a') (rb_inorder t'))
  /\ (forall c', rb_find t' c' = if c =? c' then Some a else rb_find t c')
  /\ (forall p, In p (rb_inorder t') <-> p = (c, a) \/ In p (rb_inorder t)).
Proof.
  intros Hrb D Hm t'.
  assert (D' : descending (rb_inorder t')) by (apply rb_insert_descending; assumption).
  split; [exact D'|]. split; [|split].
  - intros c' a'. rewrite rb_find_inorder by exact D'. apply lookup_code_in, D'.
  - intros c'. apply rb_find_insert; assumption.
  - intros p. unfold t'. rewrite Hrb. apply rb_link_inorder; assumption.
Qed.

Lemma code_tree_insert_lookup_witness :
  let t := rb_node rb_nil 200 1 rb_nil in
  let t' := keep_shape (rb_link t 500 2) in
  descending (rb_inorder t')
  /\ (forall c' a', rb_find t' c' = Some a' <-> In (c', a') (rb_inorder t'))
  /\ (forall c', rb_find t' c' = if 500 =? c' then Some 2 else rb_find t c')
  /\ (forall p, In p (rb_inorder t') <-> p = (500, 2) \/ In p (rb_inorder t)).
Proof.
  apply (code_tree_insert_lookup keep_shape (rb_node rb_nil 200 1 rb_nil) 500 2).
  - reflexivity.
  - vm_compute. split; [constructor|exact I].
  - reflexivity.
Defined.

(** ** Addresses in the cache *)

Lemma write_sym_result e old_hdr new_hdr name k s a s' :
  write_sym e old_hdr new_hdr name k s = Ok a s' -> a = hdr_count new_hdr.
Proof.
  unfold write_sym, bind, get, ret. intros H.
  repeat match type of H with
         | context [match ?x with _ => _ end] => destruct x; try discriminate
         end.
  injection H as <- _. reflexivity.
Qed.

(** A call that returns has advanced the header by one entry and
    returns the new count. *)
Lemma get_new_sym_addr_count e name k s a s' :
  get_new_sym_addr e name k s = Ok a s' ->
  val (seg s') = next_hdr (val (seg s)) (entry_size_of name)
  /\ a = hdr_count (val (seg s')).
Proof.
  intros H.
  destruct (symtab (map_ s)) eqn:Hm.
  - rewrite get_new_sym_addr_unfold in H by exact Hm.
    pose proof (write_sym_keeps_val e (val (seg s))
                  (next_hdr (val (seg s)) (entry_size_of name)) name k
                  (set_seg (seg_val (next_hdr (val (seg s)) (entry_size_of name))) s)) as V.
    rewrite H in V. cbn [final_state] in V. cbn [val seg set_seg seg_val] in V.
    rewrite V. split; [reflexivity|]. apply (write_sym_result _ _ _ _ _ _ _ _ H).
  - unfold get_new_sym_addr, bind, guard_mapped in H. rewrite Hm in H. discriminate.
Qed.

(** While the counter is below its last value, a resolution keeps the
    cache sound: the tree stays a search tree, every cached address is
    one the table has handed out, and no two code objects share an
    address. *)
Theorem resolution_keeps_addresses_apart e h rbc frame x k s a s' :
  (forall t, rb_inorder (rbc t) = rb_inorder t) ->
  cache_ok s -> cache_bound s -> cache_inj s ->
  hdr_count (val (seg s)) + 1 < 2 ^ 32 ->
  convert_function_addr e h rbc frame x k s = Ok a s' ->
  cache_ok s' /\ cache_bound s' /\ cache_inj s'.
Proof.
  intros Hrb Hok Hb Hi Hc H.
  destruct (convert_stable e h rbc Hrb _ _ _ _ _ _ Hok H) as (Hok' & _ & _).
  split; [exact Hok'|].
  apply convert_cases in H.
  destruct H as [(_ & _ & ->)|[(_ & _ & ->)|[(_ & _ & _ & _ & ->)
                |(_ & Hm & name & s1 & _ & Ea & ->)]]]; auto.
  destruct (get_new_sym_addr_count _ _ _ _ _ _ Ea) as (Hv & Hcount).
  apply get_new_sym_addr_frame in Ea. destruct Ea as (Ha & _).
  pose proof (hdr_count_range (val (seg s))) as Hr.
  assert (Hnew : a = hdr_count (val (seg s)) + 1).
  { rewrite Hcount, Hv, next_hdr_count. apply wrap32_small. lia. }
  assert (Hfind : forall c0,
            rb_find (rbc (rb_link (code_tree (adp s)) (code_of h frame x k) a)) c0
            = if code_of h frame x k =? c0 then Some a else rb_find (code_tree (adp s)) c0).
  { intros c0. apply rb_find_insert; assumption. }
  unfold cache_bound, cache_inj, issued in *.
  cbn [adp set_adp code_tree adp_tree seg]. rewrite Ha.
  split.
  - intros c0 a0. rewrite Hfind, <- Hcount.
    destruct (code_of h frame x k =? c0).
    + intros E. injection E as <-. lia.
    + intros E. specialize (Hb c0 a0 E). lia.
  - intros c1 c2 a0. rewrite !Hfind.
    destruct (code_of h frame x k =? c1) eqn:E1;
      destruct (code_of h frame x k =? c2) eqn:E2; intros F1 F2.
    + apply Z.eqb_eq in E1, E2. congruence.
    + injection F1 as <-. specialize (Hb c2 a F2). lia.
    + injection F2 as <-. specialize (Hb c1 a F1). lia.
    + apply (Hi c1 c2 a0 F1 F2).
Qed.

Lemma resolution_keeps_addresses_apart_witness :
  cache_ok after_foo /\ cache_bound after_foo /\ cache_inj after_foo.
Proof.
  apply (resolution_keeps_addresses_apart fair_env demo_heap keep_shape 100 0 true
           active 1 after_foo).
  - reflexivity.
  - exact I.
  - intros c a H. discriminate H.
  - intros c1 c2 a H. discriminate H.
  - vm_compute. reflexivity.
  - reflexivity.
Defined.

(** Address 0 stands for a function without a name and for nothing
    else: a resolution returns 0 exactly when the frame has no code
    object or the name functions give no name. *)
Theorem zero_address_means_unnamed e h rbc frame x k s :
  cache_bound s ->
  hdr_count (val (seg s)) + 1 < 2 ^ 32 ->
  (exists s', convert_function_addr e h rbc frame x k s = Ok 0 s')
  <-> unnamed h frame x k s.
Proof.
  intros Hb Hc. split.
  - intros (s' & H).
    pose proof (hdr_count_range (val (seg s))) as Hr.
    apply convert_cases in H. unfold unnamed.
    destruct H as [(Hn & _ & _)|[(_ & Hi & _)|[(Hn & Hm & Hf & _ & _)
                  |(_ & _ & name & s1 & _ & Ea & _)]]].
    + left. exact Hn.
    + specialize (Hb _ _ Hi). lia.
    + right. auto.
    + destruct (get_new_sym_addr_count _ _ _ _ _ _ Ea) as (Hv & Hcount).
      rewrite Hv, next_hdr_count, wrap32_small in Hcount by lia. lia.
  - intros [Hn|(Hn & Hm & Hf)]; exists s.
    + apply convert_no_code, Hn.
    + apply convert_no_name; assumption.
Qed.

Lemma zero_address_means_unnamed_witness :
  (exists s', convert_function_addr fair_env demo_heap keep_shape 600 0 true active = Ok 0 s')
  <-> unnamed demo_heap 600 0 true active.
Proof.
  apply (zero_address_means_unnamed fair_env demo_heap keep_shape 600 0 true active).
  - intros c a H. discriminate H.
  - vm_compute. reflexivity.
Defined.

(** ** Names *)

(** The name of a Python function: the module's name, a dot and the
    function's name; the module is left out for functions of
    [__main__], but not for the body of [__main__] itself, and when the
    frame gives no module name.  A code object without a name object
    has no name. *)
Theorem python_name_rule h frame code s :
  (code_name h code = NULL -> get_python_funcname h frame code s = Ok None s)
  /\ (forall q, string_at h (code_name h code) = Some q ->
      get_python_funcname h frame code s
      = Ok (Some match module_name h frame with
                 | Some m =>
                     if streq m "__main__" && negb (streq q "<module>")
                     then strdup q else dotted m q
                 | None => strdup q
                 end) s).
Proof.
  unfold get_python_funcname, module_name, string_at, strdup.
  fold (code_name h code).
  set (n := code_name h code).
  set (g := PyObject_GetAttrString h frame "f_globals").
  split.
  - intros Hn. rewrite Hn. change (NULL =? NULL) with true.
    rewrite andb_false_r. reflexivity.
  - intros q. destruct (n =? NULL) eqn:En; [discriminate|].
    destruct (ob_type (h n)) eqn:Tn; try discriminate.
    intros Hq. injection Hq as ->.
    assert (Gn : get_c_string h n s = Ok (Some q) s)
      by (unfold get_c_string; rewrite En, Tn; reflexivity).
    destruct (g =? NULL) eqn:Eg; cbn [negb andb].
    + unfold bind at 1. unfold ret at 1. unfold bind. rewrite Gn. reflexivity.
    + set (m := PyDict_GetItemString h g "__name__").
      unfold bind at 1. unfold bind at 1. rewrite Gn.
      destruct (m =? NULL) eqn:Em; cbn [negb andb].
      * unfold ret at 1. unfold bind. rewrite Gn. reflexivity.
      * unfold is_string_type. destruct (ob_type (h m)) eqn:Tm;
          try (unfold ret at 1; unfold bind; rewrite Gn; reflexivity).
        assert (Gm : get_c_string h m s = Ok (Some s0) s)
          by (unfold get_c_string; rewrite Em, Tm; reflexivity).
        unfold bind at 1. unfold bind at 1. rewrite Gm. cbn [deref]. unfold ret at 1.
        destruct (streq s0 "__main__"); cbn [negb andb].
        -- unfold bind at 1. unfold ret at 1.
           destruct (streq q "<module>"); cbn [negb].
           ++ reflexivity.
           ++ unfold ret at 1. unfold bind. rewrite Gn. reflexivity.
        -- reflexivity.
Qed.

Lemma python_name_rule_witness :
  get_python_funcname demo_heap 100 200 active = Ok (Some "mymod.foo"%string) active
  /\ get_python_funcname demo_heap 600 610 active = Ok None active.
Proof.
  split.
  - apply (proj2 (python_name_rule demo_heap 100 200 active) "foo"%string). reflexivity.
  - apply (proj1 (python_name_rule demo_heap 600 610 active)). reflexivity.
Defined.

(** The name of a C function always carries a module: the function's
    own [m_module] when that is a string, [builtins] otherwise.  An
    object that is not a C function has no name; a C function without
    a name object is an invalid access. *)
Theorem c_name_rule h frame code s :
  (PyCFunction_Check h code = false -> get_c_funcname h frame code s = Ok None s)
  /\ (PyCFunction_Check h code = true ->
      (cfunc_name h code = NULL -> get_c_funcname h frame code s = Fault s)
      /\ forall q, string_at h (cfunc_name h code) = Some q ->
           get_c_funcname h frame code s
           = Ok (Some (dotted match string_at h (cfunc_m_module h code) with
                              | Some m => m
                              | None => "builtins"%string
                              end q)) s).
Proof.
  unfold get_c_funcname, string_at. fold (cfunc_name h code).
  set (n := cfunc_name h code). set (m := cfunc_m_module h code).
  split; [intros ->; reflexivity|].
  intros ->. cbn [negb]. split.
  - intros ->.
    assert (Gn : get_c_string h NULL s = Fault s) by reflexivity.
    destruct (m =? NULL) eqn:Em; cbn [negb andb].
    + unfold bind. rewrite Gn. reflexivity.
    + unfold is_string_type. destruct (ob_type (h m)) eqn:Tm;
        try (unfold bind; rewrite Gn; reflexivity).
      unfold bind. unfold get_c_string at 1. rewrite Em, Tm. cbn [ret deref].
      rewrite Gn. reflexivity.
  - intros q. destruct (n =? NULL) eqn:En; [discriminate|].
    destruct (ob_type (h n)) eqn:Tn; try discriminate.
    intros Hq. injection Hq as ->.
    assert (Gn : get_c_string h n s = Ok (Some q) s)
      by (unfold get_c_string; rewrite En, Tn; reflexivity).
    destruct (m =? NULL) eqn:Em; cbn [negb andb].
    + unfold bind. rewrite Gn. reflexivity.
    + unfold is_string_type. destruct (ob_type (h m)) eqn:Tm;
        try (unfold bind; rewrite Gn; reflexivity).
      unfold bind. unfold get_c_string at 1. rewrite Em, Tm. cbn [ret deref].
      rewrite Gn. reflexivity.
Qed.

Lemma c_name_rule_witness :
  get_c_funcname demo_heap 400 500 active = Ok (Some "builtins.len"%string) active
  /\ get_c_funcname demo_heap 400 410 active = Ok None active.
Proof.
  split.
  - apply (proj2 (proj2 (c_name_rule demo_heap 400 500 active) eq_refl) "len"%string).
    reflexivity.
  - apply (proj1 (c_name_rule demo_heap 400 410 active)). reflexivity.
Defined.

(** ** What an event does *)

(** What one invocation of the callback does, by kind of event, when it
    returns: a dropped event and an event of another name change
    nothing but the recorded root frame; an exit event calls the exit
    hook once with (0, 0) and leaves table and code tree alone; an enter
    event resolves its code object and calls the enter hook once with
    the address. *)
Theorem one_hook_call_per_event e h rbc frame event x s r s' :
  uftrace_trace_python e h rbc (Some (frame, event, x)) s = Ok r s' ->
  if skipped frame s then r = Py_None /\ s' = seen frame s
  else if is_enter event then
    exists a s1,
      convert_function_addr e h rbc frame x (streq event "call") (seen frame s) = Ok a s1
      /\ s' = log_hook (Enter a 0) s1
  else if is_exit event then s' = log_hook (Exit 0 0) (seen frame s)
  else s' = seen frame s.
Proof.
  rewrite trace_unfold. destruct (skipped frame s).
  - intros H. injection H as <- <-. auto.
  - unfold trace_event, is_enter, is_exit. unfold bind at 1.
    destruct (streq event "call" || streq event "c_call").
    + unfold bind at 1.
      destruct (convert_function_addr e h rbc frame x (streq event "call") (seen frame s))
        as [a s1| | |]; try discriminate.
      unfold call_enter. destruct (cygprof_enter (adp s1) =? NULL); [discriminate|].
      unfold get_trace_function. cbn [adp log_hook].
      destruct (trace_func (adp s1)); intros H; injection H as _ <-;
        exists a, s1; auto.
    + unfold call_exit, get_trace_function, ret.
      destruct (streq event "return" || streq event "c_return"); cbn [orb];
        [|destruct (streq event "c_exception")];
        try (destruct (cygprof_exit (adp (seen frame s)) =? NULL); [discriminate|]);
        cbn [adp log_hook];
        destruct (trace_func (adp (seen frame s))); intros H; injection H as _ <-;
        reflexivity.
Qed.

Lemma one_hook_call_per_event_witness :
  let s' := final_state (uftrace_trace_python fair_env demo_heap keep_shape
                           (Some (400, "c_exception"%string, 500)) after_len) in
  s' = log_hook (Exit 0 0) (seen 400 after_len).
Proof.
  intros s'.
  apply (one_hook_call_per_event fair_env demo_heap keep_shape 400 "c_exception" 500
           after_len (Py_Object 7000) s').
  reflexivity.
Defined.

(** ** Events without hooks *)

Lemma seen_hooks frame s :
  cygprof_enter (adp (seen frame s)) = cygprof_enter (adp s)
  /\ cygprof_exit (adp (seen frame s)) = cygprof_exit (adp s)
  /\ hook_log (seen frame s) = hook_log s
  /\ handle_of (seen frame s) = handle_of s.
Proof. unfold seen. destruct (first_frame (adp s) =? NULL); repeat split. Qed.

Lemma enter_needs_hook e h rbc frame event x s :
  is_enter event = true ->
  cygprof_enter (adp s) = NULL ->
  forall r s', trace_event e h rbc frame event x s <> Ok r s'.
Proof.
  intros Hen He r s'. unfold trace_event, is_enter in *. rewrite Hen.
  unfold bind at 1. unfold bind at 1.
  destruct (convert_function_addr e h rbc frame x (streq event "call") s)
    as [a s1| | |] eqn:Ec; try discriminate.
  destruct (convert_keeps_adapter _ _ _ _ _ _ _ _ _ Ec) as (_ & H1 & _).
  unfold call_enter. rewrite H1, He. discriminate.
Qed.

Lemma exit_needs_hook e h rbc frame event x s :
  is_enter event = false -> is_exit event = true ->
  cygprof_exit (adp s) = NULL ->
  trace_event e h rbc frame event x s = Fault s.
Proof.
  intros Hen Hex Hx. unfold trace_event, is_enter, is_exit in *. rewrite Hen.
  unfold bind at 1.
  destruct (streq event "return" || streq event "c_return"); cbn [orb] in Hex;
    [|rewrite Hex]; unfold call_exit; rewrite Hx; reflexivity.
Qed.

(** Without resolved hooks no enter or exit event that is dispatched
    returns: the call goes through a null function pointer.  An exit
    event stops there with nothing changed. *)
Theorem dispatch_needs_hooks e h rbc frame event x s :
  skipped frame s = false ->
  cygprof_enter (adp s) = NULL ->
  cygprof_exit (adp s) = NULL ->
  (is_enter event = true ->
   forall r s', uftrace_trace_python e h rbc (Some (frame, event, x)) s <> Ok r s')
  /\ (is_enter event = false -> is_exit event = true ->
      uftrace_trace_python e h rbc (Some (frame, event, x)) s = Fault (seen frame s)).
Proof.
  intros Hs He Hx.
  destruct (seen_hooks frame s) as (He' & Hx' & _).
  rewrite trace_unfold, Hs. split.
  - intros Hen. apply enter_needs_hook; [exact Hen|]. rewrite He'. exact He.
  - intros Hen Hex. apply exit_needs_hook; [exact Hen|exact Hex|]. rewrite Hx'. exact Hx.
Qed.

Lemma dispatch_needs_hooks_witness :
  let s := set_adp (adp_first_frame 900) loaded_plain in
  (forall r s', uftrace_trace_python plain_env demo_heap keep_shape
                  (Some (100, "call"%string, 0)) s <> Ok r s')
  /\ uftrace_trace_python plain_env demo_heap keep_shape (Some (100, "return"%string, 0)) s
     = Fault (seen 100 s).
Proof.
  intros s. split.
  - apply (proj1 (dispatch_needs_hooks plain_env demo_heap keep_shape 100 "call" 0 s
                    eq_refl eq_refl eq_refl)). reflexivity.
  - apply (proj2 (dispatch_needs_hooks plain_env demo_heap keep_shape 100 "return" 0 s
                    eq_refl eq_refl eq_refl)); reflexivity.
Defined.

Lemma table_ext s1 s2 c bs :
  seg s2 = seg s1 -> map_ s2 = map_ s1 -> table s1 c bs -> table s2 c bs.
Proof.
  intros Hs Hm [[I1 I2 I3 I4 I5 I6] T2 T3 T4 T5 T6].
  split; [split|..]; rewrite ?Hs, ?Hm; assumption.
Qed.

(** A session in which the scan resolves neither hook starts without a
    word: the module is initialised, the table is set up and nothing is
    reported.  The interpreter's first event, on its root frame, is
    dropped; after it no enter or exit event on another frame
    returns. *)
Theorem missing_libmcount_is_not_reported e h rbc f f0 event0 x0 frame event x :
  env_UFTRACE_SHMEM e = true ->
  shm_open_ok e = true ->
  UFTRACE_PYTHON_SYMTAB_SIZE <= shm_limit e ->
  libmcount_hooks e = (NULL, NULL) ->
  f0 <> NULL -> frame <> f0 ->
  (is_enter event || is_exit event) = true ->
  exists s1 s2,
    PyInit_uftrace_python e f boot_state = Ok tt s1
    /\ table s1 0 []
    /\ warn_log s1 = []
    /\ uftrace_trace_python e h rbc (Some (f0, event0, x0)) s1 = Ok Py_None s2
    /\ forall r s', uftrace_trace_python e h rbc (Some (frame, event, x)) s2 <> Ok r s'.
Proof.
  intros Hsh Ho Hl Hh Hf0 Hfr Hev.
  set (s0 := set_adp (adp_module f true) boot_state).
  set (sd := if env_UFTRACE_DEBUG e then set_debug true s0 else s0).
  destruct (init_symtab_ok e sd Ho Hl) as (si & Ei & Ti & _ & _ & Ai & _ & Wi).
  set (s1 := set_adp (fun a =>
    {| code_tree := code_tree a; first_frame := first_frame a;
       skip_first_frame := skip_first_frame a;
       cygprof_enter := fst (libmcount_hooks e);
       cygprof_exit := snd (libmcount_hooks e);
       trace_func := trace_func a |}) si).
  assert (Hadp : adp sd = adp s0) by (unfold sd; destruct (env_UFTRACE_DEBUG e); reflexivity).
  assert (Hwarn : warn_log sd = []) by (unfold sd; destruct (env_UFTRACE_DEBUG e); reflexivity).
  assert (E1 : PyInit_uftrace_python e f boot_state = Ok tt s1).
  { unfold PyInit_uftrace_python, init_uftrace. rewrite Hsh. cbn [negb].
    unfold bind at 1. cbn [modify]. fold s0. unfold bind at 1.
    replace ((if env_UFTRACE_DEBUG e then modify (set_debug true) else ret tt) s0)
      with (Ok tt sd) by (unfold sd; destruct (env_UFTRACE_DEBUG e); reflexivity).
    unfold bind at 1. rewrite Ei. reflexivity. }
  assert (Hroot : first_frame (adp s1) = NULL /\ skip_first_frame (adp s1) = true
                  /\ cygprof_enter (adp s1) = NULL /\ cygprof_exit (adp s1) = NULL).
  { unfold s1. cbn [adp set_adp first_frame skip_first_frame cygprof_enter cygprof_exit].
    rewrite Ai, Hadp, Hh. repeat split. }
  destruct Hroot as (R1 & R2 & R3 & R4).
  set (s2 := set_adp (adp_first_frame f0) s1).
  assert (Hseen : seen f0 s1 = s2) by (unfold seen; rewrite R1; reflexivity).
  exists s1, s2. split; [exact E1|].
  split; [apply (table_ext si); [reflexivity|reflexivity|exact Ti]|].
  split; [unfold s1; cbn [warn_log set_adp]; rewrite Wi; exact Hwarn|].
  split.
  - rewrite trace_unfold. unfold skipped. rewrite Hseen.
    unfold s2. cbn [adp set_adp adp_first_frame skip_first_frame first_frame].
    rewrite R2, Z.eqb_refl. reflexivity.
  - intros r s'. rewrite trace_unfold.
    assert (Hseen2 : seen frame s2 = s2).
    { unfold seen, s2. cbn [adp set_adp adp_first_frame first_frame].
      apply Z.eqb_neq in Hf0. rewrite Hf0. reflexivity. }
    unfold skipped. rewrite Hseen2.
    replace (frame =? first_frame (adp s2)) with false
      by (symmetry; apply Z.eqb_neq; exact Hfr).
    rewrite andb_false_r.
    destruct (is_enter event) eqn:Hen.
    + apply enter_needs_hook; [exact Hen|exact R3].
    + cbn [orb] in Hev. rewrite exit_needs_hook by assumption. discriminate.
Qed.

Lemma missing_libmcount_is_not_reported_witness :
  exists s1 s2,
    PyInit_uftrace_python hookless_env 7000 boot_state = Ok tt s1
    /\ table s1 0 []
    /\ warn_log s1 = []
    /\ uftrace_trace_python hookless_env demo_heap keep_shape
         (Some (900, "call"%string, 0)) s1 = Ok Py_None s2
    /\ forall r s', uftrace_trace_python hookless_env demo_heap keep_shape
                      (Some (100, "call"%string, 0)) s2 <> Ok r s'.
Proof.
  apply (missing_libmcount_is_not_reported hookless_env demo_heap keep_shape
           7000 900 "call" 0 100 "call" 0).
  - reflexivity.
  - reflexivity.
  - vm_compute. discriminate.
  - reflexivity.
  - discriminate.
  - discriminate.
  - reflexivity.
Defined.

(** ** An enter event for a new function *)

Lemma seen_seg frame s : seg (seen frame s) = seg s.
Proof. unfold seen. destruct (first_frame (adp s) =? NULL); reflexivity. Qed.

Lemma seen_map frame s : map_ (seen frame s) = map_ s.
Proof. unfold seen. destruct (first_frame (adp s) =? NULL); reflexivity. Qed.

Lemma seen_tree frame s : code_tree (adp (seen frame s)) = code_tree (adp s).
Proof. unfold seen. destruct (first_frame (adp s) =? NULL); reflexivity. Qed.

Lemma enter_new_function e h rbc frame event x s c bs name :
  (forall t, rb_inorder (rbc t) = rb_inorder t) ->
  table s c bs -> room e (hdr_offset (val (seg s))) -> cache_ok s ->
  is_enter event = true -> skipped frame s = false ->
  PyObject_GetAttrString h frame "f_code" <> NULL ->
  rb_find (code_tree (adp s)) (code_of h frame x (streq event "call")) = None ->
  funcname h frame (code_of h frame x (streq event "call")) (streq event "call")
    (seen frame s) = Ok (Some name) (seen frame s) ->
  fits name ->
  cygprof_enter (adp s) <> NULL ->
  exists s',
    uftrace_trace_python e h rbc (Some (frame, event, x)) s = Ok (handle_of s) s'
    /\ hook_log s' = hook_log s ++ [Enter (c + 1) 0]
    /\ table s' (c + 1)
         (bs ++ sym_line (c + 1) (kind_char (streq event "call")) (c_str name))
    /\ cache_ok s'
    /\ (forall c0, rb_find (code_tree (adp s')) c0
                   = if code_of h frame x (streq event "call") =? c0 then Some (c + 1)
                     else rb_find (code_tree (adp s)) c0)
    /\ first_frame (adp s') = first_frame (adp (seen frame s))
    /\ cygprof_enter (adp s') = cygprof_enter (adp s)
    /\ files s' = files s.
Proof.
  intros Hrb T R Hok He Hs Hc Hm Hf Hfit Hh.
  set (k := streq event "call") in *. set (code := code_of h frame x k) in *.
  set (s0 := seen frame s) in *.
  assert (T0 : table s0 c bs) by (apply (table_ext s); [apply seen_seg|apply seen_map|exact T]).
  assert (R0 : room e (hdr_offset (val (seg s0)))) by (unfold s0; rewrite seen_seg; exact R).
  destruct (alloc_step e s0 c bs name k T0 Hfit R0) as [Ea Ta].
  pose proof (get_new_sym_addr_frame _ _ _ _ _ _ Ea) as (Ha & Hl & Hfl & _).
  set (s1 := allocated name k s0) in *.
  set (s2 := set_adp (adp_tree (rbc (rb_link (code_tree (adp s1)) code (c + 1)))) s1).
  assert (Ec : convert_function_addr e h rbc frame x k s0 = Ok (c + 1) s2).
  { unfold convert_function_addr. apply Z.eqb_neq in Hc. rewrite Hc.
    unfold bind at 1. unfold get.
    replace (rb_find (code_tree (adp s0))
               (if k then PyObject_GetAttrString h frame "f_code" else x)) with (@None Z).
    2:{ symmetry. unfold s0. rewrite seen_tree. unfold code, code_of in Hm.
        rewrite Hc in Hm. exact Hm. }
    unfold bind at 1. fold (funcname h frame
      (if k then PyObject_GetAttrString h frame "f_code" else x) k).
    unfold code, code_of in Hf. rewrite Hc in Hf. rewrite Hf.
    unfold bind at 1. rewrite Ea. unfold bind, modify, ret.
    unfold s2, code, code_of. rewrite Hc. reflexivity. }
  destruct (seen_hooks frame s) as (Hen & _ & Hlog & Hhand). fold s0 in Hen, Hlog, Hhand.
  exists (log_hook (Enter (c + 1) 0) s2).
  rewrite trace_unfold, Hs. fold s0.
  rewrite (trace_event_enter e h rbc frame event x s0 (c + 1) s2 He Ec).
  2:{ unfold s2. cbn [adp set_adp adp_tree cygprof_enter]. rewrite Ha, Hen. exact Hh. }
  assert (Hh2 : handle_of s2 = handle_of s).
  { unfold s2, handle_of. cbn [adp set_adp adp_tree trace_func]. rewrite Ha.
    exact Hhand. }
  rewrite Hh2. split; [reflexivity|].
  split; [cbn [hook_log log_hook set_adp]; unfold s2; cbn [hook_log set_adp];
          rewrite Hl, Hlog; reflexivity|].
  split; [apply (table_ext s1); [reflexivity|reflexivity|exact Ta]|].
  assert (Hok0 : descending (rb_inorder (code_tree (adp s0))))
    by (unfold s0; rewrite seen_tree; exact Hok).
  assert (Hm0 : rb_find (code_tree (adp s0)) code = None)
    by (unfold s0; rewrite seen_tree; exact Hm).
  unfold cache_ok. cbn [adp log_hook files]. unfold s2.
  cbn [adp set_adp adp_tree code_tree first_frame cygprof_enter files].
  rewrite Ha. split; [apply rb_insert_descending; assumption|].
  split; [intros c0; rewrite rb_find_insert by assumption; unfold s0; rewrite seen_tree;
          reflexivity|].
  split; [reflexivity|]. split; [exact Hen|].
  rewrite Hfl. unfold s0, seen. destruct (first_frame (adp s) =? NULL); reflexivity.
Qed.

(** The whole path of an enter event for a function seen for the first
    time: its name gets the next address and an entry of its kind at the
    end of the table ('T' for [call], 't' for [c_call]), the code
    object is cached under that address, and the enter hook is called
    with it. *)
Theorem first_enter_registers_name e h rbc frame event x s c bs name :
  (forall t, rb_inorder (rbc t) = rb_inorder t) ->
  table s c bs -> room e (hdr_offset (val (seg s))) -> cache_ok s ->
  is_enter event = true -> skipped frame s = false ->
  PyObject_GetAttrString h frame "f_code" <> NULL ->
  rb_find (code_tree (adp s)) (code_of h frame x (streq event "call")) = None ->
  funcname h frame (code_of h frame x (streq event "call")) (streq event "call")
    (seen frame s) = Ok (Some name) (seen frame s) ->
  fits name ->
  cygprof_enter (adp s) <> NULL ->
  exists s',
    uftrace_trace_python e h rbc (Some (frame, event, x)) s = Ok (handle_of s) s'
    /\ hook_log s' = hook_log s ++ [Enter (c + 1) 0]
    /\ table s' (c + 1)
         (bs ++ sym_line (c + 1) (kind_char (streq event "call")) (c_str name))
    /\ issued s' (code_of h frame x (streq event "call")) (c + 1)
    /\ cache_ok s'.
Proof.
  intros Hrb T R Hok He Hs Hc Hm Hf Hfit Hh.
  destruct (enter_new_function e h rbc frame event x s c bs name Hrb T R Hok He Hs Hc Hm
              Hf Hfit Hh) as (s' & E & Hl & T' & Hok' & Hfind & _).
  exists s'. split; [exact E|]. split; [exact Hl|]. split; [exact T'|].
  split; [|exact Hok']. unfold issued. rewrite Hfind, Z.eqb_refl. reflexivity.
Qed.

Lemma first_enter_registers_name_witness :
  exists s',
    uftrace_trace_python fair_env demo_heap keep_shape (Some (400, "c_call"%string, 500))
      after_foo = Ok (handle_of after_foo) s'
    /\ hook_log s' = hook_log after_foo ++ [Enter (1 + 1) 0]
    /\ table s' (1 + 1)
         (sym_line 1 x54 (c_str "mymod.foo")
          ++ sym_line (1 + 1) (kind_char (streq "c_call" "call")) (c_str "builtins.len"))
    /\ issued s' (code_of demo_heap 400 500 (streq "c_call" "call")) (1 + 1)
    /\ cache_ok s'.
Proof.
  apply (first_enter_registers_name fair_env demo_heap keep_shape 400 "c_call" 500
           after_foo 1 (sym_line 1 x54 (c_str "mymod.foo")) "builtins.len").
  - reflexivity.
  - apply (table_ext (allocated "mymod.foo" true active)); [reflexivity|reflexivity|].
    apply (alloc_step fair_env active 0 [] "mymod.foo" true).
    + apply (table_ext fresh_table); [reflexivity|reflexivity|exact fresh_table_table].
    + unfold fits. vm_compute. discriminate.
    + vm_compute. split; [reflexivity|discriminate].
  - vm_compute. split; [reflexivity|discriminate].
  - vm_compute. split; [constructor|exact I].
  - reflexivity.
  - reflexivity.
  - discriminate.
  - reflexivity.
  - reflexivity.
  - unfold fits. vm_compute. discriminate.
  - discriminate.
Defined.

(** ** A whole session *)

Lemma room_le e n m : room e n -> m <= n -> room e m.
Proof. unfold room. intros [H1 H2] H. lia. Qed.

Lemma trace_all_new e h rbc evs : forall s c bs,
  (forall t, rb_inorder (rbc t) = rb_inorder t) ->
  table s c bs -> cache_ok s ->
  first_frame (adp s) <> NULL -> cygprof_enter (adp s) <> NULL ->
  Forall (new_function h (first_frame (adp s))) evs ->
  NoDup (map (ev_code h) evs) ->
  (forall ev, In ev evs -> rb_find (code_tree (adp s)) (ev_code h ev) = None) ->
  room e (hdr_offset (val (seg s)) + total_size (map ev_entry evs)) ->
  exists s1,
    trace_all e h rbc evs s = Ok tt s1
    /\ hook_log s1 = hook_log s ++ map (fun a => Enter a 0) (addrs c (map ev_entry evs))
    /\ table s1 (c + Z.of_nat (List.length evs)) (bs ++ lines c (map ev_entry evs))
    /\ files s1 = files s.
Proof.
  induction evs as [|[[[frame event] x] name] r IH]; intros s c bs Hrb T Hok Hff Hh F D Hm R.
  - exists s. cbn. rewrite Z.add_0_r, !app_nil_r. auto.
  - inversion F as [|? ? Fev Fr]; subst. destruct Fev as (He & Hfr & Hc & Hn & Hfit).
    inversion D as [|? ? Dn Dr]; subst.
    change (map ev_entry ((frame, event, x, name) :: r))
      with ((name, streq event "call") :: map ev_entry r) in R |- *.
    cbn [total_size] in R.
    pose proof (total_size_nonneg (map ev_entry r)) as Htot.
    pose proof (strlen_nonneg name) as Hlen.
    assert (Hseen : seen frame s = s)
      by (unfold seen; apply Z.eqb_neq in Hff; rewrite Hff; reflexivity).
    assert (Hskip : skipped frame s = false).
    { unfold skipped. rewrite Hseen.
      replace (frame =? first_frame (adp s)) with false
        by (symmetry; apply Z.eqb_neq; exact Hfr).
      apply andb_false_r. }
    assert (R0 : room e (hdr_offset (val (seg s)))) by (apply (room_le _ _ _ R); lia).
    destruct (enter_new_function e h rbc frame event x s c bs name Hrb T R0 Hok He Hskip Hc)
      as (s' & E & Hl & T' & Hok' & Hfind & Hff' & Hh' & Hfl'); try assumption.
    { apply (Hm (frame, event, x, name)). left. reflexivity. }
    { rewrite Hseen. apply Hn. }
    rewrite Hseen in Hff'.
    destruct (IH s' (c + 1) (bs ++ sym_line (c + 1) (kind_char (streq event "call")) (c_str name)))
      as (s1 & E1 & Hl1 & T1 & Hfl1); try assumption.
    + rewrite Hff'. exact Hff.
    + rewrite Hh'. exact Hh.
    + rewrite Hff'. exact Fr.
    + intros ev Hev. rewrite Hfind.
      destruct (code_of h frame x (streq event "call") =? ev_code h ev) eqn:Eq.
      * exfalso. apply Dn. apply Z.eqb_eq in Eq. cbn [ev_code]. rewrite Eq.
        apply in_map. exact Hev.
      * apply Hm. right. exact Hev.
    + rewrite (tab_offset _ _ _ T'), blen_app, sym_line_blen.
      rewrite (tab_offset _ _ _ T) in R. fold (strlen name).
      replace (UFTRACE_PYTHON_SYMTAB_HDRSZ + (blen bs + (strlen name + 20))
               + total_size (map ev_entry r))
        with (UFTRACE_PYTHON_SYMTAB_HDRSZ + blen bs
              + (strlen name + 20 + total_size (map ev_entry r))) by lia.
      exact R.
    + exists s1. cbn [trace_all ev_args]. unfold bind. rewrite E. split; [exact E1|].
      cbn [addrs lines List.length map].
      rewrite Hl1, Hl, <- app_assoc. split; [reflexivity|].
      split; [|rewrite Hfl1; exact Hfl'].
      replace (c + Z.of_nat (S (List.length r))) with (c + 1 + Z.of_nat (List.length r))
        by lia.
      rewrite <- app_assoc in T1. exact T1.
Qed.

(** A session from its first traced call to its end: enter events for
    functions not seen before, each with a name, get the next addresses
    in the order of the events, the enter hook is called once for each
    with its address, and the file the destructor writes lists them in
    that order after the entries that were there, between the header
    comment and the end marker. *)
Theorem session_file_lists_functions_in_call_order
    e h rbc symtab_name dir_name evs s c bs :
  let dirname := match env_UFTRACE_DIR e with Some d => d | None => dir_name end in
  (forall t, rb_inorder (rbc t) = rb_inorder t) ->
  table s c bs -> cache_ok s ->
  first_frame (adp s) <> NULL -> cygprof_enter (adp s) <> NULL ->
  Forall (new_function h (first_frame (adp s))) evs ->
  NoDup (map (ev_code h) evs) ->
  (forall ev, In ev evs -> rb_find (code_tree (adp s)) (ev_code h ev) = None) ->
  room e (hdr_offset (val (seg s)) + total_size (map ev_entry evs)) ->
  fopen_ok e (symtab_path symtab_name dirname) = true ->
  writes_well e ->
  exists s1 s2,
    trace_all e h rbc evs s = Ok tt s1
    /\ hook_log s1 = hook_log s ++ map (fun a => Enter a 0) (addrs c (map ev_entry evs))
    /\ uftrace_trace_python_finish e symtab_name dir_name s1 = Ok tt s2
    /\ hook_log s2 = hook_log s1
    /\ lookup_file (symtab_path symtab_name dirname) (files s2)
       = Some (symtab_file symtab_name (c + Z.of_nat (List.length evs))
                 (bs ++ lines c (map ev_entry evs))).
Proof.
  intros dirname Hrb T Hok Hff Hh F D Hm R Hf W.
  destruct (trace_all_new e h rbc evs s c bs Hrb T Hok Hff Hh F D Hm R)
    as (s1 & E1 & Hl1 & T1 & _).
  pose proof (tab_inv _ _ _ T1) as I.
  pose proof (inv_offset s1 I) as Ho. pose proof (inv_length s1 I) as Hl.
  destruct (write_symtab_written e symtab_name dirname s1 (inv_mapped s1 I))
    as (s2 & E2 & Hfile & _ & _ & _ & _ & _ & Hhook & _);
    try assumption; try lia.
  exists s1, s2. split; [exact E1|]. split; [exact Hl1|].
  unfold uftrace_trace_python_finish. fold dirname.
  split; [exact E2|]. split; [exact Hhook|].
  rewrite Hfile, (tab_count _ _ _ T1). do 2 f_equal.
  rewrite (tab_offset _ _ _ T1).
  replace (Z.to_nat (UFTRACE_PYTHON_SYMTAB_HDRSZ + blen (bs ++ lines c (map ev_entry evs))
                     - UFTRACE_PYTHON_SYMTAB_HDRSZ))
    with (List.length (bs ++ lines c (map ev_entry evs))) by (unfold blen; lia).
  apply (tab_bytes _ _ _ T1).
Qed.

Lemma session_file_lists_functions_in_call_order_witness :
  exists s1 s2,
    trace_all fair_env demo_heap keep_shape demo_events active = Ok tt s1
    /\ hook_log s1
       = hook_log active ++ map (fun a => Enter a 0) (addrs 0 (map ev_entry demo_events))
    /\ uftrace_trace_python_finish fair_env "python.fake" "uftrace.data" s1 = Ok tt s2
    /\ hook_log s2 = hook_log s1
    /\ lookup_file (symtab_path "python.fake" "uftrace.data") (files s2)
       = Some (symtab_file "python.fake" (0 + Z.of_nat (List.length demo_events))
                 ([] ++ lines 0 (map ev_entry demo_events))).
Proof.
  apply (session_file_lists_functions_in_call_order fair_env demo_heap keep_shape
           "python.fake" "uftrace.data" demo_events active 0 []).
  - reflexivity.
  - apply (table_ext fresh_table); [reflexivity|reflexivity|exact fresh_table_table].
  - exact I.
  - discriminate.
  - discriminate.
  - repeat constructor; try discriminate; try (intros t; reflexivity);
      unfold fits; vm_compute; discriminate.
  - repeat constructor; cbn; intros H;
      repeat (destruct H as [H|H]; [discriminate H|]); exact H.
  - intros ev Hev. reflexivity.
  - vm_compute. split; [reflexivity|discriminate].
  - reflexivity.
  - vm_compute. split; reflexivity.
Defined.

(** ** The scan for libmcount *)

Lemma set_adp_id s : set_adp (fun a => a) s = s.
Proof. destruct s. reflexivity. Qed.

Lemma set_adp_set_adp f g s : set_adp f (set_adp g s) = set_adp (fun a => f (g a)) s.
Proof. destruct s. reflexivity. Qed.

Lemma for_each_symbol_resolved syms base : forall s,
  for_each_symbol syms base s = Ok tt (set_adp (resolved syms base) s).
Proof.
  induction syms as [|[n v] r IH]; intros s.
  - cbn. unfold ret. rewrite set_adp_id. reflexivity.
  - cbn [for_each_symbol]. unfold bind at 1. unfold bind at 1.
    destruct s as [g m a d f hl wl].
    destruct (streq n "__cyg_profile_func_enter") eqn:E1;
      destruct (streq n "__cyg_profile_func_exit") eqn:E2;
      cbn [modify ret]; unfold bind; cbn [modify ret]; rewrite IH;
      unfold set_adp; cbn [seg map_ adp debug files hook_log warn_log];
      f_equal; f_equal; unfold resolved; cbn [last_symbol]; rewrite E1, E2;
      destruct (last_symbol "__cyg_profile_func_enter" r);
      destruct (last_symbol "__cyg_profile_func_exit" r);
      destruct a; reflexivity.
Qed.

Lemma getline_loop_skips sscanf_maps basename elf_symbols pre : forall rest s,
  forallb (fun l => negb (libmcount_line sscanf_maps basename l)) pre = true ->
  getline_loop sscanf_maps basename elf_symbols (pre ++ rest) s
  = getline_loop sscanf_maps basename elf_symbols rest s.
Proof.
  induction pre as [|l r IH]; intros rest s H; [reflexivity|].
  cbn [forallb] in H. apply andb_true_iff in H. destruct H as [Hl Hr].
  cbn [app getline_loop]. unfold libmcount_line in Hl.
  destruct (sscanf_maps l) as [[[[st en] pr] pa]|].
  - rewrite Hl. apply IH, Hr.
  - apply IH, Hr.
Qed.

(** The scan of [/proc/self/maps] stops at the first line whose path has
    a base name starting with [libmcount]: lines before it that do not
    parse or name another file are passed over, lines after it are
    never read, also when that file cannot be read or lacks the two
    symbols.  Each hook found is the symbol's value plus the start
    address of that mapping; of several symbols of the same name the
    last one counts. *)
Theorem scan_stops_at_first_libmcount sscanf_maps basename elf_symbols
    pre line post start end_ prot path s :
  forallb (fun l => negb (libmcount_line sscanf_maps basename l)) pre = true ->
  sscanf_maps line = Some (start, end_, prot, path) ->
  strncmp_eq (basename path) "libmcount" 9 = true ->
  scan_proc_maps sscanf_maps basename elf_symbols (Some (pre ++ line :: post)) s
  = Ok tt match elf_symbols path with
          | Some syms => set_adp (resolved syms start) s
          | None => s
          end.
Proof.
  intros Hpre Hline Hname. unfold scan_proc_maps.
  rewrite getline_loop_skips by exact Hpre.
  cbn [getline_loop]. rewrite Hline, Hname. cbn [negb].
  unfold find_cygprof_funcs. destruct (elf_symbols path) as [syms|].
  - apply for_each_symbol_resolved.
  - reflexivity.
Qed.

Lemma scan_stops_at_first_libmcount_witness :
  scan_proc_maps demo_sscanf after_last_slash demo_elf (Some demo_maps) boot_state
  = Ok tt (set_adp (resolved [("mcount", 0x3f20); ("__cyg_profile_func_enter", 0x4a10);
                               ("__cyg_profile_func_exit", 0x4b30)]%string
                      0x7f1e3d400000) boot_state).
Proof.
  apply (scan_stops_at_first_libmcount demo_sscanf after_last_slash demo_elf
           (firstn 2 demo_maps) (nth 2 demo_maps EmptyString) (skipn 3 demo_maps)
           0x7f1e3d400000 0x7f1e3d419000 "r-xp" "/usr/lib/libmcount-fast.so" boot_state).
  - reflexivity.
  - reflexivity.
  - reflexivity.
Defined.

(** When no line names libmcount, or the file cannot be opened, the scan
    returns with nothing changed and nothing reported: the hooks stay
    what they were. *)
Theorem scan_without_libmcount sscanf_maps basename elf_symbols maps s :
  match maps with
  | Some lines =>
      forallb (fun l => negb (libmcount_line sscanf_maps basename l)) lines = true
  | None => True
  end ->
  scan_proc_maps sscanf_maps basename elf_symbols maps s = Ok tt s.
Proof.
  destruct maps as [lines|]; [|reflexivity].
  intros H. unfold scan_proc_maps.
  rewrite <- (app_nil_r lines), getline_loop_skips by exact H. reflexivity.
Qed.

Lemma scan_without_libmcount_witness :
  scan_proc_maps demo_sscanf after_last_slash demo_elf (Some (firstn 2 demo_maps)) boot_state
  = Ok tt boot_state.
Proof.
  apply (scan_without_libmcount demo_sscanf after_last_slash demo_elf
           (Some (firstn 2 demo_maps)) boot_state).
  reflexivity.
Defined.

Lemma resolved_fields syms base a :
  code_tree (resolved syms base a) = code_tree a
  /\ first_frame (resolved syms base a) = first_frame a
  /\ skip_first_frame (resolved syms base a) = skip_first_frame a
  /\ trace_func (resolved syms base a) = trace_func a.
Proof.
  unfold resolved.
  destruct (last_symbol "__cyg_profile_func_enter" syms);
    destruct (last_symbol "__cyg_profile_func_exit" syms); repeat split.
Qed.

(** [find_libmcount_funcs] with the outcome of the scan as its answer
    is the scan itself. *)
Lemma find_libmcount_funcs_is_scan e sscanf_maps basename elf_symbols maps s :
  let s' := final_state (scan_proc_maps sscanf_maps basename elf_symbols maps s) in
  libmcount_hooks e = (cygprof_enter (adp s'), cygprof_exit (adp s')) ->
  find_libmcount_funcs e s = scan_proc_maps sscanf_maps basename elf_symbols maps s.
Proof.
  intros s' H.
  assert (Hs : exists f, scan_proc_maps sscanf_maps basename elf_symbols maps s
                         = Ok tt (set_adp f s)
                         /\ code_tree (f (adp s)) = code_tree (adp s)
                         /\ first_frame (f (adp s)) = first_frame (adp s)
                         /\ skip_first_frame (f (adp s)) = skip_first_frame (adp s)
                         /\ trace_func (f (adp s)) = trace_func (adp s)).
  { assert (Hid : exists f, Ok tt s = Ok tt (set_adp f s)
                         /\ code_tree (f (adp s)) = code_tree (adp s)
                         /\ first_frame (f (adp s)) = first_frame (adp s)
                         /\ skip_first_frame (f (adp s)) = skip_first_frame (adp s)
                         /\ trace_func (f (adp s)) = trace_func (adp s))
      by (exists (fun a => a); rewrite set_adp_id; repeat split).
    destruct maps as [lines|]; [|exact Hid].
    unfold scan_proc_maps. clear s' H. induction lines as [|l r IH]; [exact Hid|].
    cbn [getline_loop]. destruct (sscanf_maps l) as [[[[st en] pr] pa]|]; [|exact IH].
    destruct (negb (strncmp_eq (basename pa) "libmcount" 9)); [exact IH|].
    unfold find_cygprof_funcs. destruct (elf_symbols pa) as [syms|]; [|exact Hid].
    exists (resolved syms st). split; [apply for_each_symbol_resolved|].
    apply resolved_fields. }
  destruct Hs as (f & E & H1 & H2 & H3 & H4).
  unfold s' in H. rewrite E in *. cbn [final_state adp set_adp] in H.
  unfold find_libmcount_funcs, modify. rewrite H. cbn [fst snd].
  f_equal. destruct s as [g m a d fl hl wl]. unfold set_adp.
  cbn [seg map_ adp debug files hook_log warn_log] in *. f_equal.
  destruct (f a) as [t ff sk en ex tf]. cbn in *. subst. reflexivity.
Qed.

(** ** Calls of several processes *)

Lemma nth_error_set_nth {A} (l : list A) : forall i j x,
  nth_error (set_nth i x l) j
  = if Nat.eqb i j then match nth_error l j with Some _ => Some x | None => None end
    else nth_error l j.
Proof.
  induction l as [|y r IH]; intros [|i] [|j] x; simpl; try reflexivity;
    try (destruct (Nat.eqb i j); reflexivity).
  apply IH.
Qed.

Lemma stacked_in_strict ls : forall base x,
  stacked base ls -> In x ls -> hdr_offset (g_old x) < hdr_offset (g_new x).
Proof.
  induction ls as [|y r IH]; intros base x S H; simpl in *; [contradiction|].
  destruct S as (S1 & S2 & S3 & S4). destruct H as [<-|H].
  - rewrite S1, S2. pose proof (strlen_nonneg (g_name y)). lia.
  - apply (IH _ _ S4 H).
Qed.

Lemma stacked_counts ls : forall base,
  stacked base ls ->
  hdr_count (last_hdr base ls) = wrap32 (hdr_count base + Z.of_nat (List.length ls))
  /\ hdr_offset base + 20 * Z.of_nat (List.length ls) <= hdr_offset (last_hdr base ls).
Proof.
  induction ls as [|y r IH]; intros base S.
  - simpl. rewrite Z.add_0_r. split; [|lia].
    symmetry. apply wrap32_small, hdr_count_range.
  - simpl in S. destruct S as (S1 & S2 & S3 & S4).
    destruct (IH _ S4) as [C O]. cbn [last_hdr List.length].
    pose proof (strlen_nonneg (g_name y)) as Hn.
    split; [|lia].
    rewrite C, S3. unfold wrap32. rewrite Z.add_mod_idemp_l by lia. f_equal. lia.
Qed.

Lemma stacked_tail l1 : forall base l2,
  stacked base (l1 ++ l2) -> stacked (last_hdr base l1) l2.
Proof.
  induction l1 as [|y r IH]; intros base l2 S; [exact S|].
  simpl in S. destruct S as (_ & _ & _ & S4). apply (IH _ _ S4).
Qed.

Lemma last_hdr_snoc l : forall base x, last_hdr base (l ++ [x]) = g_new x.
Proof. induction l as [|y r IH]; intros base x; simpl; [reflexivity|apply IH]. Qed.

(** Two swaps of one history returned different addresses. *)
Lemma stacked_counts_apart base l1 x l2 y l3 :
  stacked base (l1 ++ x :: l2 ++ y :: l3) ->
  hdr_count (g_new x) <> hdr_count (g_new y).
Proof.
  intros S.
  assert (S' : stacked (g_new x) (l2 ++ [y])).
  { replace (l1 ++ x :: l2 ++ y :: l3) with ((l1 ++ [x]) ++ (l2 ++ [y]) ++ l3) in S
      by (rewrite <- !app_assoc; reflexivity).
    apply stacked_tail in S. rewrite last_hdr_snoc in S.
    clear - S. revert S. generalize (g_new x). generalize (l2 ++ [y]).
    induction l as [|u r IH]; intros b S; simpl in *; [exact I|].
    destruct S as (S1 & S2 & S3 & S4). auto. }
  destruct (stacked_counts _ _ S') as [C O].
  rewrite last_hdr_snoc in C, O. rewrite length_app in C, O. cbn [List.length] in C, O.
  pose proof (hdr_count_range (g_new x)) as Rx.
  pose proof (hdr_offset_range (g_new x)) as Ox.
  pose proof (hdr_offset_range (g_new y)) as Oy.
  set (k := Z.of_nat (List.length l2 + 1)) in *.
  assert (Hk : 0 < k < 2 ^ 32) by (unfold k; lia).
  rewrite C. unfold wrap32. intros E.
  pose proof (Z.div_mod (hdr_count (g_new x) + k) (2 ^ 32)) as D.
  pose proof (Z.mod_pos_bound (hdr_count (g_new x) + k) (2 ^ 32)) as B.
  change (2 ^ 32) with 4294967296 in *. lia.
Qed.

Lemma in_two_split {A} (l : list A) : forall x y,
  In x l -> In y l -> x <> y ->
  (exists l1 l2 l3, l = l1 ++ x :: l2 ++ y :: l3)
  \/ (exists l1 l2 l3, l = l1 ++ y :: l2 ++ x :: l3).
Proof.
  induction l as [|z r IH]; intros x y Hx Hy Hne; [contradiction|].
  destruct Hx as [<-|Hx], Hy as [<-|Hy].
  - contradiction.
  - left. apply in_split in Hy. destruct Hy as (l2 & l3 & ->).
    exists [], l2, l3. reflexivity.
  - right. apply in_split in Hx. destruct Hx as (l2 & l3 & ->).
    exists [], l2, l3. reflexivity.
  - destruct (IH x y Hx Hy Hne) as [(l1 & l2 & l3 & ->)|(l1 & l2 & l3 & ->)].
    + left. exists (z :: l1), l2, l3. reflexivity.
    + right. exists (z :: l1), l2, l3. reflexivity.
Qed.

Lemma step_granted e g p g' p' won :
  step e g p = (g', p', won) ->
  (won = None /\ (granted p' = granted p \/ granted p' = None))
  \/ (exists x, won = Some x /\ granted p' = Some (g_old x, g_new x) /\ g_old x = val g).
Proof.
  unfold step, granted.
  destruct (p_pc p) as [name k|name k old_hdr|name k old_hdr new_hdr|old_hdr new_hdr|] eqn:Hpc.
  - destruct (symtab (p_map p)); intros H; injection H as <- <- <-; left; auto.
  - unfold cas. cbn [val seg view set_seg set_map].
    destruct (val g =? old_hdr) eqn:E; intros H; injection H as <- <- <-.
    + right. eexists. split; [reflexivity|]. cbn [p_pc g_old g_new].
      split; [reflexivity|]. apply Z.eqb_eq in E. symmetry. exact E.
    + left. auto.
  - destruct (write_sym e old_hdr new_hdr name k (view g (p_map p)));
      intros H; injection H as <- <- <-; left; cbn [p_pc]; auto.
  - intros H; injection H as <- <- <-. rewrite Hpc. left. auto.
  - intros H; injection H as <- <- <-. rewrite Hpc. left. auto.
Qed.

Lemma schedule_keeps_owned e v0 w i :
  shared_inv v0 w -> owned w -> owned (schedule e w i).
Proof.
  intros (S & L & _) [A B]. unfold schedule.
  destruct (nth_error (w_procs w) i) as [p|] eqn:Hp; [|split; assumption].
  destruct (step e (w_seg w) p) as [[g' p'] won] eqn:Est.
  apply step_granted in Est.
  assert (Hin : forall x, In x (w_log w) ->
                  In x (w_log w ++ match won with Some x => [x] | None => [] end))
    by (intros x Hx; apply in_or_app; left; exact Hx).
  assert (Hnew : forall j q o n,
            nth_error (set_nth i p' (w_procs w)) j = Some q -> granted q = Some (o, n) ->
            (j = i /\ q = p') \/ (j <> i /\ nth_error (w_procs w) j = Some q)).
  { intros j q o n Hq _. rewrite nth_error_set_nth in Hq.
    destruct (Nat.eqb i j) eqn:Eij.
    - apply Nat.eqb_eq in Eij. subst j. rewrite Hp in Hq. injection Hq as <-. left. auto.
    - apply Nat.eqb_neq in Eij. right. split; [congruence|exact Hq]. }
  assert (Hlow : forall j q o n,
            nth_error (w_procs w) j = Some q -> granted q = Some (o, n) ->
            hdr_offset o < hdr_offset (val (w_seg w))).
  { intros j q o n Hq Hg. destruct (A j q o n Hq Hg) as (y & Hy & <- & _).
    pose proof (stacked_in_strict _ _ _ S Hy).
    destruct (stacked_offsets _ _ S) as [_ O]. destruct (O y Hy) as [_ O2].
    rewrite L in O2. lia. }
  split; cbn [w_procs w_log].
  - intros j q o n Hq Hg.
    destruct (Hnew j q o n Hq Hg) as [[-> ->]|[Hne Hq']].
    + destruct Est as [[-> [E|E]]|(x & -> & E & _)].
      * rewrite E in Hg. destruct (A i p o n Hp Hg) as (y & Hy & Ho & Hn').
        exists y. auto.
      * congruence.
      * rewrite E in Hg. injection Hg as <- <-. exists x. split; [|auto].
        apply in_or_app. right. left. reflexivity.
    + destruct (A j q o n Hq' Hg) as (y & Hy & Ho & Hn'). exists y. auto.
  - intros j1 j2 q1 q2 o n o' n' Hne H1 H2 G1 G2.
    destruct (Hnew _ _ _ _ H1 G1) as [[-> ->]|[Hn1 H1']];
      destruct (Hnew _ _ _ _ H2 G2) as [[-> ->]|[Hn2 H2']].
    + congruence.
    + destruct Est as [[-> [E|E]]|(x & -> & E & Ev)].
      * rewrite E in G1. apply (B i j2 p q2 o n o' n'); assumption.
      * congruence.
      * rewrite E in G1. injection G1 as <- <-.
        pose proof (Hlow _ _ _ _ H2' G2). rewrite Ev. intros <-. lia.
    + destruct Est as [[-> [E|E]]|(x & -> & E & Ev)].
      * rewrite E in G2. apply (B j1 i q1 p o n o' n'); assumption.
      * congruence.
      * rewrite E in G2. injection G2 as <- <-.
        pose proof (Hlow _ _ _ _ H1' G1). rewrite Ev. intros ->. lia.
    + apply (B j1 j2 q1 q2 o n o' n'); assumption.
Qed.

Lemma run_keeps_owned e v0 order : forall w,
  shared_inv v0 w -> owned w -> shared_inv v0 (run e order w) /\ owned (run e order w).
Proof.
  induction order as [|i r IH]; intros w I O; [split; assumption|].
  apply IH; [apply schedule_keeps_inv, I|apply (schedule_keeps_owned e v0), O; exact I].
Qed.

(** Whatever the order in which the processes take their steps, two
    calls that have won their swap hold different addresses and byte
    ranges that do not meet. *)
Theorem concurrent_calls_get_distinct_addresses e order w :
  w_log w = [] ->
  (forall p, In p (w_procs w) -> granted p = None) ->
  hdr_offset (val (w_seg w)) + pending (w_procs w) < 2 ^ 32 ->
  let w' := run e order w in
  forall i j p q o n o' n',
    i <> j ->
    nth_error (w_procs w') i = Some p -> nth_error (w_procs w') j = Some q ->
    granted p = Some (o, n) -> granted q = Some (o', n') ->
    hdr_count n <> hdr_count n'
    /\ (hdr_offset n <= hdr_offset o' \/ hdr_offset n' <= hdr_offset o).
Proof.
  intros Hlog Hnone Hb w' i j p q o n o' n' Hne Hp Hq Gp Gq.
  assert (I : shared_inv (val (w_seg w)) w)
    by (unfold shared_inv; rewrite Hlog; simpl; auto).
  assert (O : owned w).
  { split.
    - intros k r a b Hr Hg. apply nth_error_In in Hr. rewrite (Hnone r Hr) in Hg.
      discriminate.
    - intros k1 k2 r1 r2 a b a' b' _ Hr _ Hg. apply nth_error_In in Hr.
      rewrite (Hnone r1 Hr) in Hg. discriminate. }
  destruct (run_keeps_owned e _ order w I O) as [(S & _) [A B]]. fold w' in S, A, B.
  destruct (A i p o n Hp Gp) as (x & Hx & <- & <-).
  destruct (A j q o' n' Hq Gq) as (y & Hy & <- & <-).
  assert (Hxy : x <> y)
    by (intros ->; apply (B i j p q (g_old y) (g_new y) (g_old y) (g_new y)); auto).
  destruct (in_two_split _ x y Hx Hy Hxy) as [(l1 & l2 & l3 & E)|(l1 & l2 & l3 & E)].
  - rewrite E in S. split.
    + apply (stacked_counts_apart _ _ _ _ _ _ S).
    + left. apply (stacked_apart _ _ _ _ _ _ _ S eq_refl).
  - rewrite E in S. split.
    + intros Ec. apply (stacked_counts_apart _ _ _ _ _ _ S). symmetry. exact Ec.
    + right. apply (stacked_apart _ _ _ _ _ _ _ S eq_refl).
Qed.

Lemma concurrent_calls_get_distinct_addresses_witness :
  hdr_count (hdr_pack 1 69) <> hdr_count (hdr_pack 2 90)
  /\ (hdr_offset (hdr_pack 1 69) <= hdr_offset (hdr_pack 1 69)
      \/ hdr_offset (hdr_pack 2 90) <= hdr_offset (hdr_pack 0 48)).
Proof.
  assert (Hnone : forall p, In p (w_procs two_callers) -> granted p = None)
    by (intros p [<-|[<-|[]]]; reflexivity).
  assert (Hb : hdr_offset (val (w_seg two_callers)) + pending (w_procs two_callers) < 2 ^ 32)
    by (vm_compute; reflexivity).
  apply (concurrent_calls_get_distinct_addresses fair_env late_store two_callers
           eq_refl Hnone Hb 0%nat 1%nat
           {| p_map := map_ fresh_table; p_pc := Returned (hdr_pack 0 48) (hdr_pack 1 69) |}
           {| p_map := map_ fresh_table; p_pc := Returned (hdr_pack 1 69) (hdr_pack 2 90) |}
           (hdr_pack 0 48) (hdr_pack 1 69) (hdr_pack 1 69) (hdr_pack 2 90)).
  - discriminate.
  - reflexivity.
  - reflexivity.
  - reflexivity.
  - reflexivity.
Defined.

(** ** Why a swap fails *)

Lemma last_hdr_app l1 : forall base l2,
  last_hdr base (l1 ++ l2) = last_hdr (last_hdr base l1) l2.
Proof. induction l1 as [|y r IH]; intros base l2; simpl; [reflexivity|apply IH]. Qed.

Lemma step_swap_read e g p g' p' won name k old_hdr :
  step e g p = (g', p', won) ->
  p_pc p' = Swap name k old_hdr ->
  (won = None /\ old_hdr = val g)
  \/ (won = None /\ p_pc p = Swap name k old_hdr).
Proof.
  unfold step.
  destruct (p_pc p) as [n0 k0|n0 k0 o0|n0 k0 o0 n1|o0 n1|] eqn:Hpc.
  - destruct (symtab (p_map p)); intros H; injection H as <- <- <-; cbn [p_pc];
      intros Hs; [injection Hs as <- <- <-; left; auto|discriminate].
  - unfold cas. cbn [val seg view set_seg set_map].
    destruct (val g =? o0) eqn:E; intros H; injection H as <- <- <-; cbn [p_pc];
      intros Hs; [discriminate|injection Hs as <- <- <-; left; auto].
  - destruct (write_sym e o0 n1 n0 k0 (view g (p_map p)));
      intros H; injection H as <- <- <-; cbn [p_pc]; discriminate.
  - intros H; injection H as <- <- <-. rewrite Hpc. discriminate.
  - intros H; injection H as <- <- <-. rewrite Hpc. discriminate.
Qed.

Lemma schedule_keeps_read e v0 w i :
  shared_inv v0 w -> read_from v0 w -> read_from v0 (schedule e w i).
Proof.
  intros (S & L & _) R. unfold schedule.
  destruct (nth_error (w_procs w) i) as [p|] eqn:Hp; [|exact R].
  destruct (step e (w_seg w) p) as [[g' p'] won] eqn:Est.
  intros j q name k old_hdr Hq Hpc. cbn [w_procs w_log] in *.
  rewrite nth_error_set_nth in Hq.
  destruct (Nat.eqb i j) eqn:Eij.
  - apply Nat.eqb_eq in Eij. subst j. rewrite Hp in Hq. injection Hq as <-.
    destruct (step_swap_read _ _ _ _ _ _ _ _ _ Est Hpc) as [[-> ->]|[-> Hold]].
    + exists (w_log w), []. rewrite !app_nil_r. auto.
    + destruct (R i p name k old_hdr Hp Hold) as (l1 & l2 & E & Ho).
      exists l1, l2. rewrite app_nil_r. auto.
  - destruct (R j q name k old_hdr Hq Hpc) as (l1 & l2 & E & Ho).
    exists l1, (l2 ++ match won with Some x => [x] | None => [] end).
    rewrite E, app_assoc. auto.
Qed.

Lemma run_keeps_read e v0 order : forall w,
  shared_inv v0 w -> read_from v0 w ->
  shared_inv v0 (run e order w) /\ read_from v0 (run e order w).
Proof.
  induction order as [|i r IH]; intros w I R; [split; assumption|].
  apply IH; [apply schedule_keeps_inv, I|apply (schedule_keeps_read e v0), R; exact I].
Qed.

(** The retry loop is lock-free: whatever the order of steps, a call
    finds the header changed, and has to try again, only when another
    call has won its swap from the very header this call had read. *)
Theorem failed_swap_means_another_won e order w :
  w_log w = [] ->
  (forall p name k old_hdr, In p (w_procs w) -> p_pc p <> Swap name k old_hdr) ->
  hdr_offset (val (w_seg w)) + pending (w_procs w) < 2 ^ 32 ->
  let w' := run e order w in
  forall i p name k old_hdr,
    nth_error (w_procs w') i = Some p -> p_pc p = Swap name k old_hdr ->
    old_hdr <> val (w_seg w') ->
    exists x, In x (w_log w') /\ g_old x = old_hdr
              /\ hdr_offset old_hdr < hdr_offset (val (w_seg w')).
Proof.
  intros Hlog Hnone Hb w' i p name k old_hdr Hp Hpc Hne.
  assert (I : shared_inv (val (w_seg w)) w)
    by (unfold shared_inv; rewrite Hlog; simpl; auto).
  assert (R : read_from (val (w_seg w)) w).
  { intros j q n0 k0 o0 Hq Hq'. apply nth_error_In in Hq.
    exfalso. apply (Hnone q n0 k0 o0 Hq Hq'). }
  destruct (run_keeps_read e _ order w I R) as [(S & L & _) R']. fold w' in S, L, R'.
  destruct (R' i p name k old_hdr Hp Hpc) as (l1 & l2 & E & Ho).
  destruct l2 as [|x l2].
  - exfalso. apply Hne. rewrite <- L, E, app_nil_r. exact Ho.
  - exists x. rewrite E in S |- *.
    pose proof (stacked_tail _ _ _ S) as S2. cbn [stacked] in S2.
    destruct S2 as (S21 & _).
    split; [apply in_or_app; right; left; reflexivity|].
    split; [rewrite S21; symmetry; exact Ho|].
    rewrite <- S21 in Ho. subst old_hdr.
    assert (Hx : In x (l1 ++ x :: l2)) by (apply in_or_app; right; left; reflexivity).
    pose proof (stacked_in_strict _ _ _ S Hx) as Hlt.
    destruct (stacked_offsets _ _ S) as [_ O]. destruct (O x Hx) as [_ O2].
    rewrite <- E, L in O2. lia.
Qed.

Lemma failed_swap_means_another_won_witness :
  let w' := run fair_env [0; 1; 0]%nat two_callers in
  exists x, In x (w_log w') /\ g_old x = hdr_pack 0 48
            /\ hdr_offset (hdr_pack 0 48) < hdr_offset (val (w_seg w')).
Proof.
  assert (Hnone : forall p name k old_hdr,
            In p (w_procs two_callers) -> p_pc p <> Swap name k old_hdr)
    by (intros p name k old_hdr [<-|[<-|[]]]; discriminate).
  assert (Hb : hdr_offset (val (w_seg two_callers)) + pending (w_procs two_callers) < 2 ^ 32)
    by (vm_compute; reflexivity).
  apply (failed_swap_means_another_won fair_env [0; 1; 0]%nat two_callers
           eq_refl Hnone Hb 1%nat
           {| p_map := map_ fresh_table; p_pc := Swap "b" true (hdr_pack 0 48) |}
           "b" true (hdr_pack 0 48)).
  - reflexivity.
  - reflexivity.
  - vm_compute. discriminate.
Defined.

(** ** Under libpython2 *)

Lemma trace_keeps_skip e h rbc args s r s' :
  uftrace_trace_python e h rbc args s = Ok r s' ->
  skip_first_frame (adp s') = skip_first_frame (adp s).
Proof.
  intros H. destruct args as [[[frame event] x]|];
    [|injection H as _ <-; reflexivity].
  rewrite trace_unfold in H.
  assert (Hseen : skip_first_frame (adp (seen frame s)) = skip_first_frame (adp s))
    by (unfold seen; destruct (first_frame (adp s) =? NULL); reflexivity).
  rewrite <- Hseen. clear Hseen. set (t := seen frame s) in *. clearbody t.
  destruct (skipped frame s); [injection H as _ <-; reflexivity|].
  unfold trace_event in H. unfold bind at 1 in H.
  destruct (streq event "call" || streq event "c_call").
  - unfold bind at 1 in H.
    destruct (convert_function_addr e h rbc frame x (streq event "call") t)
      as [a s1| | |] eqn:Ec; try discriminate.
    destruct (convert_keeps_adapter _ _ _ _ _ _ _ _ _ Ec) as (_ & _ & _ & H2).
    unfold call_enter, get_trace_function in H.
    destruct (cygprof_enter (adp s1) =? NULL); [discriminate|].
    cbn [adp log_hook] in H.
    destruct (trace_func (adp s1)); injection H as _ <-; exact H2.
  - unfold call_exit, get_trace_function, ret in H.
    destruct (streq event "return" || streq event "c_return");
      [|destruct (streq event "c_exception")];
      try (destruct (cygprof_exit (adp t) =? NULL); [discriminate|]);
      cbn [adp log_hook] in H;
      destruct (trace_func (adp t)); injection H as _ <-; reflexivity.
Qed.

Lemma later_keeps_skip e h rbc s s' :
  later e h rbc s s' -> skip_first_frame (adp s') = skip_first_frame (adp s).
Proof.
  induction 1 as [s|s s1 s2 frame args k a L IH E|s s1 s2 a L IH E|s s1 s2 args r L IH E].
  - reflexivity.
  - destruct (convert_keeps_adapter _ _ _ _ _ _ _ _ _ E) as (_ & _ & _ & H4).
    rewrite H4. exact IH.
  - unfold call_enter in E. destruct (cygprof_enter (adp s1) =? NULL); [discriminate|].
    injection E as <-. exact IH.
  - rewrite (trace_keeps_skip _ _ _ _ _ _ _ E). exact IH.
Qed.

(** Built for libpython2 the module never sets [skip_first_frame]: from
    the first event on, every event is dispatched, the one on the
    interpreter's outermost frame included. *)
Theorem python2_skips_no_frame e h rbc f s1 s2 frame event x :
  inituftrace_python e f boot_state = Ok tt s1 ->
  later e h rbc s1 s2 ->
  skipped frame s2 = false
  /\ uftrace_trace_python e h rbc (Some (frame, event, x)) s2
     = trace_event e h rbc frame event x (seen frame s2).
Proof.
  intros E L.
  assert (H1 : skip_first_frame (adp s1) = false).
  { unfold inituftrace_python, init_uftrace, init_symtab, find_libmcount_funcs,
      ftruncate, map_pages, bind, modify, ret, pr_err in E.
    repeat match type of E with
           | context [if ?b then _ else _] => destruct b; try discriminate
           end;
      injection E as <-; reflexivity. }
  assert (H2 : skipped frame s2 = false).
  { unfold skipped.
    replace (skip_first_frame (adp (seen frame s2))) with (skip_first_frame (adp s2))
      by (unfold seen; destruct (first_frame (adp s2) =? NULL); reflexivity).
    rewrite (later_keeps_skip _ _ _ _ _ L), H1. reflexivity. }
  split; [exact H2|]. rewrite trace_unfold, H2. reflexivity.
Qed.

Lemma python2_skips_no_frame_witness :
  let s1 := final_state (inituftrace_python fair_env 7000 boot_state) in
  skipped 900 s1 = false
  /\ uftrace_trace_python fair_env demo_heap keep_shape (Some (900, "call"%string, 0)) s1
     = trace_event fair_env demo_heap keep_shape 900 "call" 0 (seen 900 s1).
Proof.
  intros s1.
  apply (python2_skips_no_frame fair_env demo_heap keep_shape 7000 s1 s1 900 "call" 0).
  - reflexivity.
  - apply later_refl.
Defined.
